(** * ConnectTool: peer registry, poll interval and TUN adapters

    A shallow embedding of the C++ sources
      - steam/steam_networking_manager.{h,cpp}  (peer registry and egress sends)
      - steam/steam_message_handler.h           (poll interval bounds)
      - tun/tun_linux.cpp, tun/tun_macos.cpp    (TUN device adapters)
    together with the properties the design document states about them.

    Conventions.  Integers of the program are [Z] (or [N] for the opaque
    64-bit peer identities, on which no arithmetic is done); [size_t] and
    [int] conversions are written out where the code performs them.  Calls
    into the Steam transport, the kernel and the shell are not executed:
    what the program hands to them is recorded (a trace of events, the list
    of shell commands), and what they answer is an input of the model. *)

From Stdlib Require Import ZArith Lia Bool.
From Stdlib Require Import Strings.Ascii Strings.Byte.
From stdpp Require Import gmap strings list sorting pretty.

Open Scope Z_scope.

(** The byte holding the low eight bits of an integer. *)
Definition byte_of_Z (z : Z) : byte :=
  match Byte.of_N (Z.to_N (z mod 256)) with
  | Some b => b
  | None => x00
  end.

(** ** Wire header of the VPN channel *)

Module VpnProtocol.

Inductive VpnMessageType := SESSION_HELLO | IP_PACKET | PING | PONG.

(** Modelled from the spec: net/vpn_protocol.h, which declares
    [VpnMessageType] and [VpnMessageHeader], is not part of the sources at
    hand.  The wire format section gives the type codes
    1=SESSION_HELLO, 2=IP_PACKET, 3=PING, 4=PONG. *)
Definition type_code (t : VpnMessageType) : Z :=
  match t with
  | SESSION_HELLO => 1
  | IP_PACKET => 2
  | PING => 3
  | PONG => 4
  end.

Record VpnMessageHeader := {
  type : VpnMessageType;
  length : Z                     (* uint16_t *)
}.

(** Modelled from the spec: the object representation of a
    [VpnMessageHeader], i.e. the [sizeof(helloMsg)] bytes that
    [SendMessageToUser] is given.  The spec fixes it as one type byte
    followed by the 16-bit length in network byte order, three bytes in
    all. *)
Definition header_bytes (h : VpnMessageHeader) : list byte :=
  [ byte_of_Z (type_code (type h));
    byte_of_Z (Z.shiftr (length h) 8);
    byte_of_Z (Z.land (length h) 255) ].

End VpnProtocol.

(** ** SteamNetworkingManager *)

Module SteamNetworkingManager.

(** [CSteamID], compared through its 64-bit value. *)
Abbreviation PeerId := N (only parsing).

(** Steamworks SDK constants (steamnetworkingtypes.h, steamclientpublic.h). *)
Definition k_nSteamNetworkingSend_Reliable : Z := 8.
Definition k_nSteamNetworkingSend_AutoRestartBrokenSession : Z := 32.
Definition k_EResultOK : Z := 1.

(** steam_networking_manager.h: [static constexpr int VPN_CHANNEL = 0]. *)
Definition VPN_CHANNEL : Z := 0.

(** What the manager does to the outside world, in program order.
    [EvLock]/[EvUnlock] are the construction and destruction of a
    [std::lock_guard] on [peersMutex_]. *)
Inductive Event :=
| EvLock
| EvUnlock
| EvSend (peer : PeerId) (data : list byte) (flags : Z) (channel : Z)
| EvCloseSession (peer : PeerId)
| EvUserJoined (peer : PeerId)
| EvUserLeft (peer : PeerId).

(** The fields of the manager that the registry operations read or write.
    The two pointers are represented by whether they are non-null;
    [self] is the value of [SteamUser()->GetSteamID()]. *)
Record Manager := {
  self : PeerId;
  m_pMessagesInterface : bool;
  vpnBridge_ : bool;
  peers_ : gset N
}.

Definition set_peers (ps : gset N) (m : Manager) : Manager :=
  {| self := self m;
     m_pMessagesInterface := m_pMessagesInterface m;
     vpnBridge_ := vpnBridge_ m;
     peers_ := ps |}.

(** A member function: it may change the manager, it emits events, and it
    has no defined result ([None]) when it calls through a null
    [m_pMessagesInterface]. *)
Definition Action (A : Type) : Type :=
  Manager → option (A * Manager * list Event).

#[export] Instance Action_ret : MRet Action :=
  λ A x m, Some (x, m, []).

#[export] Instance Action_bind : MBind Action :=
  λ A B f c m,
    match c m with
    | None => None
    | Some (a, m1, t1) =>
        match f a m1 with
        | None => None
        | Some (b, m2, t2) => Some (b, m2, t1 ++ t2)
        end
    end.

Definition emit (e : Event) : Action unit := λ m, Some (tt, m, [e]).
Definition get : Action Manager := λ m, Some (m, m, []).
Definition put_peers (ps : gset N) : Action unit :=
  λ m, Some (tt, set_peers ps m, []).
Definition null_dereference {A} : Action A := λ _, None.

Definition peers_get : Action (gset N) := m ← get; mret (peers_ m).
Definition m_pMessagesInterface_get : Action bool :=
  m ← get; mret (m_pMessagesInterface m).
Definition vpnBridge_get : Action bool := m ← get; mret (vpnBridge_ m).
Definition SteamUser_GetSteamID : Action PeerId := m ← get; mret (self m).

Definition lock : Action unit := emit EvLock.
Definition unlock : Action unit := emit EvUnlock.

Definition when (b : bool) (c : Action unit) : Action unit :=
  if b then c else mret tt.

Fixpoint for_each {A} (l : list A) (body : A → Action unit) : Action unit :=
  match l with
  | [] => mret tt
  | x :: l' => body x ;; for_each l' body
  end.

(** Iteration over a [std::set<CSteamID>] visits the keys in increasing
    order. *)
Definition in_order (ps : gset N) : list N := merge_sort N.le (elements ps).

(** [peers_.insert(peerID).second] *)
Definition peers_insert (peerID : PeerId) : Action bool :=
  m ← get;
  put_peers ({[peerID]} ∪ peers_ m) ;;
  mret (bool_decide (peerID ∉ peers_ m)).

(** [peers_.erase(peerID)], the number of elements removed *)
Definition peers_erase (peerID : PeerId) : Action Z :=
  m ← get;
  put_peers (peers_ m ∖ {[peerID]}) ;;
  mret (if bool_decide (peerID ∈ peers_ m) then 1 else 0).

Section Transport.
(** The [EResult] the transport answers to a send; the manager has no
    influence on it. *)
Variable transport_result : PeerId → list byte → Z → Z → Z.

(** [m_pMessagesInterface->SendMessageToUser(identity, data, size, flags,
    channel)] *)
Definition SendMessageToUser (peer : PeerId) (data : list byte)
    (flags channel : Z) : Action Z :=
  m ← get;
  if m_pMessagesInterface m
  then emit (EvSend peer data flags channel) ;;
       mret (transport_result peer data flags channel)
  else null_dereference.

(** [m_pMessagesInterface->CloseSessionWithUser(identity)] *)
Definition CloseSessionWithUser (peer : PeerId) : Action unit :=
  m ← get;
  if m_pMessagesInterface m
  then emit (EvCloseSession peer)
  else null_dereference.

(** steam_networking_manager.cpp, lines 152-161 *)
Definition sendMessageToUser (peerID : PeerId) (data : list byte)
    (flags : Z) : Action bool :=
  iface ← m_pMessagesInterface_get;
  if negb iface then mret false
  else
    result ← SendMessageToUser peerID data flags VPN_CHANNEL;
    mret (result =? k_EResultOK).

(** lines 163-173; the [lock_guard] lives to the end of the function *)
Definition broadcastMessage (data : list byte) (flags : Z) : Action unit :=
  iface ← m_pMessagesInterface_get;
  if negb iface then mret tt
  else
    lock ;;
    ps ← peers_get;
    for_each (in_order ps)
      (λ peerID, SendMessageToUser peerID data flags VPN_CHANNEL ;; mret tt) ;;
    unlock.

(** lines 175-214; the [lock_guard] lives in a block of its own around the
    insertion *)
Definition addPeer (peerID : PeerId) : Action unit :=
  me ← SteamUser_GetSteamID;
  if bool_decide (peerID = me) then mret tt
  else
    lock ;;
    isNewPeer ← peers_insert peerID;
    unlock ;;
    if isNewPeer : bool then
      let helloMsg := {| VpnProtocol.type := VpnProtocol.SESSION_HELLO;
                         VpnProtocol.length := 0 |} in
      let flags := Z.lor k_nSteamNetworkingSend_Reliable
                         k_nSteamNetworkingSend_AutoRestartBrokenSession in
      SendMessageToUser peerID (VpnProtocol.header_bytes helloMsg) flags
        VPN_CHANNEL ;;
      bridge ← vpnBridge_get;
      when bridge (emit (EvUserJoined peerID))
    else mret tt.

(** lines 216-234; the [lock_guard] lives to the end of the function *)
Definition removePeer (peerID : PeerId) : Action unit :=
  lock ;;
  erased ← peers_erase peerID;
  (if 0 <? erased then
     iface ← m_pMessagesInterface_get;
     when iface (CloseSessionWithUser peerID) ;;
     bridge ← vpnBridge_get;
     when bridge (emit (EvUserLeft peerID))
   else mret tt) ;;
  unlock.

(** lines 236-252; the [lock_guard] lives to the end of the function *)
Definition clearPeers : Action unit :=
  lock ;;
  ps ← peers_get;
  for_each (in_order ps)
    (λ peerID,
       iface ← m_pMessagesInterface_get;
       when iface (CloseSessionWithUser peerID) ;;
       bridge ← vpnBridge_get;
       when bridge (emit (EvUserLeft peerID))) ;;
  put_peers ∅ ;;
  unlock.

(** A caller's use of the control surface: a sequence of calls. *)
Inductive Call :=
| CallAddPeer (peerID : PeerId)
| CallRemovePeer (peerID : PeerId)
| CallClearPeers
| CallSendMessageToUser (peerID : PeerId) (data : list byte) (flags : Z)
| CallBroadcastMessage (data : list byte) (flags : Z).

Definition call (c : Call) : Action unit :=
  match c with
  | CallAddPeer p => addPeer p
  | CallRemovePeer p => removePeer p
  | CallClearPeers => clearPeers
  | CallSendMessageToUser p data flags => sendMessageToUser p data flags ;; mret tt
  | CallBroadcastMessage data flags => broadcastMessage data flags
  end.

Definition calls (cs : list Call) : Action unit := for_each cs call.

End Transport.

(** *** Reading a trace *)

(** The sends of a trace: destination, bytes, flags, channel. *)
Fixpoint sends (t : list Event) : list (PeerId * list byte * Z * Z) :=
  match t with
  | [] => []
  | EvSend p d f c :: t' => (p, d, f, c) :: sends t'
  | _ :: t' => sends t'
  end.

Definition sent_to (p : PeerId) (t : list Event) : Prop :=
  ∃ d f c, (p, d, f, c) ∈ sends t.

(** Everything but the taking and releasing of the mutex. *)
Definition is_lock_event (e : Event) : bool :=
  match e with
  | EvLock | EvUnlock => true
  | _ => false
  end.

Definition effects (t : list Event) : list Event :=
  filter (λ e, is_lock_event e = false) t.




(** What the departure of one peer shows outside: the session close when
    there is a transport, the observer call when there is a bridge. *)
Definition leave_events (m : Manager) (p : PeerId) : list Event :=
  (if m_pMessagesInterface m then [EvCloseSession p] else [])
  ++ (if vpnBridge_ m then [EvUserLeft p] else []).

(** The bytes of a SESSION_HELLO header and the flags it is sent with. *)
Definition hello_frame : list byte := [x01; x00; x00].
Definition hello_flags : Z :=
  Z.lor k_nSteamNetworkingSend_Reliable
        k_nSteamNetworkingSend_AutoRestartBrokenSession.

(** *** Statements about runs *)








Section Statements.
Variable transport_result : PeerId → list byte → Z → Z → Z.


(** "After [removePeer(p)] nothing is sent to [p] until [addPeer(p)]", for
    every later sequence of calls. *)
Definition quiet_after_removePeer : Prop :=
  ∀ (p : PeerId) m cs m1 t1 m2 t2,
    p ≠ self m →
    CallAddPeer p ∉ cs →
    removePeer p m = Some (tt, m1, t1) →
    calls transport_result cs m1 = Some (tt, m2, t2) →
    ¬ sent_to p t2.

End Statements.

(** *** The other members of the manager *)

(** [getPeers] (lines 254-258): a copy of the registry, taken under the
    mutex. *)
Definition getPeers : Action (gset N) :=
  lock ;;
  ps ← peers_get;
  unlock ;;
  mret ps.

(** [isConnected] (steam_networking_manager.h, line 61): [!peers_.empty()],
    read without the mutex. *)
Definition isConnected : Action bool :=
  ps ← peers_get;
  mret (negb (bool_decide (ps = ∅))).

(** What a sequence of calls does to the registry, as a set: the registry
    operations without their mutex, transport and bridge. *)
Definition registry_after_call (me : PeerId) (c : Call) (ps : gset N)
    : gset N :=
  match c with
  | CallAddPeer p => if bool_decide (p = me) then ps else {[p]} ∪ ps
  | CallRemovePeer p => ps ∖ {[p]}
  | CallClearPeers => ∅
  | CallSendMessageToUser _ _ _ => ps
  | CallBroadcastMessage _ _ => ps
  end.

Definition registry_after (me : PeerId) (cs : list Call) (ps : gset N)
    : gset N :=
  foldl (λ ps c, registry_after_call me c ps) ps cs.

(** The peers a sequence of calls names as the target of an [addPeer] or of
    a [sendMessageToUser]. *)
Definition named_targets (cs : list Call) : list PeerId :=
  flat_map (λ c, match c with
                 | CallAddPeer p => [p]
                 | CallSendMessageToUser p _ _ => [p]
                 | _ => []
                 end) cs.

(** Events of the members that also answer session requests and shut the
    API down: those of the registry operations, and two more calls. *)
Inductive ApiEvent :=
| EvRegistry (e : Event)
| EvAcceptSession (peer : PeerId)
| EvSteamAPIShutdown.

Definition Api (A : Type) : Type :=
  Manager → option (A * Manager * list ApiEvent).

#[export] Instance Api_ret : MRet Api :=
  λ A x m, Some (x, m, []).

#[export] Instance Api_bind : MBind Api :=
  λ A B f c m,
    match c m with
    | None => None
    | Some (a, m1, t1) =>
        match f a m1 with
        | None => None
        | Some (b, m2, t2) => Some (b, m2, t1 ++ t2)
        end
    end.

Definition lift {A} (c : Action A) : Api A :=
  λ m,
    match c m with
    | None => None
    | Some (a, m', t) => Some (a, m', EvRegistry <$> t)
    end.

(** [m_pMessagesInterface->AcceptSessionWithUser(identity)] *)
Definition AcceptSessionWithUser (peer : PeerId) : Api unit :=
  λ m,
    if m_pMessagesInterface m
    then Some (tt, m, [EvAcceptSession peer])
    else None.

(** [OnSessionRequest] (lines 11-24): the session of a known peer is
    accepted, under the mutex; any other request is left unanswered. *)
Definition OnSessionRequest (remoteSteamID : PeerId) : Api unit :=
  lift lock ;;
  ps ← lift peers_get;
  (if bool_decide (remoteSteamID ∈ ps)
   then AcceptSessionWithUser remoteSteamID
   else mret tt) ;;
  lift unlock.

(** [OnSessionFailed] (lines 27-32) writes a log line and nothing else. *)
Definition OnSessionFailed (remoteSteamID : PeerId) : Api unit := mret tt.

(** [shutdown] (lines 134-150): every session is closed and the registry
    emptied under the mutex, then [SteamAPI_Shutdown()] is called. *)
Definition close_all_sessions : Action unit :=
  lock ;;
  ps ← peers_get;
  for_each (in_order ps)
    (λ peerID,
       iface ← m_pMessagesInterface_get;
       when iface (CloseSessionWithUser peerID)) ;;
  put_peers ∅ ;;
  unlock.

Definition SteamAPI_Shutdown : Api unit :=
  λ m, Some (tt, m, [EvSteamAPIShutdown]).

Definition shutdown : Api unit :=
  lift close_all_sessions ;;
  SteamAPI_Shutdown.

(** Among the events of such a member: the peers whose session was closed,
    those whose session was accepted, and those the bridge was called
    about. *)
Definition api_closes (t : list ApiEvent) : list PeerId :=
  flat_map (λ e, match e with
                 | EvRegistry (EvCloseSession p) => [p]
                 | _ => []
                 end) t.

Definition api_accepts (t : list ApiEvent) : list PeerId :=
  flat_map (λ e, match e with
                 | EvAcceptSession p => [p]
                 | _ => []
                 end) t.

Definition api_bridge_calls (t : list ApiEvent) : list PeerId :=
  flat_map (λ e, match e with
                 | EvRegistry (EvUserJoined p) => [p]
                 | EvRegistry (EvUserLeft p) => [p]
                 | _ => []
                 end) t.

(** *** Session status queries (lines 260-305) *)

(** Steamworks SDK constants (steamnetworkingtypes.h). *)
Definition k_ESteamNetworkingConnectionState_Connected : Z := 3.
Definition k_nSteamNetworkConnectionInfoFlags_Relayed : Z := 16.

(** What [GetSessionConnectionInfo] reports for a peer: the connection
    state it returns, and the two fields the queries read from the
    structures it fills. *)
Record SessionInfo := {
  connection_state : Z;
  m_nFlags : Z;
  m_nPing : Z
}.

Section Status.
Variable GetSessionConnectionInfo : PeerId → SessionInfo.

Definition getPeerPing (peerID : PeerId) (m : Manager) : Z :=
  if negb (m_pMessagesInterface m) then -1
  else
    let info := GetSessionConnectionInfo peerID in
    if connection_state info =? k_ESteamNetworkingConnectionState_Connected
    then m_nPing info
    else -1.

Definition isPeerConnected (peerID : PeerId) (m : Manager) : bool :=
  if negb (m_pMessagesInterface m) then false
  else
    connection_state (GetSessionConnectionInfo peerID)
    =? k_ESteamNetworkingConnectionState_Connected.

Definition getPeerConnectionType (peerID : PeerId) (m : Manager) : string :=
  if negb (m_pMessagesInterface m) then "N/A"
  else
    let info := GetSessionConnectionInfo peerID in
    if connection_state info =? k_ESteamNetworkingConnectionState_Connected
    then
      if negb (Z.land (m_nFlags info)
                 k_nSteamNetworkConnectionInfoFlags_Relayed =? 0)
      then "中继"
      else "直连"
    else "N/A".

End Status.

End SteamNetworkingManager.

(** ** SteamMessageHandler: the poll interval *)

Module SteamMessageHandler.

(** steam_message_handler.h, in microseconds. *)
Definition MIN_POLL_INTERVAL : Z := 100.
Definition MAX_POLL_INTERVAL : Z := 1000.
Definition POLL_INCREMENT : Z := 100.

(** Modelled from the spec: steam_message_handler.cpp, which defines the
    constructor and [pollMessages], is not part of the sources at hand.  The
    spec's tick rule is: if at least one message was received the interval
    becomes the minimum, otherwise it becomes
    [min(interval + increment, max)].  [received] is the number of messages
    the tick drained; the result is the new [currentPollInterval_]. *)
Definition pollMessages (received : nat) (currentPollInterval_ : Z) : Z :=
  match received with
  | S _ => MIN_POLL_INTERVAL
  | O => Z.min (currentPollInterval_ + POLL_INCREMENT) MAX_POLL_INTERVAL
  end.

(** Modelled from the spec: the interval a freshly created handler starts
    with, the minimum (an idle run of k ticks ends at min + k * increment). *)
Definition initialPollInterval : Z := MIN_POLL_INTERVAL.

(** The interval after each tick of a run, oldest first; [drains] gives the
    number of messages each tick received. *)
Fixpoint intervals (drains : list nat) (currentPollInterval_ : Z) : list Z :=
  match drains with
  | [] => []
  | received :: rest =>
      let next := pollMessages received currentPollInterval_ in
      next :: intervals rest next
  end.

Definition within_bounds (interval : Z) : Prop :=
  MIN_POLL_INTERVAL <= interval <= MAX_POLL_INTERVAL.

End SteamMessageHandler.

(** ** What the TUN adapters share: libc and kernel interface *)

Module Posix.

(** The answer of [::read]: the bytes placed at the start of the buffer it
    was given (their number is the return value), or -1 with [errno]. *)
Inductive ReadAnswer :=
| ReadBytes (data : list byte)
| ReadErrno (errno : Z).

(** The answer of [::write]: the number of bytes taken, or -1 with [errno]. *)
Inductive WriteAnswer :=
| WriteCount (n : Z)
| WriteErrno (errno : Z).

Definition SIZE_MAX : Z := 2 ^ 64 - 1.
Definition INT_MAX : Z := 2 ^ 31 - 1.

(** [size_t] arithmetic, 64-bit. *)
Definition size_add (a b : Z) : Z := (a + b) mod 2 ^ 64.

(** [static_cast<int>] of an integer value. *)
Definition to_int (z : Z) : Z := (z + 2 ^ 31) mod 2 ^ 32 - 2 ^ 31.

(** [operator<<] of an [int] to a stream. *)
Definition decimal (z : Z) : string := pretty z.

(** [memcpy(dst, src, n)], seen as the new contents of [dst]. *)
Definition memcpy (dst src : list byte) (n : nat) : list byte :=
  take n src ++ drop n dst.

(** The four bytes in memory of [htonl(x)]. *)
Definition htonl_bytes (x : Z) : list byte :=
  [ byte_of_Z (Z.shiftr x 24); byte_of_Z (Z.shiftr x 16);
    byte_of_Z (Z.shiftr x 8); byte_of_Z x ].

(** [inet_ntop(AF_INET, ...)] of an address given as [ntohl(s_addr)]. *)
Definition inet_ntop (addr : Z) : string :=
  decimal (Z.land (Z.shiftr addr 24) 255) +:+ "." +:+
  decimal (Z.land (Z.shiftr addr 16) 255) +:+ "." +:+
  decimal (Z.land (Z.shiftr addr 8) 255) +:+ "." +:+
  decimal (Z.land addr 255).

(** The loop of [netmaskToPrefixLength]:
      while (mask & 0x80000000) { prefix++; mask <<= 1; }
    on a [uint32_t].  Each round clears one more low bit, so 32 rounds are
    always enough; [fuel] counts them. *)
Fixpoint leading_ones (fuel : nat) (mask prefix : Z) : Z :=
  match fuel with
  | O => prefix
  | S fuel' =>
      if Z.land mask 2147483648 =? 0 then prefix
      else leading_ones fuel' (Z.shiftl mask 1 mod 2 ^ 32) (prefix + 1)
  end.

(** Three behaviours of the kernel.  With one datagram pending, a read takes
    at most [count] bytes of it and the rest is discarded; a read may fail
    with an [errno]; a write may take every byte it is given. *)
Definition datagram (d : list byte) (count : Z) : ReadAnswer :=
  ReadBytes (take (Z.to_nat count) d).

Definition failing (errno : Z) (count : Z) : ReadAnswer := ReadErrno errno.

Definition accepting (bytes : list byte) : WriteAnswer :=
  WriteCount (Z.of_nat (length bytes)).

(** The answer of a system call that returns an [int]: the value, and what
    [errno] holds afterwards (meaningful when the value says failure). *)
Record SysRet := {
  sys_ret : Z;
  sys_errno : Z
}.

(** The system calls the adapters make besides reading and writing. *)
Inductive Syscall :=
| SysOpen (path : string)
| SysIoctlTunSetIff (fd : Z) (name : string)
| SysSocket
| SysIoctlCtlInfo (fd : Z)
| SysConnect (fd : Z) (sc_unit : Z)
| SysFcntlGetFl (fd : Z)
| SysFcntlSetFl (fd : Z) (flags : Z)
| SysClose (fd : Z).

(** [s.c_str()] as a C string: the characters before the first NUL. *)
Fixpoint c_str (s : string) : string :=
  match s with
  | EmptyString => EmptyString
  | String c rest =>
      if Ascii.eqb c Ascii.zero then EmptyString else String c (c_str rest)
  end.

(** The 32-bit netmask with [k] leading ones. *)
Definition mask_of_prefix (k : Z) : Z := 2 ^ 32 - 2 ^ (32 - k).

End Posix.

(** ** TunLinux (tun/tun_linux.cpp) *)

Module TunLinux.
Import Posix.

(** errno values of Linux. *)
Definition EAGAIN : Z := 11.
Definition EWOULDBLOCK : Z := 11.

Record State := {
  fd_ : Z;
  deviceName_ : string;
  lastError_ : string;
  mtu_ : Z;
  nonBlocking_ : bool
}.

Definition setError (error : string) (st : State) : State :=
  {| fd_ := fd_ st; deviceName_ := deviceName_ st; lastError_ := error;
     mtu_ := mtu_ st; nonBlocking_ := nonBlocking_ st |}.

Definition is_open (st : State) : bool := 0 <=? fd_ st.

Section Environment.
(** libc: [strerror], and [inet_pton(AF_INET, s, &addr)], which yields
    [ntohl(addr.s_addr)] when it returns 1 and nothing otherwise. *)
Variable strerror : Z → string.
Variable inet_pton : string → option Z.
(** [system(cmd)]: the exit status, which may depend on the commands run
    before it. *)
Variable system : list string → string → Z.

Definition setErrnoError (prefix : string) (errno : Z) (st : State) : State :=
  setError (prefix +:+ ": " +:+ strerror errno +:+
            " (errno " +:+ decimal errno +:+ ")") st.

Definition netmaskToPrefixLength (netmask : string) : Z :=
  match inet_pton netmask with
  | None => 24
  | Some mask => leading_ones 32 mask 0
  end.

(** [runCommand]: the status, and the commands run so far. *)
Definition runCommand (history : list string) (cmd : string)
    : Z * list string :=
  (system history cmd, history ++ [cmd]).

(** [read(buffer, size)]: [buffer] is the caller's memory of [size] bytes,
    [kernel_read count] what [::read(fd_, ., count)] answers.  The result is
    the return value, the buffer afterwards and the adapter afterwards. *)
Definition read (st : State) (buffer : list byte)
    (kernel_read : Z → ReadAnswer) : Z * list byte * State :=
  let size := Z.of_nat (length buffer) in
  if fd_ st <? 0 then (-1, buffer, st)
  else
    match kernel_read size with
    | ReadErrno errno =>
        if (errno =? EAGAIN) || (errno =? EWOULDBLOCK)
        then (0, buffer, st)
        else (-1, buffer, setErrnoError "read failed" errno st)
    | ReadBytes data =>
        let n := Z.of_nat (length data) in
        (to_int n, memcpy buffer data (length data), st)
    end.

(** [write(buffer, size)]: the return value, the adapter afterwards, and the
    bytes handed to the kernel, if the call got that far. *)
Definition write (st : State) (buffer : list byte)
    (kernel_write : list byte → WriteAnswer)
    : Z * State * option (list byte) :=
  if fd_ st <? 0 then (-1, st, None)
  else
    match kernel_write buffer with
    | WriteErrno errno =>
        if (errno =? EAGAIN) || (errno =? EWOULDBLOCK)
        then (0, st, Some buffer)
        else (-1, setErrnoError "write failed" errno st, Some buffer)
    | WriteCount n => (to_int n, st, Some buffer)
    end.

(** [set_ip(ip, netmask)]: the return value, the adapter afterwards and the
    commands run so far. *)
Definition set_ip (st : State) (ip netmask : string) (history : list string)
    : bool * State * list string :=
  if (fd_ st <? 0) || bool_decide (deviceName_ st = EmptyString)
  then (false, setError "TUN device not open" st, history)
  else
    match inet_pton ip with
    | None => (false, setError ("Invalid IP address: " +:+ ip) st, history)
    | Some _ =>
        let prefixLength := netmaskToPrefixLength netmask in
        let cmd := "ip addr add " +:+ ip +:+ "/" +:+ decimal prefixLength +:+
                   " dev " +:+ deviceName_ st in
        let '(status, history1) := runCommand history cmd in
        if negb (status =? 0) then
          let delCmd := "ip addr flush dev " +:+ deviceName_ st in
          let '(_, history2) := runCommand history1 delCmd in
          let '(status', history3) := runCommand history2 cmd in
          if negb (status' =? 0)
          then (false, setError "Failed to set IP address" st, history3)
          else (true, st, history3)
        else (true, st, history1)
    end.

(** *** The other members of the Linux adapter *)

Definition IFNAMSIZ : nat := 16.
Definition O_NONBLOCK : Z := 2048.

Definition set_fd (fd : Z) (st : State) : State :=
  {| fd_ := fd; deviceName_ := deviceName_ st; lastError_ := lastError_ st;
     mtu_ := mtu_ st; nonBlocking_ := nonBlocking_ st |}.

Definition set_deviceName (name : string) (st : State) : State :=
  {| fd_ := fd_ st; deviceName_ := name; lastError_ := lastError_ st;
     mtu_ := mtu_ st; nonBlocking_ := nonBlocking_ st |}.

Definition set_mtu_field (mtu : Z) (st : State) : State :=
  {| fd_ := fd_ st; deviceName_ := deviceName_ st; lastError_ := lastError_ st;
     mtu_ := mtu; nonBlocking_ := nonBlocking_ st |}.

Definition set_nonBlocking (nonBlocking : bool) (st : State) : State :=
  {| fd_ := fd_ st; deviceName_ := deviceName_ st; lastError_ := lastError_ st;
     mtu_ := mtu_ st; nonBlocking_ := nonBlocking |}.

(** The name [open] asks the kernel for: the caller's, or the template
    "steamvpn%d" when the caller gives none, cut to [IFNAMSIZ - 1]
    characters and, as a C string, at its first NUL. *)
Definition requested_name (deviceName : string) : string :=
  let name := if bool_decide (deviceName = EmptyString)
              then "steamvpn%d" else deviceName in
  let name := if (IFNAMSIZ <=? String.length name)%nat
              then String.substring 0 (IFNAMSIZ - 1) name else name in
  String.substring 0 (IFNAMSIZ - 1) (c_str name).

(** [open(deviceName, mtu)] (lines 103-145): [kernel] answers the system
    calls, [kernel_ifname] is the name the kernel writes back into the
    request of a successful TUNSETIFF.  The result is the return value, the
    adapter afterwards and the system calls made, in order. *)
Definition open (st : State) (deviceName : string) (mtu : Z)
    (kernel : Syscall → SysRet) (kernel_ifname : string → string)
    : bool * State * list Syscall :=
  if 0 <=? fd_ st
  then (false, setError "TUN device already open" st, [])
  else
    let opened := kernel (SysOpen "/dev/net/tun") in
    let st := set_fd (sys_ret opened) st in
    if fd_ st <? 0
    then (false,
          setErrnoError "Failed to open /dev/net/tun" (sys_errno opened) st,
          [SysOpen "/dev/net/tun"])
    else
      let name := requested_name deviceName in
      let created := kernel (SysIoctlTunSetIff (fd_ st) name) in
      if sys_ret created <? 0
      then (false,
            set_fd (-1)
              (setErrnoError "ioctl TUNSETIFF failed" (sys_errno created) st),
            [SysOpen "/dev/net/tun"; SysIoctlTunSetIff (fd_ st) name;
             SysClose (fd_ st)])
      else (true,
            set_mtu_field mtu (set_deviceName (kernel_ifname name) st),
            [SysOpen "/dev/net/tun"; SysIoctlTunSetIff (fd_ st) name]).

(** [close()] (lines 147-153) *)
Definition close (st : State) : State * list Syscall :=
  if 0 <=? fd_ st
  then (set_deviceName EmptyString (set_fd (-1) st), [SysClose (fd_ st)])
  else (set_deviceName EmptyString st, []).

Definition get_device_name (st : State) : string := deviceName_ st.
Definition get_last_error (st : State) : string := lastError_ st.

(** [set_mtu(mtu)] (lines 235-254) *)
Definition set_mtu (st : State) (mtu : Z) (history : list string)
    : bool * State * list string :=
  if (fd_ st <? 0) || bool_decide (deviceName_ st = EmptyString)
  then (false, setError "TUN device not open" st, history)
  else
    let st := set_mtu_field mtu st in
    let cmd := "ip link set dev " +:+ deviceName_ st +:+ " mtu " +:+
               decimal mtu in
    let '(status, history1) := runCommand history cmd in
    if negb (status =? 0)
    then (false, setError "Failed to set MTU" st, history1)
    else (true, st, history1).

(** [set_up(up)] (lines 256-273) *)
Definition set_up (st : State) (up : bool) (history : list string)
    : bool * State * list string :=
  if (fd_ st <? 0) || bool_decide (deviceName_ st = EmptyString)
  then (false, setError "TUN device not open" st, history)
  else
    let cmd := "ip link set dev " +:+ deviceName_ st +:+
               (if up then " up" else " down") in
    let '(status, history1) := runCommand history cmd in
    if negb (status =? 0)
    then (false, setError "Failed to set interface state" st, history1)
    else (true, st, history1).

(** [set_non_blocking(nonBlocking)] (lines 275-300) *)
Definition set_non_blocking (st : State) (nonBlocking : bool)
    (kernel : Syscall → SysRet) : bool * State * list Syscall :=
  if fd_ st <? 0
  then (false, setError "TUN device not open" st, [])
  else
    let got := kernel (SysFcntlGetFl (fd_ st)) in
    let flags := sys_ret got in
    if flags <? 0
    then (false, setErrnoError "fcntl F_GETFL failed" (sys_errno got) st,
          [SysFcntlGetFl (fd_ st)])
    else
      let flags := if nonBlocking then Z.lor flags O_NONBLOCK
                   else Z.land flags (Z.lnot O_NONBLOCK) in
      let set := kernel (SysFcntlSetFl (fd_ st) flags) in
      if sys_ret set <? 0
      then (false, setErrnoError "fcntl F_SETFL failed" (sys_errno set) st,
            [SysFcntlGetFl (fd_ st); SysFcntlSetFl (fd_ st) flags])
      else (true, set_nonBlocking nonBlocking st,
            [SysFcntlGetFl (fd_ st); SysFcntlSetFl (fd_ st) flags]).

End Environment.
End TunLinux.

(** ** TunMacOS (tun/tun_macos.cpp) *)

Module TunMacOS.
Import Posix.

(** errno and address family values of Darwin. *)
Definition EAGAIN : Z := 35.
Definition EWOULDBLOCK : Z := 35.
Definition AF_INET : Z := 2.
Definition AF_INET6 : Z := 30.

(** [sizeof(readBuffer)] and [sizeof(writeBuffer)]. *)
Definition STAGING_SIZE : Z := 65536.

Record State := {
  fd_ : Z;
  deviceName_ : string;
  lastError_ : string;
  mtu_ : Z;
  nonBlocking_ : bool;
  utunNumber_ : Z
}.

Definition setError (error : string) (st : State) : State :=
  {| fd_ := fd_ st; deviceName_ := deviceName_ st; lastError_ := error;
     mtu_ := mtu_ st; nonBlocking_ := nonBlocking_ st;
     utunNumber_ := utunNumber_ st |}.

Definition is_open (st : State) : bool := 0 <=? fd_ st.

(** The count [read] asks the kernel for: the caller's size plus the prefix,
    capped by the staging buffer. *)
Definition readSize (size : Z) : Z :=
  let readSize := size_add size 4 in
  if readSize >? STAGING_SIZE then STAGING_SIZE else readSize.

(** The address family [write] announces, from the version nibble of the
    first byte. *)
Definition version_nibble (b : byte) : Z :=
  Z.shiftr (Z.of_N (Byte.to_N b)) 4.

Definition family (buffer : list byte) : Z :=
  match buffer with
  | b :: _ =>
      if version_nibble b =? 4 then AF_INET
      else if version_nibble b =? 6 then AF_INET6
      else AF_INET
  | [] => AF_INET
  end.

Section Environment.
Variable strerror : Z → string.
Variable inet_pton : string → option Z.
Variable system : list string → string → Z.

Definition setErrnoError (prefix : string) (errno : Z) (st : State) : State :=
  setError (prefix +:+ ": " +:+ strerror errno +:+
            " (errno " +:+ decimal errno +:+ ")") st.

Definition netmaskToPrefixLength (netmask : string) : Z :=
  match inet_pton netmask with
  | None => 24
  | Some mask => leading_ones 32 mask 0
  end.

Definition runCommand (history : list string) (cmd : string)
    : Z * list string :=
  (system history cmd, history ++ [cmd]).

(** [read(buffer, size)]: [buffer] is the caller's memory of [size] bytes,
    [kernel_read count] what [::read(fd_, readBuffer, count)] answers.  The
    result is the return value, the caller's buffer afterwards and the
    adapter afterwards. *)
Definition read (st : State) (buffer : list byte)
    (kernel_read : Z → ReadAnswer) : Z * list byte * State :=
  let size := Z.of_nat (length buffer) in
  if fd_ st <? 0 then (-1, buffer, st)
  else
    match kernel_read (readSize size) with
    | ReadErrno errno =>
        if (errno =? EAGAIN) || (errno =? EWOULDBLOCK)
        then (0, buffer, st)
        else (-1, buffer, setErrnoError "read failed" errno st)
    | ReadBytes readBuffer =>
        let n := Z.of_nat (length readBuffer) in
        if n <=? 4 then (0, buffer, st)
        else
          let dataSize := n - 4 in
          let dataSize := if dataSize >? size then size else dataSize in
          (to_int dataSize,
           memcpy buffer (drop 4 readBuffer) (Z.to_nat dataSize),
           st)
    end.

(** [write(buffer, size)]: [buffer] holds the [size] bytes of the packet,
    [kernel_write bytes] is what [::write(fd_, writeBuffer, size + 4)]
    answers when [writeBuffer] starts with [bytes].  The result is the return
    value, the adapter afterwards, and the bytes handed to the kernel, if the
    call got that far. *)
Definition write (st : State) (buffer : list byte)
    (kernel_write : list byte → WriteAnswer)
    : Z * State * option (list byte) :=
  let size := Z.of_nat (length buffer) in
  if fd_ st <? 0 then (-1, st, None)
  else if size_add size 4 >? STAGING_SIZE
  then (-1, setError "Packet too large" st, None)
  else
    let af := htonl_bytes (family buffer) in
    let writeBuffer := af ++ buffer in
    match kernel_write writeBuffer with
    | WriteErrno errno =>
        if (errno =? EAGAIN) || (errno =? EWOULDBLOCK)
        then (0, st, Some writeBuffer)
        else (-1, setErrnoError "write failed" errno st, Some writeBuffer)
    | WriteCount n =>
        if n <=? 4 then (0, st, Some writeBuffer)
        else (to_int (n - 4), st, Some writeBuffer)
    end.

(** The point-to-point peer address [set_ip] derives: the first address of
    the network, or the second if the first is the local one.  (A prefix
    length of 0 would shift by the full width, which C++ leaves undefined;
    here the mask is then 0.) *)
Definition peerAddr (ipAddr prefixLength : Z) : Z :=
  let mask := Z.shiftl 4294967295 (32 - prefixLength) mod 2 ^ 32 in
  let network := Z.land ipAddr mask in
  let peerAddr := Z.lor network 1 in
  if peerAddr =? ipAddr then Z.lor network 2 else peerAddr.

(** [set_ip(ip, netmask)]: the return value, the adapter afterwards and the
    commands run so far. *)
Definition set_ip (st : State) (ip netmask : string) (history : list string)
    : bool * State * list string :=
  if (fd_ st <? 0) || bool_decide (deviceName_ st = EmptyString)
  then (false, setError "TUN device not open" st, history)
  else
    match inet_pton ip with
    | None => (false, setError ("Invalid IP address: " +:+ ip) st, history)
    | Some ipAddr =>
        let prefixLength := netmaskToPrefixLength netmask in
        let peerStr := inet_ntop (peerAddr ipAddr prefixLength) in
        let cmd := "ifconfig " +:+ deviceName_ st +:+ " " +:+ ip +:+ " " +:+
                   peerStr +:+ " netmask " +:+ netmask +:+ " up" in
        let '(status, history1) := runCommand history cmd in
        if negb (status =? 0)
        then (false, setError "Failed to set IP address" st, history1)
        else (true, st, history1)
    end.

(** *** The other members of the macOS adapter *)

Definition O_NONBLOCK : Z := 4.

Definition set_fd (fd : Z) (st : State) : State :=
  {| fd_ := fd; deviceName_ := deviceName_ st; lastError_ := lastError_ st;
     mtu_ := mtu_ st; nonBlocking_ := nonBlocking_ st;
     utunNumber_ := utunNumber_ st |}.

Definition set_deviceName (name : string) (st : State) : State :=
  {| fd_ := fd_ st; deviceName_ := name; lastError_ := lastError_ st;
     mtu_ := mtu_ st; nonBlocking_ := nonBlocking_ st;
     utunNumber_ := utunNumber_ st |}.

Definition set_mtu_field (mtu : Z) (st : State) : State :=
  {| fd_ := fd_ st; deviceName_ := deviceName_ st; lastError_ := lastError_ st;
     mtu_ := mtu; nonBlocking_ := nonBlocking_ st;
     utunNumber_ := utunNumber_ st |}.

Definition set_nonBlocking (nonBlocking : bool) (st : State) : State :=
  {| fd_ := fd_ st; deviceName_ := deviceName_ st; lastError_ := lastError_ st;
     mtu_ := mtu_ st; nonBlocking_ := nonBlocking;
     utunNumber_ := utunNumber_ st |}.

Definition set_utunNumber (n : Z) (st : State) : State :=
  {| fd_ := fd_ st; deviceName_ := deviceName_ st; lastError_ := lastError_ st;
     mtu_ := mtu_ st; nonBlocking_ := nonBlocking_ st;
     utunNumber_ := n |}.

(** [std::stoi]: the number a string starts with, or nothing when it
    throws. *)
Variable stoi : string → option Z.

(** The unit [open] is asked for by name: the number after "utun", or -1
    (assign one) when the name is empty, does not start with "utun", or has
    no number there. *)
Definition requestedUnit (deviceName : string) : Z :=
  if negb (bool_decide (deviceName = EmptyString))
     && bool_decide (String.substring 0 4 deviceName = "utun")
  then match stoi (String.substring 4 (String.length deviceName - 4) deviceName) with
       | Some n => n
       | None => -1
       end
  else -1.

(** The loop of [open] that looks for a free unit:
      for (int i = 0; i < 256; i++) { sc.sc_unit = i + 1; if (connect(...) == 0) ... break; }
    [remaining] is the number of rounds left, [i] the loop variable, [errno]
    what [errno] holds on entry.  The result is the unit that connected, if
    any, the calls made, and what [errno] holds at the end. *)
Fixpoint scan_units (kernel : Syscall → SysRet) (fd : Z) (remaining : nat)
    (i : Z) (errno : Z) : option Z * list Syscall * Z :=
  match remaining with
  | O => (None, [], errno)
  | S remaining' =>
      let connected := kernel (SysConnect fd (i + 1)) in
      if sys_ret connected =? 0
      then (Some i, [SysConnect fd (i + 1)], errno)
      else
        let '(found, calls, errno') :=
          scan_units kernel fd remaining' (i + 1) (sys_errno connected) in
        (found, SysConnect fd (i + 1) :: calls, errno')
  end.

(** [open(deviceName, mtu)] (lines 106-195).  (A requested unit of INT_MAX
    would overflow [requestedUnit + 1], which C++ leaves undefined; here the
    sum is the mathematical one.) *)
Definition open (st : State) (deviceName : string) (mtu : Z)
    (kernel : Syscall → SysRet) : bool * State * list Syscall :=
  if 0 <=? fd_ st
  then (false, setError "TUN device already open" st, [])
  else
    let requested := requestedUnit deviceName in
    let created := kernel SysSocket in
    let st := set_fd (sys_ret created) st in
    if fd_ st <? 0
    then (false,
          setErrnoError "Failed to create PF_SYSTEM socket"
            (sys_errno created) st,
          [SysSocket])
    else
      let fd := fd_ st in
      let info := kernel (SysIoctlCtlInfo fd) in
      if sys_ret info <? 0
      then (false,
            set_fd (-1)
              (setErrnoError "ioctl CTLIOCGINFO failed" (sys_errno info) st),
            [SysSocket; SysIoctlCtlInfo fd; SysClose fd])
      else if 0 <=? requested
      then
        let connected := kernel (SysConnect fd (requested + 1)) in
        if sys_ret connected <? 0
        then (false,
              set_fd (-1)
                (setErrnoError "Failed to connect to utun control"
                   (sys_errno connected) st),
              [SysSocket; SysIoctlCtlInfo fd; SysConnect fd (requested + 1);
               SysClose fd])
        else (true,
              set_mtu_field mtu
                (set_deviceName ("utun" +:+ decimal requested)
                   (set_utunNumber requested st)),
              [SysSocket; SysIoctlCtlInfo fd; SysConnect fd (requested + 1)])
      else
        match scan_units kernel fd 256 0 (sys_errno info) with
        | (Some i, calls, _) =>
            (true,
             set_mtu_field mtu
               (set_deviceName ("utun" +:+ decimal i) (set_utunNumber i st)),
             [SysSocket; SysIoctlCtlInfo fd] ++ calls)
        | (None, calls, errno) =>
            (false,
             set_fd (-1)
               (setErrnoError "Failed to connect to utun control" errno st),
             [SysSocket; SysIoctlCtlInfo fd] ++ calls ++ [SysClose fd])
        end.

(** [close()] (lines 197-204) *)
Definition close (st : State) : State * list Syscall :=
  if 0 <=? fd_ st
  then (set_utunNumber (-1) (set_deviceName EmptyString (set_fd (-1) st)),
        [SysClose (fd_ st)])
  else (set_utunNumber (-1) (set_deviceName EmptyString st), []).

Definition get_device_name (st : State) : string := deviceName_ st.
Definition get_last_error (st : State) : string := lastError_ st.

(** [set_mtu(mtu)] (lines 340-359) *)
Definition set_mtu (st : State) (mtu : Z) (history : list string)
    : bool * State * list string :=
  if (fd_ st <? 0) || bool_decide (deviceName_ st = EmptyString)
  then (false, setError "TUN device not open" st, history)
  else
    let st := set_mtu_field mtu st in
    let cmd := "ifconfig " +:+ deviceName_ st +:+ " mtu " +:+ decimal mtu in
    let '(status, history1) := runCommand history cmd in
    if negb (status =? 0)
    then (false, setError "Failed to set MTU" st, history1)
    else (true, st, history1).

(** [set_up(up)] (lines 361-378) *)
Definition set_up (st : State) (up : bool) (history : list string)
    : bool * State * list string :=
  if (fd_ st <? 0) || bool_decide (deviceName_ st = EmptyString)
  then (false, setError "TUN device not open" st, history)
  else
    let cmd := "ifconfig " +:+ deviceName_ st +:+
               (if up then " up" else " down") in
    let '(status, history1) := runCommand history cmd in
    if negb (status =? 0)
    then (false, setError "Failed to set interface state" st, history1)
    else (true, st, history1).

(** [set_non_blocking(nonBlocking)] (lines 380-405) *)
Definition set_non_blocking (st : State) (nonBlocking : bool)
    (kernel : Syscall → SysRet) : bool * State * list Syscall :=
  if fd_ st <? 0
  then (false, setError "TUN device not open" st, [])
  else
    let got := kernel (SysFcntlGetFl (fd_ st)) in
    let flags := sys_ret got in
    if flags <? 0
    then (false, setErrnoError "fcntl F_GETFL failed" (sys_errno got) st,
          [SysFcntlGetFl (fd_ st)])
    else
      let flags := if nonBlocking then Z.lor flags O_NONBLOCK
                   else Z.land flags (Z.lnot O_NONBLOCK) in
      let set := kernel (SysFcntlSetFl (fd_ st) flags) in
      if sys_ret set <? 0
      then (false, setErrnoError "fcntl F_SETFL failed" (sys_errno set) st,
            [SysFcntlGetFl (fd_ st); SysFcntlSetFl (fd_ st) flags])
      else (true, set_nonBlocking nonBlocking st,
            [SysFcntlGetFl (fd_ st); SysFcntlSetFl (fd_ st) flags]).

End Environment.
End TunMacOS.

(** ** TunInterface (tun/tun_interface.h) and its two variants *)

Module Tun.
Import Posix.

(** The part of the abstract class that the statements below are about. *)
Class TunInterface (State : Type) := {
  is_open : State → bool;
  read : State → list byte → (Z → ReadAnswer) → Z * list byte * State;
  write : State → list byte → (list byte → WriteAnswer)
          → Z * State * option (list byte);
  set_ip : State → string → string → list string
           → bool * State * list string
}.

Section Variants.
Variable strerror : Z → string.
Variable inet_pton : string → option Z.
Variable system : list string → string → Z.

#[export] Instance linux : TunInterface TunLinux.State := {|
  is_open := TunLinux.is_open;
  read := TunLinux.read strerror;
  write := TunLinux.write strerror;
  set_ip := TunLinux.set_ip inet_pton system
|}.

#[export] Instance macos : TunInterface TunMacOS.State := {|
  is_open := TunMacOS.is_open;
  read := TunMacOS.read strerror;
  write := TunMacOS.write strerror;
  set_ip := TunMacOS.set_ip inet_pton system
|}.

End Variants.

(** How a variant talks to the kernel when reading: the count it asks for
    given the caller's size, the errno values it takes for "no data yet",
    and the number of bytes the device puts in front of each packet. *)
Record Framing := {
  request : Z → Z;
  would_block : Z → bool;
  prefix : nat
}.

Definition linux_framing : Framing := {|
  request := λ size, size;
  would_block := λ errno,
    (errno =? TunLinux.EAGAIN) || (errno =? TunLinux.EWOULDBLOCK);
  prefix := 0
|}.

Definition macos_framing : Framing := {|
  request := TunMacOS.readSize;
  would_block := λ errno,
    (errno =? TunMacOS.EAGAIN) || (errno =? TunMacOS.EWOULDBLOCK);
  prefix := 4
|}.

(** The contract of [read]: -1 when the device is not open; 0 when the
    kernel has no data yet; -1 on any other error of the kernel; and, when
    the kernel delivers a packet (more bytes than the prefix, no more than
    were asked for), the number of payload bytes, which is positive, with the
    payload, prefix removed, at the start of the caller's buffer. *)
Definition read_contract {State} (tun : TunInterface State)
    (framing : Framing) : Prop :=
  ∀ (st : State) (buffer : list byte) (kernel_read : Z → ReadAnswer),
    let asked := request framing (Z.of_nat (length buffer)) in
    (is_open st = false → read st buffer kernel_read = (-1, buffer, st)) ∧
    (∀ errno,
       is_open st = true →
       kernel_read asked = ReadErrno errno →
       would_block framing errno = true →
       read st buffer kernel_read = (0, buffer, st)) ∧
    (∀ errno,
       is_open st = true →
       kernel_read asked = ReadErrno errno →
       would_block framing errno = false →
       ∃ st', read st buffer kernel_read = (-1, buffer, st')) ∧
    (∀ data,
       is_open st = true →
       kernel_read asked = ReadBytes data →
       Z.of_nat (prefix framing) < Z.of_nat (length data) <= asked →
       Z.of_nat (length data) <= INT_MAX →
       let payload := drop (prefix framing) data in
       read st buffer kernel_read
         = (Z.of_nat (length payload),
            payload ++ drop (length payload) buffer,
            st) ∧
       0 < Z.of_nat (length payload)).

(** "A netmask that does not parse is taken for a /24": the call does what
    it does for 255.255.255.0. *)
Definition bad_netmask_is_slash24 {State} (tun : TunInterface State)
    (inet_pton : string → option Z) : Prop :=
  ∀ (st : State) (ip netmask : string) (history : list string),
    inet_pton netmask = None →
    set_ip st ip netmask history = set_ip st ip "255.255.255.0" history.

End Tun.

(** ** A concrete environment, for running the model *)

Module Sample.
Import Posix.

(** A dotted-quad reader in the manner of [inet_pton(AF_INET, ...)]: four
    decimal fields of one to three digits, each at most 255, separated by
    single dots.  [field] is the value of the digits read since the last dot,
    if any; [done] are the fields completed so far. *)
Definition digit (c : Ascii.ascii) : option Z :=
  let n := Z.of_N (Ascii.N_of_ascii c) in
  if (48 <=? n) && (n <=? 57) then Some (n - 48) else None.

Fixpoint dotted (s : string) (field : option Z) (done : list Z)
    : option (list Z) :=
  match s with
  | EmptyString =>
      match field with
      | Some v => Some (done ++ [v])
      | None => None
      end
  | String c rest =>
      if Ascii.eqb c "."%char
      then match field with
           | Some v => dotted rest None (done ++ [v])
           | None => None
           end
      else match digit c with
           | None => None
           | Some d =>
               let v := match field with Some v => 10 * v + d | None => d end in
               if v >? 255 then None else dotted rest (Some v) done
           end
  end.

Definition inet_pton (s : string) : option Z :=
  match dotted s None [] with
  | Some [a; b; c; d] => Some (((a * 256 + b) * 256 + c) * 256 + d)
  | _ => None
  end.

Definition strerror (errno : Z) : string :=
  if errno =? 5 then "Input/output error" else "Unknown error".

(** Words of a command line, split at single spaces. *)
Fixpoint words (s : string) (word : string) : list string :=
  match s with
  | EmptyString => [word]
  | String c rest =>
      if Ascii.eqb c " "%char then word :: words rest EmptyString
      else words rest (word +:+ String c EmptyString)
  end.

(** A shell in which [ifconfig <dev> <ip> <peer> netmask <mask> up] succeeds
    exactly when the three addresses are dotted quads, [ip addr add] and
    [ip addr flush] succeed, and every other command fails. *)
Definition system (history : list string) (cmd : string) : Z :=
  match words cmd EmptyString with
  | ["ifconfig"; _; ip; peer; "netmask"; mask; "up"] =>
      match inet_pton ip, inet_pton peer, inet_pton mask with
      | Some _, Some _, Some _ => 0
      | _, _, _ => 256
      end
  | "ip" :: "addr" :: _ => 0
  | _ => 256
  end.

Definition linux_tun : TunLinux.State :=
  {| TunLinux.fd_ := 5; TunLinux.deviceName_ := "steamvpn0";
     TunLinux.lastError_ := EmptyString; TunLinux.mtu_ := 1500;
     TunLinux.nonBlocking_ := true |}.

Definition linux_closed : TunLinux.State :=
  {| TunLinux.fd_ := -1; TunLinux.deviceName_ := EmptyString;
     TunLinux.lastError_ := EmptyString; TunLinux.mtu_ := 1500;
     TunLinux.nonBlocking_ := false |}.

Definition macos_tun : TunMacOS.State :=
  {| TunMacOS.fd_ := 5; TunMacOS.deviceName_ := "utun0";
     TunMacOS.lastError_ := EmptyString; TunMacOS.mtu_ := 1500;
     TunMacOS.nonBlocking_ := true; TunMacOS.utunNumber_ := 0 |}.

(** A transport that accepts every send. *)
Definition transport_ok (peer : N) (data : list byte) (flags channel : Z) : Z :=
  SteamNetworkingManager.k_EResultOK.

(** Node 101, initialised, with a bridge attached. *)
Definition node (peers : list N) : SteamNetworkingManager.Manager :=
  {| SteamNetworkingManager.self := 101%N;
     SteamNetworkingManager.m_pMessagesInterface := true;
     SteamNetworkingManager.vpnBridge_ := true;
     SteamNetworkingManager.peers_ := list_to_set peers |}.

(** A reader of leading decimal digits in the manner of [std::stoi]: the
    number the string starts with, nothing when it starts with no digit. *)
Fixpoint digits (s : string) (value : option Z) : option Z :=
  match s with
  | EmptyString => value
  | String c rest =>
      match digit c with
      | None => value
      | Some d =>
          digits rest (Some (match value with
                             | Some v => 10 * v + d
                             | None => d
                             end))
      end
  end.

Definition stoi (s : string) : option Z := digits s None.

(** A kernel that hands out descriptor 5, accepts every request on it, has
    the utun units 0 and 1 taken (EBUSY) and every other unit free, and
    reports the descriptor's flags as O_RDWR. *)
Definition kernel (call : Syscall) : SysRet :=
  match call with
  | SysOpen _ => {| sys_ret := 5; sys_errno := 0 |}
  | SysSocket => {| sys_ret := 5; sys_errno := 0 |}
  | SysConnect _ sc_unit =>
      if sc_unit <=? 2 then {| sys_ret := -1; sys_errno := 16 |}
      else {| sys_ret := 0; sys_errno := 0 |}
  | SysFcntlGetFl _ => {| sys_ret := 2; sys_errno := 0 |}
  | _ => {| sys_ret := 0; sys_errno := 0 |}
  end.

(** A kernel that hands out descriptor 5 and then refuses everything with
    EPERM. *)
Definition kernel_refusing (call : Syscall) : SysRet :=
  match call with
  | SysOpen _ => {| sys_ret := 5; sys_errno := 0 |}
  | SysSocket => {| sys_ret := 5; sys_errno := 0 |}
  | SysIoctlCtlInfo _ => {| sys_ret := 0; sys_errno := 0 |}
  | SysClose _ => {| sys_ret := 0; sys_errno := 0 |}
  | _ => {| sys_ret := -1; sys_errno := 1 |}
  end.

(** The name the kernel gives a new TUN device: the first free one for the
    template, the requested one otherwise. *)
Definition kernel_ifname (name : string) : string :=
  if bool_decide (name = "steamvpn%d") then "steamvpn0" else name.

Definition macos_closed : TunMacOS.State :=
  {| TunMacOS.fd_ := -1; TunMacOS.deviceName_ := EmptyString;
     TunMacOS.lastError_ := EmptyString; TunMacOS.mtu_ := 1500;
     TunMacOS.nonBlocking_ := false; TunMacOS.utunNumber_ := -1 |}.

(** A shell in which every command fails. *)
Definition system_failing (history : list string) (cmd : string) : Z := 256.

(** A shell in which [ip addr add] fails the first time and succeeds once
    the addresses have been flushed. *)
Definition system_flush_first (history : list string) (cmd : string) : Z :=
  if bool_decide ("ip addr flush dev steamvpn0" ∈ history) then 0 else 512.

(** A transport on which peer 202 is connected through a relay with a ping
    of 42 ms, and no other peer has a session. *)
Definition session_info (peer : N) : SteamNetworkingManager.SessionInfo :=
  if bool_decide (peer = 202%N)
  then {| SteamNetworkingManager.connection_state := 3;
          SteamNetworkingManager.m_nFlags := 16;
          SteamNetworkingManager.m_nPing := 42 |}
  else {| SteamNetworkingManager.connection_state := 0;
          SteamNetworkingManager.m_nFlags := 0;
          SteamNetworkingManager.m_nPing := 0 |}.

End Sample.

(** * Properties *)

(** ** The peer registry *)

Section Registry.
Import SteamNetworkingManager.
#[local] Set Default Proof Using "Type".

Variable transport_result : N → list byte → Z → Z → Z.

Abbreviation addPeer := (SteamNetworkingManager.addPeer transport_result).
Abbreviation broadcastMessage :=
  (SteamNetworkingManager.broadcastMessage transport_result).
Abbreviation sendMessageToUser :=
  (SteamNetworkingManager.sendMessageToUser transport_result).
Abbreviation call := (SteamNetworkingManager.call transport_result).
Abbreviation calls := (SteamNetworkingManager.calls transport_result).

Ltac run := unfold mbind, mret, Action_bind, Action_ret; cbn.

Lemma set_peers_same m : set_peers (peers_ m) m = m.
Proof. by destruct m. Qed.

Lemma elem_of_in_order (ps : gset N) (p : N) : p ∈ in_order ps ↔ p ∈ ps.
Proof.
  unfold in_order. rewrite merge_sort_Permutation. apply elem_of_elements.
Qed.

(** *** What each operation does, in closed form *)

Lemma addPeer_self m : addPeer (self m) m = Some (tt, m, []).
Proof.
  unfold SteamNetworkingManager.addPeer, SteamUser_GetSteamID, get. run.
  by rewrite bool_decide_eq_true_2.
Qed.

Lemma addPeer_known p m :
  p ≠ self m → p ∈ peers_ m →
  addPeer p m = Some (tt, m, [EvLock; EvUnlock]).
Proof.
  intros Hself Hin.
  unfold SteamNetworkingManager.addPeer, SteamUser_GetSteamID, peers_insert,
    lock, unlock, put_peers, emit, get. run.
  rewrite bool_decide_eq_false_2 by done. cbn.
  rewrite bool_decide_eq_false_2 by (intros H; apply H, Hin). cbn.
  rewrite (subseteq_union_1_L {[p]} (peers_ m))
    by (by apply singleton_subseteq_l).
  by rewrite set_peers_same.
Qed.

Lemma addPeer_new p m :
  p ≠ self m → p ∉ peers_ m → m_pMessagesInterface m = true →
  addPeer p m =
    Some (tt, set_peers ({[p]} ∪ peers_ m) m,
          [EvLock; EvUnlock; EvSend p hello_frame hello_flags VPN_CHANNEL]
          ++ (if vpnBridge_ m then [EvUserJoined p] else [])).
Proof.
  intros Hself Hin Hif.
  unfold SteamNetworkingManager.addPeer, SteamUser_GetSteamID, peers_insert,
    SendMessageToUser, vpnBridge_get, when, lock, unlock, put_peers, emit, get.
  run.
  rewrite bool_decide_eq_false_2 by done. cbn.
  rewrite bool_decide_eq_true_2 by done. cbn.
  rewrite Hif. cbn. by destruct (vpnBridge_ m).
Qed.

Lemma addPeer_new_null p m :
  p ≠ self m → p ∉ peers_ m → m_pMessagesInterface m = false →
  addPeer p m = None.
Proof.
  intros Hself Hin Hif.
  unfold SteamNetworkingManager.addPeer, SteamUser_GetSteamID, peers_insert,
    SendMessageToUser, vpnBridge_get, when, lock, unlock, put_peers, emit, get.
  run.
  rewrite bool_decide_eq_false_2 by done. cbn.
  rewrite bool_decide_eq_true_2 by done. cbn.
  by rewrite Hif.
Qed.

Lemma removePeer_known p m :
  p ∈ peers_ m →
  removePeer p m =
    Some (tt, set_peers (peers_ m ∖ {[p]}) m,
          [EvLock]
          ++ (if m_pMessagesInterface m then [EvCloseSession p] else [])
          ++ (if vpnBridge_ m then [EvUserLeft p] else [])
          ++ [EvUnlock]).
Proof.
  intros Hin.
  unfold SteamNetworkingManager.removePeer, peers_erase, CloseSessionWithUser,
    m_pMessagesInterface_get, vpnBridge_get, when, lock, unlock, put_peers,
    emit, get.
  run. rewrite bool_decide_eq_true_2 by done. cbn.
  destruct (m_pMessagesInterface m) eqn:Hif; cbn; rewrite ?Hif; cbn;
    by destruct (vpnBridge_ m).
Qed.

Lemma removePeer_unknown p m :
  p ∉ peers_ m → removePeer p m = Some (tt, m, [EvLock; EvUnlock]).
Proof.
  intros Hin.
  unfold SteamNetworkingManager.removePeer, peers_erase, lock, unlock,
    put_peers, emit, get.
  run. rewrite bool_decide_eq_false_2 by done. cbn.
  rewrite (difference_disjoint_L (peers_ m) {[p]})
    by (by apply disjoint_singleton_r).
  by rewrite set_peers_same.
Qed.

(** A loop whose body leaves the manager as it is. *)
Lemma for_each_steady {A} (l : list A) (body : A → Action unit)
    (f : A → list Event) m :
  (∀ x, x ∈ l → body x m = Some (tt, m, f x)) →
  for_each l body m = Some (tt, m, flat_map f l).
Proof.
  induction l as [|x l IH]; intros Hbody; [done|].
  cbn [for_each]. run. rewrite Hbody by left.
  rewrite IH by (intros y Hy; apply Hbody; by right). done.
Qed.

Lemma flat_map_singleton {A B} (g : A → B) (l : list A) :
  flat_map (λ x, [g x]) l = g <$> l.
Proof. induction l; cbn; congruence. Qed.

Lemma clearPeers_run m :
  clearPeers m =
    Some (tt, set_peers ∅ m,
          [EvLock] ++ flat_map (leave_events m) (in_order (peers_ m))
          ++ [EvUnlock]).
Proof.
  unfold SteamNetworkingManager.clearPeers, peers_get, lock, unlock, put_peers,
    emit, get.
  run.
  rewrite (for_each_steady _ _ (leave_events m)).
  - done.
  - intros p _. unfold leave_events, CloseSessionWithUser,
      m_pMessagesInterface_get, vpnBridge_get, when, emit, get. run.
    destruct (m_pMessagesInterface m) eqn:Hif; cbn; rewrite ?Hif; cbn;
      by destruct (vpnBridge_ m).
Qed.

Lemma sendMessageToUser_run p data flags m :
  sendMessageToUser p data flags m =
    if m_pMessagesInterface m
    then Some (transport_result p data flags VPN_CHANNEL =? k_EResultOK, m,
               [EvSend p data flags VPN_CHANNEL])
    else Some (false, m, []).
Proof.
  unfold SteamNetworkingManager.sendMessageToUser, SendMessageToUser,
    m_pMessagesInterface_get, emit, get.
  run. destruct (m_pMessagesInterface m) eqn:Hif; cbn; by rewrite ?Hif.
Qed.

Lemma broadcastMessage_run data flags m :
  broadcastMessage data flags m =
    if m_pMessagesInterface m
    then Some (tt, m,
               [EvLock]
               ++ ((λ p, EvSend p data flags VPN_CHANNEL) <$> in_order (peers_ m))
               ++ [EvUnlock])
    else Some (tt, m, []).
Proof.
  unfold SteamNetworkingManager.broadcastMessage, peers_get,
    m_pMessagesInterface_get, lock, unlock, emit, get.
  run. destruct (m_pMessagesInterface m) eqn:Hif; cbn; [|done].
  rewrite (for_each_steady _ _ (λ p, [EvSend p data flags VPN_CHANNEL])).
  - by rewrite flat_map_singleton.
  - intros p _. unfold SendMessageToUser, emit, get. run. by rewrite Hif.
Qed.

(** *** Reading the traces of the operations *)

Lemma sends_app t1 t2 : sends (t1 ++ t2) = sends t1 ++ sends t2.
Proof.
  induction t1 as [|e t1 IH]; [done|]. destruct e; cbn; by rewrite ?IH.
Qed.

Lemma sends_broadcast data flags (l : list N) :
  sends ((λ p, EvSend p data flags VPN_CHANNEL) <$> l)
  = (λ p, (p, data, flags, VPN_CHANNEL)) <$> l.
Proof. induction l; cbn; congruence. Qed.

Lemma sends_leave_events m (l : list N) :
  sends (flat_map (leave_events m) l) = [].
Proof.
  induction l as [|p l IH]; [done|]. cbn. rewrite sends_app, IH.
  unfold leave_events. by destruct (m_pMessagesInterface m), (vpnBridge_ m).
Qed.

Lemma effects_app t1 t2 : effects (t1 ++ t2) = effects t1 ++ effects t2.
Proof. apply filter_app. Qed.

Lemma effects_leave_events m (l : list N) :
  effects (flat_map (leave_events m) l) = flat_map (leave_events m) l.
Proof.
  induction l as [|p l IH]; [done|]. cbn. rewrite effects_app, IH. f_equal.
  unfold leave_events. by destruct (m_pMessagesInterface m), (vpnBridge_ m).
Qed.

Lemma elem_of_flat_map_leave m (l : list N) (e : Event) :
  e ∈ flat_map (leave_events m) l ↔ ∃ p, p ∈ l ∧ e ∈ leave_events m p.
Proof.
  rewrite !list_elem_of_In, in_flat_map.
  split; intros (p & Hp & He); exists p; by rewrite ?list_elem_of_In in *.
Qed.

(** What a single call can do to the registry and whom it can send to. *)
Lemma addPeer_footprint p m m' t :
  addPeer p m = Some (tt, m', t) →
  m_pMessagesInterface m' = m_pMessagesInterface m ∧
  (∀ q, q ∈ peers_ m' → q = p ∨ q ∈ peers_ m) ∧
  (∀ q, sent_to q t → q = p).
Proof.
  intros Hrun.
  destruct (decide (p = self m)) as [->|Hself].
  { rewrite addPeer_self in Hrun. simplify_eq.
    split_and!; auto. intros q (d & f & c & H). inversion H. }
  destruct (decide (p ∈ peers_ m)) as [Hin|Hin].
  { rewrite addPeer_known in Hrun by done. simplify_eq.
    split_and!; auto. intros q (d & f & c & H). inversion H. }
  destruct (m_pMessagesInterface m) eqn:Hif.
  - rewrite addPeer_new in Hrun by done. simplify_eq. split_and!; [done| |].
    + cbn. set_solver.
    + intros q (d & f & c & H). revert H.
      destruct (vpnBridge_ m); cbn; set_solver.
  - by rewrite addPeer_new_null in Hrun.
Qed.

Lemma removePeer_run p m :
  ∃ t, removePeer p m = Some (tt, set_peers (peers_ m ∖ {[p]}) m, t) ∧
       sends t = [] ∧
       effects t = if bool_decide (p ∈ peers_ m) then leave_events m p else [].
Proof.
  destruct (decide (p ∈ peers_ m)) as [Hin|Hin].
  - rewrite removePeer_known by done. eexists. split; [done|].
    rewrite bool_decide_eq_true_2 by done. unfold leave_events.
    by destruct (m_pMessagesInterface m), (vpnBridge_ m).
  - rewrite removePeer_unknown by done.
    rewrite (difference_disjoint_L (peers_ m) {[p]})
    by (by apply disjoint_singleton_r).
    rewrite set_peers_same, bool_decide_eq_false_2 by done. by eexists.
Qed.

Lemma call_footprint (p : N) c m m' t :
  p ∉ peers_ m →
  c ≠ CallAddPeer p →
  (∀ data flags, c ≠ CallSendMessageToUser p data flags) →
  call c m = Some (tt, m', t) →
  m_pMessagesInterface m' = m_pMessagesInterface m ∧
  (p ∉ peers_ m') ∧ (¬ sent_to p t).
Proof.
  intros Hp Hadd Hsend Hrun. destruct c as [q|q| |q data flags|data flags]; cbn in Hrun.
  - apply addPeer_footprint in Hrun as (Hif & Hps & Hto).
    split_and!; [done| |].
    + intros H. apply Hps in H as [->|H]; [by apply Hadd|by apply Hp].
    + intros H. apply Hto in H as ->. by apply Hadd.
  - destruct (removePeer_run q m) as (t' & Hrun' & Hs & _).
    rewrite Hrun' in Hrun. simplify_eq. split_and!; [done|cbn; set_solver|].
    intros (d & f & c & H). rewrite Hs in H. inversion H.
  - rewrite clearPeers_run in Hrun. simplify_eq. split_and!; [done|cbn; set_solver|].
    intros (d & f & c & H). revert H. cbn.
    rewrite sends_app, sends_leave_events. cbn. inversion 1.
  - revert Hrun. unfold mbind, mret, Action_bind, Action_ret.
    rewrite sendMessageToUser_run.
    destruct (m_pMessagesInterface m) eqn:Hif; intros; simplify_eq;
      (split_and!; [done|done|]); intros (d & f & c & H); revert H; cbn.
    + rewrite list_elem_of_singleton. intros ?. simplify_eq. by eapply Hsend.
    + inversion 1.
  - rewrite broadcastMessage_run in Hrun.
    destruct (m_pMessagesInterface m) eqn:Hif; simplify_eq;
      (split_and!; [done|done|]); intros (d & f & c & H); revert H; cbn.
    + rewrite sends_app, sends_broadcast. cbn. rewrite app_nil_r.
      rewrite list_elem_of_fmap. intros (q & ? & Hq). simplify_eq.
      by apply Hp, elem_of_in_order.
    + inversion 1.
Qed.

Lemma call_returns c m :
  m_pMessagesInterface m = true →
  ∃ m' t, call c m = Some (tt, m', t) ∧ m_pMessagesInterface m' = true.
Proof.
  intros Hif. destruct c as [q|q| |q data flags|data flags]; cbn.
  - destruct (decide (q = self m)) as [->|Hself];
      [rewrite addPeer_self; eauto|].
    destruct (decide (q ∈ peers_ m));
      [rewrite addPeer_known by done; eauto|].
    rewrite addPeer_new by done. eauto.
  - destruct (removePeer_run q m) as (t' & -> & _). eauto.
  - rewrite clearPeers_run. eauto.
  - unfold mbind, mret, Action_bind, Action_ret.
    rewrite sendMessageToUser_run, Hif. eauto.
  - rewrite broadcastMessage_run, Hif. eauto.
Qed.

Lemma calls_nil m : calls [] m = Some (tt, m, []).
Proof. done. Qed.

Lemma calls_cons c cs m :
  calls (c :: cs) m =
    match call c m with
    | None => None
    | Some (_, m1, t1) =>
        match calls cs m1 with
        | None => None
        | Some (b, m2, t2) => Some (b, m2, t1 ++ t2)
        end
    end.
Proof. done. Qed.

Lemma calls_footprint (p : N) cs m m' t :
  p ∉ peers_ m →
  CallAddPeer p ∉ cs →
  (∀ data flags, CallSendMessageToUser p data flags ∉ cs) →
  calls cs m = Some (tt, m', t) →
  (p ∉ peers_ m') ∧ (¬ sent_to p t).
Proof.
  revert m m' t. induction cs as [|c cs IH]; intros m m' t Hp Hadd Hsend Hrun.
  { rewrite calls_nil in Hrun. simplify_eq. split; [done|].
    intros (d & f & c & H). inversion H. }
  rewrite calls_cons in Hrun.
  destruct (call c m) as [[[[] m1] t1]|] eqn:Hc; [|done].
  destruct (calls cs m1) as [[[[] m2] t2]|] eqn:Hcs; [|done].
  simplify_eq.
  apply call_footprint with (p := p) in Hc as (_ & Hp1 & Hq1); auto.
  - apply IH in Hcs as [Hp2 Hq2]; auto.
    + split; [done|]. intros (d & f & ch & H). rewrite sends_app in H.
      apply elem_of_app in H as [H|H]; [apply Hq1|apply Hq2]; by exists d, f, ch.
    + intros H. apply Hadd. by right.
    + intros d f H. apply (Hsend d f). by right.
  - intros ->. apply Hadd. by left.
  - intros d f ->. apply (Hsend d f). by left.
Qed.

Lemma calls_return cs m :
  m_pMessagesInterface m = true →
  ∃ m' t, calls cs m = Some (tt, m', t).
Proof.
  revert m. induction cs as [|c cs IH]; intros m Hif; [by eexists _, _|].
  rewrite calls_cons.
  destruct (call_returns c m Hif) as (m1 & t1 & -> & Hif1).
  destruct (IH m1 Hif1) as (m2 & t2 & ->). eauto.
Qed.

(** Without a messages interface the registry stays empty and nothing is
    sent: the first [addPeer] of a new peer calls through the null pointer,
    and every other call finds nothing to do. *)
Lemma call_without_transport c m m' t :
  m_pMessagesInterface m = false →
  peers_ m = ∅ →
  call c m = Some (tt, m', t) →
  m_pMessagesInterface m' = false ∧ peers_ m' = ∅ ∧ sends t = [].
Proof.
  intros Hif Hempty Hrun.
  destruct c as [q|q| |q data flags|data flags]; cbn in Hrun.
  - destruct (decide (q = self m)) as [->|Hself].
    { rewrite addPeer_self in Hrun. by simplify_eq. }
    rewrite addPeer_new_null in Hrun; [done|done| |done].
    rewrite Hempty. apply not_elem_of_empty.
  - rewrite removePeer_unknown in Hrun
      by (rewrite Hempty; apply not_elem_of_empty).
    by simplify_eq.
  - rewrite clearPeers_run in Hrun. simplify_eq. split_and!; [done|done|].
    cbn. by rewrite sends_app, sends_leave_events.
  - revert Hrun. unfold mbind, mret, Action_bind, Action_ret.
    rewrite sendMessageToUser_run, Hif. intros; by simplify_eq.
  - rewrite broadcastMessage_run, Hif in Hrun. by simplify_eq.
Qed.

Lemma calls_without_transport cs m m' t :
  m_pMessagesInterface m = false →
  peers_ m = ∅ →
  calls cs m = Some (tt, m', t) →
  m_pMessagesInterface m' = false ∧ peers_ m' = ∅ ∧ sends t = [].
Proof.
  revert m m' t. induction cs as [|c cs IH]; intros m m' t Hif Hempty Hrun.
  { rewrite calls_nil in Hrun. by simplify_eq. }
  rewrite calls_cons in Hrun.
  destruct (call c m) as [[[[] m1] t1]|] eqn:Hc; [|done].
  destruct (calls cs m1) as [[[[] m2] t2]|] eqn:Hcs; [|done].
  simplify_eq.
  apply call_without_transport in Hc as (Hif1 & Hempty1 & Hs1); [|done..].
  apply IH in Hcs as (Hif2 & Hempty2 & Hs2); [|done..].
  split_and!; [done|done|]. by rewrite sends_app, Hs1, Hs2.
Qed.

(** *** Where the transport is called with respect to the mutex *)






(** *** The statements of the design document *)

(** C1.  When [addPeer] is called with a peer that is not yet in the registry
    and is not the local identity, on a manager whose messages interface is
    available, the call returns, the peer is in the registry afterwards, and
    exactly one frame is sent: to that peer, the three bytes 01 00 00
    (type 1 = SESSION_HELLO, length 0), with the flags reliable and
    auto-restart-broken-session, on channel 0. *)
Theorem addPeer_sends_hello (p : N) (m : Manager) :
  p ≠ self m →
  p ∉ peers_ m →
  m_pMessagesInterface m = true →
  ∃ m' t,
    addPeer p m = Some (tt, m', t) ∧
    peers_ m' = {[p]} ∪ peers_ m ∧
    sends t =
      [(p, [x01; x00; x00],
        Z.lor k_nSteamNetworkingSend_Reliable
              k_nSteamNetworkingSend_AutoRestartBrokenSession,
        0)].
Proof.
  intros Hself Hnew Hif. rewrite addPeer_new by done.
  eexists _, _. split_and!; [done|done|].
  by destruct (vpnBridge_ m).
Qed.

(** C3.  [addPeer] is idempotent.  The first call returns whenever the
    messages interface is available; whenever it returns, a second call with
    the same peer returns too, leaves the manager exactly as the first call
    left it, and has no effect outside (no send, no [onUserJoined]; it only
    takes and releases the mutex), so the two calls in sequence end in the
    state and with the effects of one.  [addPeer] of the local identity does
    nothing at all. *)
Theorem addPeer_idempotent (p : N) (m : Manager) :
  (m_pMessagesInterface m = true → ∃ m1 t1, addPeer p m = Some (tt, m1, t1)) ∧
  (∀ m1 t1, addPeer p m = Some (tt, m1, t1) →
     ∃ t2, addPeer p m1 = Some (tt, m1, t2) ∧
           effects t2 = [] ∧
           (addPeer p ;; addPeer p) m = Some (tt, m1, t1 ++ t2) ∧
           effects (t1 ++ t2) = effects t1) ∧
  addPeer (self m) m = Some (tt, m, []).
Proof.
  split_and!; [| |apply addPeer_self].
  - intros Hif. apply (call_returns (CallAddPeer p)) in Hif as (m1 & t1 & H & _).
    eauto.
  - intros m1 t1 Hrun.
    assert (∃ t2, addPeer p m1 = Some (tt, m1, t2) ∧ effects t2 = [])
      as (t2 & Hrun2 & Heff).
    { destruct (decide (p = self m)) as [->|Hself].
      { rewrite addPeer_self in Hrun. simplify_eq. rewrite addPeer_self. eauto. }
      destruct (decide (p ∈ peers_ m)) as [Hin|Hin].
      { rewrite addPeer_known in Hrun by done. simplify_eq.
        rewrite addPeer_known by done. eauto. }
      destruct (m_pMessagesInterface m) eqn:Hif;
        [|by rewrite addPeer_new_null in Hrun].
      rewrite addPeer_new in Hrun by done. simplify_eq.
      rewrite addPeer_known; [eauto|done|cbn; set_solver]. }
    exists t2. split_and!; [done|done| |].
    + unfold mbind, Action_bind. by rewrite Hrun, Hrun2.
    + by rewrite effects_app, Heff, app_nil_r.
Qed.

(** C5.  On a manager with a transport and a bridge attached, [clearPeers]
    returns with an empty registry, and what it did outside is exactly: for
    each peer that was in the registry, in increasing order, a session close
    for that peer followed by [onUserLeft] for that peer; and
    [removePeer(p)] returns with [p] removed, having closed [p]'s session
    and called [onUserLeft(p)] if [p] was in the registry, and having done
    nothing outside if it was not. *)
Theorem clearPeers_removePeer_close_sessions (m : Manager) :
  m_pMessagesInterface m = true →
  vpnBridge_ m = true →
  (∃ m' t,
     clearPeers m = Some (tt, m', t) ∧
     peers_ m' = ∅ ∧
     effects t = flat_map (λ p, [EvCloseSession p; EvUserLeft p])
                          (in_order (peers_ m)) ∧
     ∀ p, (EvCloseSession p ∈ t ↔ p ∈ peers_ m) ∧
          (EvUserLeft p ∈ t ↔ p ∈ peers_ m)) ∧
  (∀ p, ∃ m' t,
     removePeer p m = Some (tt, m', t) ∧
     peers_ m' = peers_ m ∖ {[p]} ∧
     effects t = (if bool_decide (p ∈ peers_ m)
                  then [EvCloseSession p; EvUserLeft p] else []) ∧
     (EvCloseSession p ∈ t ↔ p ∈ peers_ m) ∧
     (EvUserLeft p ∈ t ↔ p ∈ peers_ m)).
Proof.
  clear transport_result. intros Hif Hbr.
  assert (Hleave : ∀ p, leave_events m p = [EvCloseSession p; EvUserLeft p]).
  { intros p. unfold leave_events. by rewrite Hif, Hbr. }
  split.
  - rewrite clearPeers_run. eexists _, _. split_and!; [done|done| |].
    + rewrite !effects_app, effects_leave_events.
      change (effects [EvLock]) with (@nil Event).
      change (effects [EvUnlock]) with (@nil Event).
      cbn [app]. rewrite app_nil_r. by apply flat_map_ext.
    + intros p. cbn. rewrite !elem_of_cons, !elem_of_app, !elem_of_cons.
      rewrite !elem_of_flat_map_leave. setoid_rewrite Hleave.
      setoid_rewrite elem_of_in_order.
      split; (split; [intros [?|[(q & Hq & Hin)|[?|Hn]]]; try done|
                      intros Hp; right; left; exists p; split; [done|set_solver]]).
      all: try (by inversion Hn). all: set_solver.
  - intros p. destruct (decide (p ∈ peers_ m)) as [Hin|Hin].
    + rewrite removePeer_known by done. rewrite Hif, Hbr.
      rewrite bool_decide_eq_true_2 by done.
      eexists _, _. split_and!; [done|done|done| |]; cbn; set_solver.
    + rewrite removePeer_unknown by done.
      rewrite bool_decide_eq_false_2 by done.
      eexists _, _. split_and!; [done|cbn; set_solver|done| |]; cbn; set_solver.
Qed.

(** C2, as amended.  After [removePeer(p)] has returned, a later sequence
    of calls that contains neither [addPeer(p)] nor a [sendMessageToUser]
    addressed to [p] itself runs to its end without sending anything to [p]:
    no [broadcastMessage] and no call for another peer reaches [p], and [p]
    is still out of the registry at the end.  ([sendMessageToUser] does not
    look at the registry.) *)
Theorem removePeer_quiets_broadcast (p : N) (m : Manager) (cs : list Call) :
  m_pMessagesInterface m = true →
  CallAddPeer p ∉ cs →
  (∀ data flags, CallSendMessageToUser p data flags ∉ cs) →
  ∃ m1 t1 m2 t2,
    removePeer p m = Some (tt, m1, t1) ∧
    calls cs m1 = Some (tt, m2, t2) ∧
    (¬ sent_to p t2) ∧
    p ∉ peers_ m2.
Proof.
  intros Hif Hadd Hsend.
  destruct (removePeer_run p m) as (t1 & Hrm & _).
  destruct (calls_return cs (set_peers (peers_ m ∖ {[p]}) m) Hif)
    as (m2 & t2 & Hcs).
  exists (set_peers (peers_ m ∖ {[p]}) m), t1, m2, t2.
  split_and!; [done|done| |];
    eapply calls_footprint in Hcs as [? ?]; try done; cbn; set_solver.
Qed.








End Registry.

(** *** The statements at work on node 101 *)

(** C1 on the node of the HELLO scenario: self 101, no peers, [addPeer(202)]. *)
Lemma addPeer_sends_hello_witness :
  ∃ m' t,
    SteamNetworkingManager.addPeer Sample.transport_ok 202%N (Sample.node [])
      = Some (tt, m', t) ∧
    SteamNetworkingManager.peers_ m' = {[202%N]} ∪ ∅ ∧
    SteamNetworkingManager.sends t = [(202%N, [x01; x00; x00], 40, 0)].
Proof.
  apply (addPeer_sends_hello Sample.transport_ok 202%N (Sample.node []));
    [discriminate|apply not_elem_of_empty|reflexivity].
Defined.

(** C3 on the same node: the first [addPeer(202)] returns, and a second one
    changes nothing. *)
Lemma addPeer_idempotent_witness :
  ∃ m1 t1 t2,
    SteamNetworkingManager.addPeer Sample.transport_ok 202%N (Sample.node [])
      = Some (tt, m1, t1) ∧
    SteamNetworkingManager.addPeer Sample.transport_ok 202%N m1
      = Some (tt, m1, t2) ∧
    SteamNetworkingManager.effects t2 = [].
Proof.
  destruct (addPeer_idempotent Sample.transport_ok 202%N (Sample.node []))
    as (Hret & Hagain & _).
  destruct (Hret eq_refl) as (m1 & t1 & Hrun).
  destruct (Hagain m1 t1 Hrun) as (t2 & Hrun2 & Heff & _).
  by exists m1, t1, t2.
Defined.

(** C5 on node 101 with peers 202 and 303. *)
Lemma clearPeers_removePeer_close_sessions_witness :
  (∃ m' t,
     SteamNetworkingManager.clearPeers (Sample.node [202%N; 303%N])
       = Some (tt, m', t) ∧
     SteamNetworkingManager.peers_ m' = ∅ ∧
     (SteamNetworkingManager.EvCloseSession 303%N ∈ t
      ↔ 303%N ∈ ({[202%N; 303%N]} : gset N))) ∧
  (∃ m' t,
     SteamNetworkingManager.removePeer 202%N (Sample.node [202%N; 303%N])
       = Some (tt, m', t) ∧
     (SteamNetworkingManager.EvUserLeft 202%N ∈ t
      ↔ 202%N ∈ ({[202%N; 303%N]} : gset N))).
Proof.
  destruct (clearPeers_removePeer_close_sessions (Sample.node [202%N; 303%N])
              eq_refl eq_refl) as [Hclear Hremove].
  split.
  - destruct Hclear as (m' & t & Hrun & Hempty & _ & Hall).
    exists m', t. split_and!; [done|done|].
    destruct (Hall 303%N) as [Hclose _]. rewrite Hclose. cbn. set_solver.
  - destruct (Hremove 202%N) as (m' & t & Hrun & _ & _ & _ & Hleft).
    exists m', t. split; [done|]. rewrite Hleft. cbn. set_solver.
Defined.

(** C2 as amended, on node 101 with peers 202 and 303: after
    [removePeer(202)], a broadcast and a send to 303 leave 202 alone. *)
Lemma removePeer_quiets_broadcast_witness :
  ∃ m1 t1 m2 t2,
    SteamNetworkingManager.removePeer 202%N (Sample.node [202%N; 303%N])
      = Some (tt, m1, t1) ∧
    SteamNetworkingManager.calls Sample.transport_ok
      [SteamNetworkingManager.CallBroadcastMessage [x02; x00; x00] 0;
       SteamNetworkingManager.CallSendMessageToUser 303%N [x03; x00; x00] 0]
      m1 = Some (tt, m2, t2) ∧
    (¬ SteamNetworkingManager.sent_to 202%N t2) ∧
    202%N ∉ SteamNetworkingManager.peers_ m2.
Proof.
  apply (removePeer_quiets_broadcast Sample.transport_ok 202%N
           (Sample.node [202%N; 303%N])); [reflexivity| |].
  - rewrite !not_elem_of_cons. split_and!; [discriminate|discriminate|].
    apply not_elem_of_nil.
  - intros data flags. rewrite !not_elem_of_cons.
    split_and!; [discriminate|discriminate|]. apply not_elem_of_nil.
Defined.

(** C2 as stated fails: on node 101 with peer 202, after [removePeer(202)]
    a [sendMessageToUser(202, ...)] still hands its frame to the transport,
    addressed to 202. *)
Lemma removePeer_then_sendMessageToUser_counterexample :
  ¬ SteamNetworkingManager.quiet_after_removePeer Sample.transport_ok.
Proof.
  intros Hall.
  eapply (Hall 202%N (Sample.node [202%N])
            [SteamNetworkingManager.CallSendMessageToUser
               202%N [x02; x00; x00] 0]).
  - discriminate.
  - rewrite not_elem_of_cons. split; [discriminate|apply not_elem_of_nil].
  - reflexivity.
  - reflexivity.
  - exists [x02; x00; x00], 0, 0. vm_compute. left.
Qed.



(** ** The poll interval *)

Section PollInterval.
Import SteamMessageHandler.

Lemma pollMessages_within (received : nat) (interval : Z) :
  within_bounds interval → within_bounds (pollMessages received interval).
Proof.
  unfold within_bounds, pollMessages, MIN_POLL_INTERVAL, MAX_POLL_INTERVAL,
    POLL_INCREMENT.
  destruct received; lia.
Qed.

Lemma intervals_within (drains : list nat) (interval : Z) :
  within_bounds interval → Forall within_bounds (intervals drains interval).
Proof.
  revert interval. induction drains as [|received drains IH]; intros interval H.
  - constructor.
  - cbn [intervals]. constructor.
    + by apply pollMessages_within.
    + by apply IH, pollMessages_within.
Qed.

(** C6.  The bounds are min = 100, max = 1000, increment = 100
    microseconds, and whatever the sequence of drains, the interval the
    handler starts with and the interval after every tick lie in
    [[min, max]]. *)
Theorem poll_interval_within_bounds (drains : list nat) :
  MIN_POLL_INTERVAL = 100 ∧
  MAX_POLL_INTERVAL = 1000 ∧
  POLL_INCREMENT = 100 ∧
  within_bounds initialPollInterval ∧
  Forall within_bounds (intervals drains initialPollInterval).
Proof.
  assert (within_bounds initialPollInterval) by (by compute).
  split_and!; try done. by apply intervals_within.
Qed.

End PollInterval.

(** ** The TUN adapters *)

Section TunAdapters.
Import Posix Tun.
#[local] Set Default Proof Using "Type".

Variable strerror : Z → string.
Variable inet_pton : string → option Z.
Variable system : list string → string → Z.

Lemma to_int_small (z : Z) : - 2 ^ 31 <= z <= INT_MAX → to_int z = z.
Proof.
  unfold to_int, INT_MAX. intros H.
  rewrite Z.mod_small by lia. lia.
Qed.

(** The loop of [netmaskToPrefixLength] has left by its 32nd round: more
    fuel does not change its result. *)
Lemma leading_ones_exits (fuel extra : nat) (i : Z) (mask prefix : Z) :
  0 <= i →
  0 <= mask < 2 ^ 32 →
  mask mod 2 ^ i = 0 →
  32 <= i + Z.of_nat fuel →
  leading_ones (fuel + extra) mask prefix = leading_ones fuel mask prefix.
Proof.
  revert i mask prefix.
  induction fuel as [|fuel IH]; intros i mask prefix Hi Hmask Hlow Hfuel.
  - assert (mask = 0) as ->.
    { assert (2 ^ 32 <= 2 ^ i) by (apply Z.pow_le_mono_r; lia).
      rewrite Z.mod_small in Hlow by lia. done. }
    destruct extra; [done|]. by cbn.
  - cbn [Nat.add leading_ones].
    destruct (Z.land mask 2147483648 =? 0) eqn:Htop; [done|].
    assert (i < 32).
    { destruct (Z.lt_ge_cases i 32) as [|Hge]; [done|]. exfalso.
      assert (2 ^ 32 <= 2 ^ i) by (apply Z.pow_le_mono_r; lia).
      rewrite Z.mod_small in Hlow by lia. subst mask. discriminate Htop. }
    apply (IH (i + 1)); [lia| | |lia].
    + apply Z.mod_pos_bound. lia.
    + rewrite Z.shiftl_mul_pow2 by lia.
      apply Z.mod_divide in Hlow as [q ->]; [|apply Z.pow_nonzero; lia].
      replace (q * 2 ^ i * 2 ^ 1) with (2 ^ (i + 1) * q)
        by (rewrite Z.pow_add_r by lia; lia).
      replace (2 ^ 32) with (2 ^ (i + 1) * 2 ^ (32 - (i + 1)))
        by (rewrite <- Z.pow_add_r by lia; f_equal; lia).
      rewrite Z.mul_mod_distr_l
        by (apply Z.pow_nonzero || (apply Z.pow_nonzero; lia); lia).
      rewrite Z.mul_comm. apply Z.mod_mul. apply Z.pow_nonzero; lia.
Qed.

Lemma netmask_loop_terminates (extra : nat) (mask : Z) :
  0 <= mask < 2 ^ 32 →
  leading_ones (32 + extra) mask 0 = leading_ones 32 mask 0.
Proof.
  intros Hmask. apply (leading_ones_exits 32 extra 0); [lia|done| |lia].
  apply Z.mod_1_r.
Qed.

Lemma readSize_bounds (size : Z) :
  0 <= size →
  TunMacOS.readSize size <= size + 4 ∧
  TunMacOS.readSize size <= 65536 ∧
  (size + 4 <= 65536 → TunMacOS.readSize size = size + 4).
Proof.
  intros Hsize. unfold TunMacOS.readSize, size_add, TunMacOS.STAGING_SIZE.
  assert (0 <= (size + 4) mod 2 ^ 64 <= size + 4).
  { split; [apply Z.mod_pos_bound; lia|apply Z.mod_le; lia]. }
  split_and!.
  - destruct (Z.gtb_spec ((size + 4) mod 2 ^ 64) 65536); lia.
  - destruct (Z.gtb_spec ((size + 4) mod 2 ^ 64) 65536); lia.
  - intros Hfit. rewrite Z.mod_small by lia.
    destruct (Z.gtb_spec (size + 4) 65536); lia.
Qed.

Lemma memcpy_all (dst src : list byte) :
  memcpy dst src (length src) = src ++ drop (length src) dst.
Proof. unfold memcpy. by rewrite firstn_all. Qed.

(** What the macOS [read] does with any answer longer than the prefix. *)
Lemma macos_read_delivers (st : TunMacOS.State) (buffer raw : list byte)
    (kernel_read : Z → ReadAnswer) :
  TunMacOS.is_open st = true →
  kernel_read (TunMacOS.readSize (Z.of_nat (length buffer))) = ReadBytes raw →
  4 < Z.of_nat (length raw) <= 65536 →
  let delivered := Z.to_nat (Z.min (Z.of_nat (length raw) - 4)
                                   (Z.of_nat (length buffer))) in
  TunMacOS.read strerror st buffer kernel_read
    = (Z.of_nat delivered,
       take delivered (drop 4 raw) ++ drop delivered buffer,
       st).
Proof.
  intros Hopen Hanswer Hlen delivered. unfold TunMacOS.read.
  unfold TunMacOS.is_open in Hopen. apply Z.leb_le in Hopen.
  destruct (Z.ltb_spec (TunMacOS.fd_ st) 0); [lia|].
  rewrite Hanswer.
  destruct (Z.leb_spec (Z.of_nat (length raw)) 4); [lia|].
  set (size := Z.of_nat (length buffer)) in *.
  set (n := Z.of_nat (length raw)) in *.
  assert ((if n - 4 >? size then size else n - 4) = Z.of_nat delivered) as ->.
  { unfold delivered. destruct (Z.gtb_spec (n - 4) size); lia. }
  rewrite to_int_small by (unfold INT_MAX; lia).
  by rewrite Nat2Z.id.
Qed.

(** *** C7: the contract of [read] *)

Lemma linux_read_contract :
  read_contract (linux strerror inet_pton system) linux_framing.
Proof.
  intros st buffer kernel_read asked. cbn in asked.
  cbn [is_open read linux would_block request prefix linux_framing].
  unfold TunLinux.is_open, TunLinux.read. split_and!.
  - intros Hclosed. apply Z.leb_gt in Hclosed.
    by destruct (Z.ltb_spec (TunLinux.fd_ st) 0); [|lia].
  - intros errno Hopen Hanswer Hblock. apply Z.leb_le in Hopen.
    destruct (Z.ltb_spec (TunLinux.fd_ st) 0); [lia|].
    fold asked. by rewrite Hanswer, Hblock.
  - intros errno Hopen Hanswer Hblock. apply Z.leb_le in Hopen.
    destruct (Z.ltb_spec (TunLinux.fd_ st) 0); [lia|].
    fold asked. rewrite Hanswer, Hblock. eauto.
  - intros data Hopen Hanswer Hlen Hint. apply Z.leb_le in Hopen.
    destruct (Z.ltb_spec (TunLinux.fd_ st) 0); [lia|].
    fold asked. rewrite Hanswer. change (drop 0 data) with data.
    rewrite to_int_small by (unfold INT_MAX in *; lia).
    rewrite memcpy_all. split; [done|lia].
Qed.

Lemma macos_read_contract :
  read_contract (macos strerror inet_pton system) macos_framing.
Proof.
  intros st buffer kernel_read asked.
  cbn [is_open read macos would_block request prefix macos_framing] in *.
  split_and!.
  - unfold TunMacOS.is_open, TunMacOS.read. intros Hclosed.
    apply Z.leb_gt in Hclosed.
    by destruct (Z.ltb_spec (TunMacOS.fd_ st) 0); [|lia].
  - unfold TunMacOS.is_open, TunMacOS.read.
    intros errno Hopen Hanswer Hblock. apply Z.leb_le in Hopen.
    destruct (Z.ltb_spec (TunMacOS.fd_ st) 0); [lia|].
    fold asked. by rewrite Hanswer, Hblock.
  - unfold TunMacOS.is_open, TunMacOS.read.
    intros errno Hopen Hanswer Hblock. apply Z.leb_le in Hopen.
    destruct (Z.ltb_spec (TunMacOS.fd_ st) 0); [lia|].
    fold asked. rewrite Hanswer, Hblock. eauto.
  - intros data Hopen Hanswer Hlen _. set (payload := drop 4 data).
    destruct (readSize_bounds (Z.of_nat (length buffer))) as (Hle & Hcap & _);
      [lia|]. fold asked in Hle, Hcap.
    rewrite (macos_read_delivers st buffer data) by (done || lia).
    assert (length payload = length data - 4)%nat as Hpayload
      by (unfold payload; by rewrite length_drop).
    replace (Z.to_nat (Z.min (Z.of_nat (length data) - 4)
                             (Z.of_nat (length buffer))))
      with (length payload) by lia.
    fold payload. rewrite firstn_all. split; [done|lia].
Qed.

(** C7.  In both variants [read] returns -1 when the device is not open,
    0 when the kernel reports EAGAIN/EWOULDBLOCK, -1 on any other kernel
    error, and on a delivered packet the positive number of payload bytes,
    the payload being at the start of the caller's buffer; the macOS variant
    asks for four bytes more and drops the four-byte family prefix. *)
Theorem read_return_contract :
  read_contract (linux strerror inet_pton system) linux_framing ∧
  read_contract (macos strerror inet_pton system) macos_framing ∧
  prefix linux_framing = 0%nat ∧
  prefix macos_framing = 4%nat.
Proof.
  split_and!; [apply linux_read_contract|apply macos_read_contract|done|done].
Qed.

(** *** C8: short datagrams and oversized payloads on macOS *)

(** C8.  On an open macOS device: whenever the kernel's answer to the read
    is four bytes or fewer, [read] returns 0, leaves the caller's buffer and
    the recorded error as they were; whenever the answer carries more
    payload than the caller's buffer holds, only as many bytes as the buffer
    holds are copied and that number is returned; and with a datagram
    pending whose payload is larger than the caller's buffer (the datagram
    itself fitting the 64 KiB staging buffer), the caller gets the first
    bytes of the payload, as many as the buffer holds, and that number as
    the result.  In no case is an error reported. *)
Theorem macos_read_short_or_truncated (st : TunMacOS.State)
    (buffer : list byte) :
  TunMacOS.is_open st = true →
  (∀ kernel_read raw,
     kernel_read (TunMacOS.readSize (Z.of_nat (length buffer))) = ReadBytes raw →
     Z.of_nat (length raw) <= 4 →
     TunMacOS.read strerror st buffer kernel_read = (0, buffer, st)) ∧
  (∀ kernel_read raw,
     kernel_read (TunMacOS.readSize (Z.of_nat (length buffer))) = ReadBytes raw →
     Z.of_nat (length raw) <= 65536 →
     Z.of_nat (length raw) - 4 > Z.of_nat (length buffer) →
     TunMacOS.read strerror st buffer kernel_read
       = (Z.of_nat (length buffer), take (length buffer) (drop 4 raw), st)) ∧
  (∀ d,
     Z.of_nat (length d) <= 65536 →
     Z.of_nat (length (drop 4 d)) > Z.of_nat (length buffer) →
     TunMacOS.read strerror st buffer (datagram d)
       = (Z.of_nat (length buffer), take (length buffer) (drop 4 d), st)).
Proof.
  intros Hopen.
  assert (Hshort : ∀ kernel_read raw,
    kernel_read (TunMacOS.readSize (Z.of_nat (length buffer))) = ReadBytes raw →
    Z.of_nat (length raw) <= 4 →
    TunMacOS.read strerror st buffer kernel_read = (0, buffer, st)).
  { intros kernel_read raw Hanswer Hlen. unfold TunMacOS.read.
    unfold TunMacOS.is_open in Hopen. apply Z.leb_le in Hopen.
    destruct (Z.ltb_spec (TunMacOS.fd_ st) 0); [lia|]. rewrite Hanswer.
    by destruct (Z.leb_spec (Z.of_nat (length raw)) 4); [|lia]. }
  assert (Hlong : ∀ kernel_read raw,
    kernel_read (TunMacOS.readSize (Z.of_nat (length buffer))) = ReadBytes raw →
    Z.of_nat (length raw) <= 65536 →
    Z.of_nat (length raw) - 4 >= Z.of_nat (length buffer) →
    0 < Z.of_nat (length buffer) →
    TunMacOS.read strerror st buffer kernel_read
      = (Z.of_nat (length buffer), take (length buffer) (drop 4 raw), st)).
  { intros kernel_read raw Hanswer Hfit Hlen Hsize.
    rewrite (macos_read_delivers st buffer raw) by (done || lia).
    replace (Z.to_nat (Z.min (Z.of_nat (length raw) - 4)
                             (Z.of_nat (length buffer))))
      with (length buffer) by lia.
    by rewrite drop_all, app_nil_r. }
  split_and!; [done| |].
  - intros kernel_read raw Hanswer Hfit Hlen.
    destruct buffer as [|b buffer'] eqn:Hbuf.
    + unfold TunMacOS.read. unfold TunMacOS.is_open in Hopen.
      apply Z.leb_le in Hopen.
      destruct (Z.ltb_spec (TunMacOS.fd_ st) 0); [lia|]. rewrite Hanswer.
      cbn [length] in *.
      destruct (Z.leb_spec (Z.of_nat (length raw)) 4); [lia|].
      destruct (Z.gtb_spec (Z.of_nat (length raw) - 4) (Z.of_nat 0)); [|lia].
      done.
    + rewrite <- Hbuf in *. apply Hlong; try done; try lia.
      rewrite Hbuf. cbn [length]. lia.
  - intros d Hfit Hlen. rewrite length_drop in Hlen.
    destruct (readSize_bounds (Z.of_nat (length buffer))) as (_ & _ & Hexact);
      [lia|].
    assert (Hraw : datagram d (TunMacOS.readSize (Z.of_nat (length buffer)))
                   = ReadBytes (take (length buffer + 4) d)).
    { unfold datagram. rewrite Hexact by lia. do 2 f_equal. lia. }
    assert (Hrawlen : length (take (length buffer + 4) d)
                      = (length buffer + 4)%nat)
      by (rewrite length_take; lia).
    assert (Hpayload : take (length buffer) (drop 4 (take (length buffer + 4) d))
                       = take (length buffer) (drop 4 d)).
    { rewrite (Nat.add_comm (length buffer) 4), <- take_drop_commute.
      by rewrite take_take, Nat.min_id. }
    destruct (decide (length buffer = 0%nat)) as [Hempty|Hnonempty].
    + rewrite (Hshort _ _ Hraw) by lia.
      rewrite Hempty. destruct buffer; [done|discriminate].
    + rewrite (Hlong _ _ Hraw) by lia. by rewrite Hpayload.
Qed.

(** *** C9: the size check and the family header of the macOS [write] *)

Lemma family_bytes (buffer : list byte) :
  htonl_bytes (TunMacOS.family buffer)
  = match buffer with
    | b :: _ =>
        if TunMacOS.version_nibble b =? 6
        then [x00; x00; x00; x1e] else [x00; x00; x00; x02]
    | [] => [x00; x00; x00; x02]
    end.
Proof.
  unfold TunMacOS.family. destruct buffer as [|b rest]; [done|].
  destruct (Z.eqb_spec (TunMacOS.version_nibble b) 4) as [->|]; [done|].
  by destruct (TunMacOS.version_nibble b =? 6).
Qed.

(** The nibble [write] looks at is the high nibble of the byte: its value
    divided by 16. *)
Lemma version_nibble_high (b : byte) :
  TunMacOS.version_nibble b = Z.of_N (Byte.to_N b) / 16.
Proof.
  unfold TunMacOS.version_nibble. rewrite Z.shiftr_div_pow2 by lia. done.
Qed.

(** C9.  On an open macOS device, for a packet of [size] bytes (a [size_t]
    to which 4 can be added): if [size + 4] exceeds 65536 the call returns
    -1, records "Packet too large" and hands nothing to the kernel;
    otherwise the kernel is handed the four-byte family header in network
    byte order followed by the packet, at most 65536 bytes in all.  The
    family is AF_INET (2) when the high nibble of the packet's first byte
    (the byte's value divided by 16) is 4, AF_INET6 (30) when it is 6, and
    AF_INET for any other first byte or an empty packet; the bytes handed
    to the kernel are then 00 00 00 02, respectively 00 00 00 1e, followed
    by the packet. *)
Theorem macos_write_size_check_and_family (st : TunMacOS.State)
    (buffer : list byte) (kernel_write : list byte → WriteAnswer) :
  TunMacOS.is_open st = true →
  Z.of_nat (length buffer) + 4 <= SIZE_MAX →
  (Z.of_nat (length buffer) + 4 > 65536 →
     TunMacOS.write strerror st buffer kernel_write
       = (-1, TunMacOS.setError "Packet too large" st, None) ∧
     TunMacOS.lastError_ (TunMacOS.setError "Packet too large" st)
       = "Packet too large") ∧
  (Z.of_nat (length buffer) + 4 <= 65536 →
     ∃ ret st',
       TunMacOS.write strerror st buffer kernel_write
         = (ret, st', Some (htonl_bytes (TunMacOS.family buffer) ++ buffer)) ∧
       Z.of_nat (length (htonl_bytes (TunMacOS.family buffer) ++ buffer))
         <= 65536) ∧
  (∀ b rest, buffer = b :: rest → Z.of_N (Byte.to_N b) / 16 = 4 →
     TunMacOS.family buffer = TunMacOS.AF_INET ∧
     htonl_bytes (TunMacOS.family buffer) = [x00; x00; x00; x02]) ∧
  (∀ b rest, buffer = b :: rest → Z.of_N (Byte.to_N b) / 16 = 6 →
     TunMacOS.family buffer = TunMacOS.AF_INET6 ∧
     htonl_bytes (TunMacOS.family buffer) = [x00; x00; x00; x1e]) ∧
  ((buffer = [] ∨
    ∃ b rest, buffer = b :: rest ∧
      Z.of_N (Byte.to_N b) / 16 ≠ 4 ∧ Z.of_N (Byte.to_N b) / 16 ≠ 6) →
     TunMacOS.family buffer = TunMacOS.AF_INET ∧
     htonl_bytes (TunMacOS.family buffer) = [x00; x00; x00; x02]) ∧
  (Z.of_nat (length buffer) + 4 <= 65536 →
     ∃ ret st',
       TunMacOS.write strerror st buffer kernel_write
         = (ret, st',
            Some ((match buffer with
                   | b :: _ =>
                       if Z.of_N (Byte.to_N b) / 16 =? 6
                       then [x00; x00; x00; x1e] else [x00; x00; x00; x02]
                   | [] => [x00; x00; x00; x02]
                   end) ++ buffer))).
Proof.
  intros Hopen Hsize. unfold TunMacOS.is_open in Hopen. apply Z.leb_le in Hopen.
  unfold SIZE_MAX in Hsize.
  assert (Hadd : size_add (Z.of_nat (length buffer)) 4
                 = Z.of_nat (length buffer) + 4)
    by (unfold size_add; apply Z.mod_small; lia).
  assert (Hhanded : Z.of_nat (length buffer) + 4 <= 65536 →
     ∃ ret st',
       TunMacOS.write strerror st buffer kernel_write
         = (ret, st', Some (htonl_bytes (TunMacOS.family buffer) ++ buffer))).
  { intros Hfit. unfold TunMacOS.write.
    destruct (Z.ltb_spec (TunMacOS.fd_ st) 0); [lia|]. rewrite Hadd.
    unfold TunMacOS.STAGING_SIZE.
    destruct (Z.gtb_spec (Z.of_nat (length buffer) + 4) 65536); [lia|].
    destruct (kernel_write _) as [n|errno].
    + destruct (n <=? 4); eauto.
    + destruct ((errno =? TunMacOS.EAGAIN) || (errno =? TunMacOS.EWOULDBLOCK));
        eauto. }
  split_and!.
  - intros Hbig. split; [|done]. unfold TunMacOS.write.
    destruct (Z.ltb_spec (TunMacOS.fd_ st) 0); [lia|]. rewrite Hadd.
    unfold TunMacOS.STAGING_SIZE.
    by destruct (Z.gtb_spec (Z.of_nat (length buffer) + 4) 65536); [|lia].
  - intros Hfit. destruct (Hhanded Hfit) as (ret & st' & Hrun).
    exists ret, st'. split; [done|].
    rewrite length_app. cbn [length htonl_bytes]. lia.
  - intros b rest -> Hnib. rewrite family_bytes. unfold TunMacOS.family.
    by rewrite version_nibble_high, Hnib.
  - intros b rest -> Hnib. rewrite family_bytes. unfold TunMacOS.family.
    by rewrite version_nibble_high, Hnib.
  - intros [->|(b & rest & -> & H4 & H6)]; [done|].
    rewrite family_bytes. unfold TunMacOS.family.
    rewrite version_nibble_high.
    destruct (Z.eqb_spec (Z.of_N (Byte.to_N b) / 16) 4); [done|].
    by destruct (Z.eqb_spec (Z.of_N (Byte.to_N b) / 16) 6).
  - intros Hfit. destruct (Hhanded Hfit) as (ret & st' & Hrun).
    exists ret, st'. rewrite Hrun, family_bytes.
    destruct buffer as [|b rest]; [done|]. by rewrite version_nibble_high.
Qed.

(** *** C10: a netmask that does not parse *)

Lemma linux_set_ip_prefix (st : TunLinux.State) (ip netmask : string)
    (history : list string) (ipAddr : Z) :
  TunLinux.is_open st = true →
  TunLinux.deviceName_ st ≠ EmptyString →
  inet_pton ip = Some ipAddr →
  TunLinux.netmaskToPrefixLength inet_pton netmask = 24 →
  let cmd := "ip addr add " +:+ ip +:+ "/24 dev " +:+ TunLinux.deviceName_ st in
  let delCmd := "ip addr flush dev " +:+ TunLinux.deviceName_ st in
  TunLinux.set_ip inet_pton system st ip netmask history =
    if system history cmd =? 0
    then (true, st, history ++ [cmd])
    else if system (history ++ [cmd; delCmd]) cmd =? 0
    then (true, st, history ++ [cmd; delCmd; cmd])
    else (false, TunLinux.setError "Failed to set IP address" st,
          history ++ [cmd; delCmd; cmd]).
Proof.
  intros Hopen Hname Hip Hprefix cmd delCmd. unfold TunLinux.set_ip.
  unfold TunLinux.is_open in Hopen. apply Z.leb_le in Hopen.
  destruct (Z.ltb_spec (TunLinux.fd_ st) 0); [lia|].
  rewrite bool_decide_eq_false_2 by done. cbn [orb].
  rewrite Hip, Hprefix. unfold TunLinux.runCommand.
  change ("ip addr add " +:+ ip +:+ "/" +:+ decimal 24 +:+ " dev " +:+
          TunLinux.deviceName_ st) with cmd.
  fold delCmd.
  destruct (system history cmd =? 0); cbn [negb]; [done|].
  rewrite <- !(assoc_L (++)). cbn [app].
  by destruct (system (history ++ [cmd; delCmd]) cmd =? 0).
Qed.

(** C10, as amended.  In both variants [netmaskToPrefixLength] answers 24
    for a netmask that does not parse, and [set_ip] does not reject such a
    netmask itself.  The Linux variant then does exactly what it does for
    255.255.255.0: it runs [ip addr add <ip>/24 dev <name>] (once more after
    a flush if that fails) and returns whether it succeeded.  The macOS
    variant uses the /24 only for the point-to-point peer address; the
    netmask string goes into the [ifconfig] command as it was given, and the
    call returns whether that command succeeded. *)
Theorem bad_netmask_handling (netmask : string) :
  inet_pton netmask = None →
  TunLinux.netmaskToPrefixLength inet_pton netmask = 24 ∧
  TunMacOS.netmaskToPrefixLength inet_pton netmask = 24 ∧
  (inet_pton "255.255.255.0" = Some 4294967040 →
   ∀ st ip history,
     TunLinux.set_ip inet_pton system st ip netmask history
     = TunLinux.set_ip inet_pton system st ip "255.255.255.0" history) ∧
  (∀ st ip ipAddr history,
     TunLinux.is_open st = true →
     TunLinux.deviceName_ st ≠ EmptyString →
     inet_pton ip = Some ipAddr →
     let cmd := "ip addr add " +:+ ip +:+ "/24 dev " +:+
                TunLinux.deviceName_ st in
     let delCmd := "ip addr flush dev " +:+ TunLinux.deviceName_ st in
     TunLinux.set_ip inet_pton system st ip netmask history =
       if system history cmd =? 0
       then (true, st, history ++ [cmd])
       else if system (history ++ [cmd; delCmd]) cmd =? 0
       then (true, st, history ++ [cmd; delCmd; cmd])
       else (false, TunLinux.setError "Failed to set IP address" st,
             history ++ [cmd; delCmd; cmd])) ∧
  (∀ st ip ipAddr history,
     TunMacOS.is_open st = true →
     TunMacOS.deviceName_ st ≠ EmptyString →
     inet_pton ip = Some ipAddr →
     let cmd := "ifconfig " +:+ TunMacOS.deviceName_ st +:+ " " +:+ ip +:+
                " " +:+ inet_ntop (TunMacOS.peerAddr ipAddr 24) +:+
                " netmask " +:+ netmask +:+ " up" in
     TunMacOS.set_ip inet_pton system st ip netmask history =
       if system history cmd =? 0
       then (true, st, history ++ [cmd])
       else (false, TunMacOS.setError "Failed to set IP address" st,
             history ++ [cmd])).
Proof.
  intros Hbad.
  assert (Hlinux : TunLinux.netmaskToPrefixLength inet_pton netmask = 24)
    by (unfold TunLinux.netmaskToPrefixLength; by rewrite Hbad).
  assert (Hmacos : TunMacOS.netmaskToPrefixLength inet_pton netmask = 24)
    by (unfold TunMacOS.netmaskToPrefixLength; by rewrite Hbad).
  split_and!; [done|done| | |].
  - intros Hmask st ip history. unfold TunLinux.set_ip.
    rewrite Hlinux. unfold TunLinux.netmaskToPrefixLength. rewrite Hmask.
    by assert (leading_ones 32 4294967040 0 = 24) as -> by (by vm_compute).
  - intros st ip ipAddr history Hopen Hname Hip.
    by apply (linux_set_ip_prefix st ip netmask history ipAddr).
  - intros st ip ipAddr history Hopen Hname Hip cmd. unfold TunMacOS.set_ip.
    unfold TunMacOS.is_open in Hopen. apply Z.leb_le in Hopen.
    destruct (Z.ltb_spec (TunMacOS.fd_ st) 0); [lia|].
    rewrite bool_decide_eq_false_2 by done. cbn [orb].
    rewrite Hip, Hmacos. unfold TunMacOS.runCommand. fold cmd.
    by destruct (system history cmd =? 0).
Qed.

End TunAdapters.

(** *** The statements at work on sample devices *)

(** C7 on a closed Linux device, on an open macOS device whose kernel
    reports EAGAIN, then an I/O error, and on one with an IPv4 packet
    pending behind its family prefix. *)
Lemma read_return_contract_witness :
  TunLinux.read Sample.strerror Sample.linux_closed [x00; x00]
    (Posix.datagram [x45; x00])
    = (-1, [x00; x00], Sample.linux_closed) ∧
  TunMacOS.read Sample.strerror Sample.macos_tun [x00; x00] (Posix.failing 35)
    = (0, [x00; x00], Sample.macos_tun) ∧
  (∃ st', TunMacOS.read Sample.strerror Sample.macos_tun [x00; x00]
            (Posix.failing 5) = (-1, [x00; x00], st')) ∧
  TunLinux.read Sample.strerror Sample.linux_tun [x00; x00; x00]
    (Posix.datagram [x45; x00]) = (2, [x45; x00; x00], Sample.linux_tun) ∧
  TunMacOS.read Sample.strerror Sample.macos_tun [x00; x00; x00]
    (Posix.datagram [x00; x00; x00; x02; x45; x00])
    = (2, [x45; x00; x00], Sample.macos_tun).
Proof.
  destruct (read_return_contract Sample.strerror Sample.inet_pton Sample.system)
    as (Hlinux & Hmacos & _).
  split_and!.
  - by apply (Hlinux Sample.linux_closed [x00; x00]
                (Posix.datagram [x45; x00])).
  - destruct (Hmacos Sample.macos_tun [x00; x00] (Posix.failing 35))
      as (_ & Hblock & _). by apply (Hblock 35).
  - destruct (Hmacos Sample.macos_tun [x00; x00] (Posix.failing 5))
      as (_ & _ & Herr & _). by apply (Herr 5).
  - destruct (Hlinux Sample.linux_tun [x00; x00; x00]
                (Posix.datagram [x45; x00])) as (_ & _ & _ & Hdata).
    apply (Hdata [x45; x00]); [done|done|cbn; lia|by cbn].
  - destruct (Hmacos Sample.macos_tun [x00; x00; x00]
                (Posix.datagram [x00; x00; x00; x02; x45; x00]))
      as (_ & _ & _ & Hdata).
    apply (Hdata [x00; x00; x00; x02; x45; x00]);
      [done|done|vm_compute; by split|by cbn].
Defined.

(** C8 on an open macOS device: a datagram that is only the prefix, and a
    five-byte payload read into a three-byte buffer. *)
Lemma macos_read_short_or_truncated_witness :
  TunMacOS.read Sample.strerror Sample.macos_tun [x00; x00; x00]
    (Posix.datagram [x00; x00; x00; x02])
    = (0, [x00; x00; x00], Sample.macos_tun) ∧
  TunMacOS.read Sample.strerror Sample.macos_tun [x00; x00; x00]
    (λ _, Posix.ReadBytes [x00; x00; x00; x02; x45; x01; x02; x03; x04])
    = (3, [x45; x01; x02], Sample.macos_tun) ∧
  TunMacOS.read Sample.strerror Sample.macos_tun [x00; x00; x00]
    (Posix.datagram [x00; x00; x00; x02; x45; x01; x02; x03; x04])
    = (3, [x45; x01; x02], Sample.macos_tun).
Proof.
  destruct (macos_read_short_or_truncated Sample.strerror Sample.macos_tun
              [x00; x00; x00] eq_refl) as (Hshort & Hclamp & Hdatagram).
  split_and!.
  - apply (Hshort _ [x00; x00; x00; x02]); [done|by cbn].
  - apply (Hclamp _ [x00; x00; x00; x02; x45; x01; x02; x03; x04]);
      [done|by cbn|by cbn].
  - apply (Hdatagram [x00; x00; x00; x02; x45; x01; x02; x03; x04]);
      [by cbn|by cbn].
Defined.

(** C9 on an open macOS device: a 65533-byte packet is refused; an IPv6
    packet (first byte 60) goes out behind the bytes 00 00 00 1e, an IPv4
    packet (first byte 46) and a packet that is neither (first byte 00)
    behind 00 00 00 02. *)
Lemma macos_write_size_check_and_family_witness :
  TunMacOS.write Sample.strerror Sample.macos_tun (replicate (Z.to_nat 65533) x00)
    Posix.accepting
    = (-1, TunMacOS.setError "Packet too large" Sample.macos_tun, None) ∧
  (∃ ret st',
     TunMacOS.write Sample.strerror Sample.macos_tun [x60; x00] Posix.accepting
       = (ret, st', Some ([x00; x00; x00; x1e] ++ [x60; x00]))) ∧
  (∃ ret st',
     TunMacOS.write Sample.strerror Sample.macos_tun [x46; x00] Posix.accepting
       = (ret, st', Some ([x00; x00; x00; x02] ++ [x46; x00]))) ∧
  (∃ ret st',
     TunMacOS.write Sample.strerror Sample.macos_tun [x00; x01] Posix.accepting
       = (ret, st', Some ([x00; x00; x00; x02] ++ [x00; x01]))).
Proof.
  split_and!.
  - destruct (macos_write_size_check_and_family Sample.strerror
                Sample.macos_tun (replicate (Z.to_nat 65533) x00) Posix.accepting)
      as (Hbig & _); [done|rewrite length_replicate; by vm_compute|].
    apply Hbig. rewrite length_replicate. lia.
  - destruct (macos_write_size_check_and_family Sample.strerror
                Sample.macos_tun [x60; x00] Posix.accepting)
      as (_ & Hfit & _ & H6 & _); [done|by vm_compute|].
    destruct (H6 x60 [x00]) as [_ Hbytes]; [done|done|].
    destruct Hfit as (ret & st' & Hrun & _); [by vm_compute|].
    exists ret, st'. by rewrite <- Hbytes.
  - destruct (macos_write_size_check_and_family Sample.strerror
                Sample.macos_tun [x46; x00] Posix.accepting)
      as (_ & Hfit & H4 & _); [done|by vm_compute|].
    destruct (H4 x46 [x00]) as [_ Hbytes]; [done|done|].
    destruct Hfit as (ret & st' & Hrun & _); [by vm_compute|].
    exists ret, st'. by rewrite <- Hbytes.
  - destruct (macos_write_size_check_and_family Sample.strerror
                Sample.macos_tun [x00; x01] Posix.accepting)
      as (_ & _ & _ & _ & _ & Hhanded); [done|by vm_compute|].
    destruct Hhanded as (ret & st' & Hrun); [by vm_compute|].
    by exists ret, st'.
Defined.

(** C10 as amended, with the netmask "notamask": the Linux device gets its
    /24, the macOS device an [ifconfig] command with that netmask in it. *)
Lemma bad_netmask_handling_witness :
  TunLinux.netmaskToPrefixLength Sample.inet_pton "notamask" = 24 ∧
  TunMacOS.netmaskToPrefixLength Sample.inet_pton "notamask" = 24 ∧
  TunLinux.set_ip Sample.inet_pton Sample.system Sample.linux_tun
    "10.0.0.5" "notamask" []
    = (true, Sample.linux_tun, ["ip addr add 10.0.0.5/24 dev steamvpn0"]) ∧
  TunMacOS.set_ip Sample.inet_pton Sample.system Sample.macos_tun
    "10.0.0.5" "notamask" []
    = (false, TunMacOS.setError "Failed to set IP address" Sample.macos_tun,
       ["ifconfig utun0 10.0.0.5 10.0.0.1 netmask notamask up"]).
Proof.
  destruct (bad_netmask_handling Sample.inet_pton Sample.system "notamask"
              eq_refl) as (Hlinux & Hmacos & _ & Hip & Hifconfig).
  split_and!; [done|done| |].
  - by rewrite (Hip Sample.linux_tun "10.0.0.5" 167772165 []).
  - by rewrite (Hifconfig Sample.macos_tun "10.0.0.5" 167772165 []).
Defined.

(** C10 as stated fails on macOS: with a shell whose [ifconfig] wants a
    dotted-quad netmask, [set_ip("10.0.0.5", "notamask")] returns false,
    where [set_ip("10.0.0.5", "255.255.255.0")] returns true. *)
Lemma macos_set_ip_bad_netmask_counterexample :
  ¬ Tun.bad_netmask_is_slash24
      (Tun.macos Sample.strerror Sample.inet_pton Sample.system)
      Sample.inet_pton.
Proof.
  intros Hall.
  specialize (Hall Sample.macos_tun "10.0.0.5" "notamask" [] eq_refl).
  vm_compute in Hall. discriminate Hall.
Qed.

(** * Further properties *)

(** ** The registry as a set, and who is ever sent to *)

Section RegistryMore.
Import SteamNetworkingManager.
#[local] Set Default Proof Using "Type".

Variable transport_result : N → list byte → Z → Z → Z.

Abbreviation addPeer := (SteamNetworkingManager.addPeer transport_result).
Abbreviation broadcastMessage :=
  (SteamNetworkingManager.broadcastMessage transport_result).
Abbreviation sendMessageToUser :=
  (SteamNetworkingManager.sendMessageToUser transport_result).
Abbreviation call := (SteamNetworkingManager.call transport_result).
Abbreviation calls := (SteamNetworkingManager.calls transport_result).

Lemma in_order_NoDup (ps : gset N) : NoDup (in_order ps).
Proof.
  unfold in_order. rewrite merge_sort_Permutation. apply NoDup_elements.
Qed.

Lemma in_order_sorted (ps : gset N) : StronglySorted N.le (in_order ps).
Proof.
  unfold in_order. apply StronglySorted_merge_sort.
  - intros x y z. apply N.le_trans.
  - intros x y. apply N.le_ge_cases.
Qed.

(** One call changes the registry as its set reading says, and nothing
    else of the manager. *)
Lemma call_registry c m m' t :
  call c m = Some (tt, m', t) →
  m' = set_peers (registry_after_call (self m) c (peers_ m)) m.
Proof.
  intros Hrun. destruct c as [q|q| |q data flags|data flags]; cbn in Hrun;
    cbn [registry_after_call].
  - destruct (decide (q = self m)) as [->|Hself].
    { rewrite addPeer_self in Hrun.
      rewrite bool_decide_eq_true_2, set_peers_same by done.
      by simplify_eq. }
    rewrite bool_decide_eq_false_2 by done.
    destruct (decide (q ∈ peers_ m)) as [Hin|Hin].
    { rewrite addPeer_known in Hrun by done.
      rewrite (subseteq_union_1_L {[q]} (peers_ m))
        by (by apply singleton_subseteq_l).
      rewrite set_peers_same. by simplify_eq. }
    destruct (m_pMessagesInterface m) eqn:Hif.
    + rewrite addPeer_new in Hrun by done. by simplify_eq.
    + by rewrite addPeer_new_null in Hrun.
  - destruct (removePeer_run q m) as (t' & Hrun' & _).
    rewrite Hrun' in Hrun. by simplify_eq.
  - rewrite clearPeers_run in Hrun. by simplify_eq.
  - revert Hrun. unfold mbind, mret, Action_bind, Action_ret.
    rewrite sendMessageToUser_run.
    rewrite set_peers_same.
    destruct (m_pMessagesInterface m); intros; by simplify_eq.
  - rewrite broadcastMessage_run in Hrun. rewrite set_peers_same.
    destruct (m_pMessagesInterface m); by simplify_eq.
Qed.

Lemma calls_registry cs m m' t :
  calls cs m = Some (tt, m', t) →
  m' = set_peers (registry_after (self m) cs (peers_ m)) m.
Proof.
  revert m m' t. induction cs as [|c cs IH]; intros m m' t Hrun.
  { rewrite calls_nil in Hrun. cbn. rewrite set_peers_same. by simplify_eq. }
  rewrite calls_cons in Hrun.
  destruct (call c m) as [[[[] m1] t1]|] eqn:Hc; [|done].
  destruct (calls cs m1) as [[[[] m2] t2]|] eqn:Hcs; [|done].
  apply call_registry in Hc. apply IH in Hcs.
  assert (m' = m2) as -> by congruence. clear Hrun.
  subst m1. by rewrite Hcs.
Qed.

Lemma getPeers_run m : getPeers m = Some (peers_ m, m, [EvLock; EvUnlock]).
Proof. done. Qed.

Lemma isConnected_run m :
  isConnected m = Some (negb (bool_decide (peers_ m = ∅)), m, []).
Proof. done. Qed.

(** X1.  The registry after any sequence of calls that runs to its end is
    the set obtained by reading [addPeer] as insertion (of anything but the
    local identity), [removePeer] as deletion, [clearPeers] as emptying and
    the two send operations as no change; nothing else of the manager
    changes; [getPeers] then returns exactly that set and [isConnected]
    says whether it is non-empty.  With a messages interface every sequence
    runs to its end. *)
Theorem registry_is_a_set (cs : list Call) (m : Manager) :
  (m_pMessagesInterface m = true → ∃ m' t, calls cs m = Some (tt, m', t)) ∧
  (∀ m' t,
     calls cs m = Some (tt, m', t) →
     let ps := registry_after (self m) cs (peers_ m) in
     m' = set_peers ps m ∧
     getPeers m' = Some (ps, m', [EvLock; EvUnlock]) ∧
     isConnected m' = Some (negb (bool_decide (ps = ∅)), m', [])).
Proof.
  split; [apply calls_return|].
  intros m' t Hrun ps. apply calls_registry in Hrun. fold ps in Hrun.
  subst m'. by rewrite getPeers_run, isConnected_run.
Qed.

Lemma registry_after_self_out (me : N) cs (ps : gset N) :
  me ∉ ps → me ∉ registry_after me cs ps.
Proof.
  clear transport_result. revert ps. induction cs as [|c cs IH]; intros ps Hout; [done|].
  cbn. apply IH.
  destruct c as [q|q| | |]; cbn; try case_bool_decide; try done; set_solver.
Qed.

(** Whom a single call can send to. *)
Lemma call_sends_origin (q : N) c m m' t :
  call c m = Some (tt, m', t) →
  sent_to q t →
  q ∈ peers_ m ∨ (c = CallAddPeer q ∧ q ≠ self m) ∨
  ∃ data flags, c = CallSendMessageToUser q data flags.
Proof.
  intros Hrun (d & f & ch & Hsent).
  destruct c as [p|p| |p data flags|data flags]; cbn in Hrun.
  - destruct (decide (p = self m)) as [->|Hself].
    { rewrite addPeer_self in Hrun. simplify_eq. inversion Hsent. }
    destruct (decide (p ∈ peers_ m)) as [Hin|Hin].
    { rewrite addPeer_known in Hrun by done. simplify_eq. inversion Hsent. }
    destruct (m_pMessagesInterface m) eqn:Hif;
      [|by rewrite addPeer_new_null in Hrun].
    rewrite addPeer_new in Hrun by done. simplify_eq.
    assert (q = p) as ->; [|by right; left].
    revert Hsent. destruct (vpnBridge_ m); cbn;
      rewrite list_elem_of_singleton; congruence.
  - destruct (removePeer_run p m) as (t' & Hrun' & Hs & _).
    rewrite Hrun' in Hrun. simplify_eq. rewrite Hs in Hsent. inversion Hsent.
  - rewrite clearPeers_run in Hrun. simplify_eq. revert Hsent. cbn.
    rewrite sends_app, sends_leave_events. cbn. inversion 1.
  - revert Hrun. unfold mbind, mret, Action_bind, Action_ret.
    rewrite sendMessageToUser_run.
    destruct (m_pMessagesInterface m); intros; simplify_eq; cbn in Hsent.
    + apply list_elem_of_singleton in Hsent. simplify_eq. right; right. eauto.
    + inversion Hsent.
  - rewrite broadcastMessage_run in Hrun.
    destruct (m_pMessagesInterface m); simplify_eq; cbn in Hsent.
    + rewrite sends_app, sends_broadcast in Hsent. cbn in Hsent.
      rewrite app_nil_r in Hsent.
      apply list_elem_of_fmap in Hsent as (p & ? & Hp). simplify_eq.
      left. by apply elem_of_in_order.
    + inversion Hsent.
Qed.

Lemma calls_sends_origin (q : N) cs m m' t :
  calls cs m = Some (tt, m', t) →
  sent_to q t →
  q ∈ peers_ m ∨ (CallAddPeer q ∈ cs ∧ q ≠ self m) ∨
  ∃ data flags, CallSendMessageToUser q data flags ∈ cs.
Proof.
  revert m m' t. induction cs as [|c cs IH]; intros m m' t Hrun Hsent.
  { rewrite calls_nil in Hrun. simplify_eq.
    destruct Hsent as (d & f & ch & H). inversion H. }
  rewrite calls_cons in Hrun.
  destruct (call c m) as [[[[] m1] t1]|] eqn:Hc; [|done].
  destruct (calls cs m1) as [[[[] m2] t2]|] eqn:Hcs; [|done].
  assert (m' = m2 ∧ t = t1 ++ t2) as [-> ->] by (split; congruence).
  clear Hrun. destruct Hsent as (d & f & ch & Hsent).
  rewrite sends_app in Hsent. apply elem_of_app in Hsent as [Hsent|Hsent].
  - destruct (call_sends_origin q c m m1 t1 Hc) as [?|[[-> ?]|(d' & f' & ->)]];
      [by exists d, f, ch|by left|right; left; split; [left|done]|].
    right; right. exists d', f'. left.
  - pose proof (call_registry c m m1 t1 Hc) as Hm1.
    destruct (IH m1 m2 t2 Hcs) as [Hin|[[Hadd Hself]|(d' & f' & Hs)]];
      [by exists d, f, ch| | |].
    + subst m1. cbn in Hin.
      destruct c as [p|p| | |]; cbn in Hin;
        [|left; set_solver|set_solver|by left|by left].
      case_bool_decide; [by left|].
      apply elem_of_union in Hin as [Hin|Hin]; [|by left].
      apply elem_of_singleton in Hin as ->.
      right; left. split; [left|done].
    + right; left. split; [by right|]. by subst m1.
    + right; right. exists d', f'. by right.
Qed.

(** X2.  Whatever sequence of calls is made, a frame is only ever sent to a
    peer that was in the registry at the start, or that one of the calls
    names as the target of an [addPeer] or of a [sendMessageToUser]. *)
Theorem sends_only_to_known_or_named (cs : list Call) (m m' : Manager)
    (t : list Event) (q : N) :
  calls cs m = Some (tt, m', t) →
  sent_to q t →
  q ∈ peers_ m ∨ q ∈ named_targets cs.
Proof.
  intros Hrun Hsent.
  destruct (calls_sends_origin q cs m m' t Hrun Hsent)
    as [?|[[Hadd _]|(d & f & Hs)]]; [by left| |]; right;
    unfold named_targets; apply list_elem_of_In, in_flat_map.
  - exists (CallAddPeer q). split; [by apply list_elem_of_In|by left].
  - exists (CallSendMessageToUser q d f).
    split; [by apply list_elem_of_In|by left].
Qed.

(** X3.  The local identity never enters the registry: if it is not in it
    before a sequence of calls, it is not in it afterwards, whatever the
    calls were; and no frame is sent to it, by HELLO or broadcast, unless a
    [sendMessageToUser] in the sequence is addressed to it. *)
Theorem self_stays_out (cs : list Call) (m m' : Manager) (t : list Event) :
  self m ∉ peers_ m →
  calls cs m = Some (tt, m', t) →
  self m' = self m ∧
  (self m' ∉ peers_ m') ∧
  (sent_to (self m) t →
   ∃ data flags, CallSendMessageToUser (self m) data flags ∈ cs).
Proof.
  intros Hout Hrun. pose proof (calls_registry cs m m' t Hrun) as Hm'.
  split_and!.
  - by subst m'.
  - subst m'. cbn. by apply registry_after_self_out.
  - intros Hsent.
    by destruct (calls_sends_origin (self m) cs m m' t Hrun Hsent)
      as [?|[[_ ?]|?]].
Qed.

(** X4.  With a messages interface, [broadcastMessage] leaves the manager
    as it is and sends the caller's bytes with the caller's flags on
    channel 0 to every peer of the registry exactly once, in increasing
    order of identity, and to nobody else; without a messages interface it
    neither sends nor takes the mutex. *)
Theorem broadcastMessage_reaches_each_peer_once (data : list byte) (flags : Z)
    (m : Manager) :
  (m_pMessagesInterface m = true →
   ∃ t,
     broadcastMessage data flags m = Some (tt, m, t) ∧
     sends t = (λ p, (p, data, flags, 0)) <$> in_order (peers_ m) ∧
     effects t = (λ p, EvSend p data flags 0) <$> in_order (peers_ m)) ∧
  (m_pMessagesInterface m = false →
   broadcastMessage data flags m = Some (tt, m, [])) ∧
  NoDup (in_order (peers_ m)) ∧
  StronglySorted N.le (in_order (peers_ m)) ∧
  (∀ p, p ∈ in_order (peers_ m) ↔ p ∈ peers_ m).
Proof.
  split_and!.
  - intros Hif. rewrite broadcastMessage_run, Hif. eexists. split; [done|].
    split.
    + cbn. by rewrite sends_app, sends_broadcast, app_nil_r.
    + change ([EvLock] ++ ?l ++ [EvUnlock])
        with ([EvLock] ++ l ++ [EvUnlock]).
      unfold effects. rewrite !filter_app.
      assert (∀ l : list N,
        filter (λ e, is_lock_event e = false)
          ((λ p, EvSend p data flags VPN_CHANNEL) <$> l)
        = (λ p, EvSend p data flags VPN_CHANNEL) <$> l) as ->.
      { intros l. induction l as [|p l IH]; [done|].
        rewrite fmap_cons, filter_cons_True by done. by rewrite IH. }
      cbn. by rewrite app_nil_r.
  - intros Hif. by rewrite broadcastMessage_run, Hif.
  - apply in_order_NoDup.
  - apply in_order_sorted.
  - intros p. apply elem_of_in_order.
Qed.

(** X5.  Adding a new peer and removing it again is a round trip: for a
    peer that is neither the local identity nor registered, on a manager
    with a messages interface, [addPeer(p)] followed by [removePeer(p)]
    returns the manager to exactly the state it started from, having sent
    one HELLO to [p] and closed [p]'s session (with the bridge, if any,
    told of the join and of the leave, in that order). *)
Theorem addPeer_removePeer_round_trip (p : N) (m : Manager) :
  p ≠ self m →
  p ∉ peers_ m →
  m_pMessagesInterface m = true →
  ∃ t,
    (addPeer p ;; removePeer p) m = Some (tt, m, t) ∧
    effects t =
      [EvSend p [x01; x00; x00] 40 0]
      ++ (if vpnBridge_ m then [EvUserJoined p] else [])
      ++ [EvCloseSession p]
      ++ (if vpnBridge_ m then [EvUserLeft p] else []).
Proof.
  intros Hself Hnew Hif. unfold mbind, Action_bind.
  rewrite addPeer_new by done.
  rewrite removePeer_known by (cbn; set_solver). cbn [peers_ set_peers].
  assert (({[p]} ∪ peers_ m) ∖ {[p]} = peers_ m) as -> by set_solver.
  assert (set_peers (peers_ m)
            (set_peers ({[p]} ∪ peers_ m) m) = m) as ->
    by (by destruct m).
  eexists. split; [done|]. cbn. rewrite Hif.
  by destruct (vpnBridge_ m).
Qed.

(** X6.  [removePeer] is idempotent and safe on strangers: it always
    returns; removing a peer that is not registered changes nothing and has
    no effect outside; and a second [removePeer(p)] right after a first
    one finds nothing to do. *)
Theorem removePeer_idempotent (p : N) (m : Manager) :
  (p ∉ peers_ m → removePeer p m = Some (tt, m, [EvLock; EvUnlock])) ∧
  ∃ m1 t1,
    removePeer p m = Some (tt, m1, t1) ∧
    (p ∉ peers_ m1) ∧
    removePeer p m1 = Some (tt, m1, [EvLock; EvUnlock]).
Proof using Type.
  clear transport_result. split; [apply removePeer_unknown|].
  destruct (removePeer_run p m) as (t1 & Hrun & _).
  exists (set_peers (peers_ m ∖ {[p]}) m), t1.
  assert (p ∉ peers_ (set_peers (peers_ m ∖ {[p]}) m)) by (cbn; set_solver).
  split_and!; [done|done|]. by apply removePeer_unknown.
Qed.

End RegistryMore.

(** ** Session requests, shutdown and status queries *)

Section Lifecycle.
Import SteamNetworkingManager.
#[local] Set Default Proof Using "Type".

Variable transport_result : N → list byte → Z → Z → Z.

Lemma OnSessionRequest_run (remote : N) (m : Manager) :
  OnSessionRequest remote m =
    if bool_decide (remote ∈ peers_ m)
    then if m_pMessagesInterface m
         then Some (tt, m, [EvRegistry EvLock; EvAcceptSession remote;
                            EvRegistry EvUnlock])
         else None
    else Some (tt, m, [EvRegistry EvLock; EvRegistry EvUnlock]).
Proof.
  unfold OnSessionRequest, AcceptSessionWithUser, lift, lock, unlock,
    peers_get, emit, get.
  unfold mbind, mret, Api_bind, Api_ret, Action_bind, Action_ret. cbn.
  case_bool_decide; cbn; [|done]. by destruct (m_pMessagesInterface m).
Qed.

(** X7.  A session request is accepted exactly when it comes from a peer of
    the registry, and answering it changes nothing: on a manager with a
    messages interface [OnSessionRequest] returns with the manager as it
    was, having called [AcceptSessionWithUser] for the requester if and
    only if the requester is registered, and having closed no session and
    called no bridge.  So a request from a peer is accepted after
    [addPeer] of that peer and left unanswered after its [removePeer]. *)
Theorem OnSessionRequest_accepts_registered_only (remote : N) (m : Manager) :
  m_pMessagesInterface m = true →
  (∃ t,
     OnSessionRequest remote m = Some (tt, m, t) ∧
     api_accepts t = (if bool_decide (remote ∈ peers_ m) then [remote] else []) ∧
     api_closes t = [] ∧
     api_bridge_calls t = []) ∧
  (remote ≠ self m →
   ∃ m1 t1 t,
     SteamNetworkingManager.addPeer transport_result remote m
       = Some (tt, m1, t1) ∧
     OnSessionRequest remote m1 = Some (tt, m1, t) ∧
     api_accepts t = [remote]) ∧
  (∃ m1 t1 t,
     removePeer remote m = Some (tt, m1, t1) ∧
     OnSessionRequest remote m1 = Some (tt, m1, t) ∧
     api_accepts t = []).
Proof.
  intros Hif. split_and!.
  - rewrite OnSessionRequest_run, Hif. case_bool_decide; by eexists.
  - intros Hself.
    destruct (call_returns transport_result (CallAddPeer remote) m Hif)
      as (m1 & t1 & Hrun & Hif1).
    pose proof (call_registry transport_result _ _ _ _ Hrun) as Hm1.
    cbn in Hrun, Hm1. rewrite bool_decide_eq_false_2 in Hm1 by done.
    exists m1, t1. rewrite OnSessionRequest_run, Hif1.
    rewrite bool_decide_eq_true_2 by (subst m1; cbn; set_solver).
    by eexists.
  - destruct (removePeer_run remote m) as (t1 & Hrun & _).
    exists (set_peers (peers_ m ∖ {[remote]}) m), t1.
    rewrite OnSessionRequest_run.
    rewrite bool_decide_eq_false_2 by (cbn; set_solver). by eexists.
Qed.

Lemma close_all_sessions_run (m : Manager) :
  close_all_sessions m =
    Some (tt, set_peers ∅ m,
          [EvLock]
          ++ (if m_pMessagesInterface m
              then EvCloseSession <$> in_order (peers_ m) else [])
          ++ [EvUnlock]).
Proof.
  unfold close_all_sessions, peers_get, lock, unlock, put_peers, emit, get.
  unfold mbind, mret, Action_bind, Action_ret. cbn.
  rewrite (for_each_steady _ _
             (λ p, if m_pMessagesInterface m then [EvCloseSession p] else [])).
  - cbn. do 4 f_equal. destruct (m_pMessagesInterface m).
    + by rewrite flat_map_singleton.
    + by induction (in_order (peers_ m)).
  - intros p _. unfold CloseSessionWithUser, m_pMessagesInterface_get, when,
      emit, get. unfold mbind, mret, Action_bind, Action_ret. cbn.
    destruct (m_pMessagesInterface m) eqn:Hif; cbn; by rewrite ?Hif.
Qed.

Lemma api_closes_lift_closes (l : list N) :
  api_closes (EvRegistry <$> (EvCloseSession <$> l)) = l.
Proof. unfold api_closes. induction l; cbn; congruence. Qed.

Lemma api_others_lift_closes (l : list N) :
  api_accepts (EvRegistry <$> (EvCloseSession <$> l)) = [] ∧
  api_bridge_calls (EvRegistry <$> (EvCloseSession <$> l)) = [].
Proof.
  unfold api_accepts, api_bridge_calls. induction l; cbn; [done|]. apply IHl.
Qed.

(** X8.  [shutdown] returns on every manager, with or without a messages
    interface: it empties the registry and, if there is a messages
    interface, closes the session of each registered peer exactly once, in
    increasing order; unlike [clearPeers] it never calls the bridge; its
    last act is [SteamAPI_Shutdown()]; and a broadcast after it sends
    nothing. *)
Theorem shutdown_closes_every_session (m : Manager) :
  ∃ m' t,
    shutdown m = Some (tt, m', t) ∧
    m' = set_peers ∅ m ∧
    api_closes t
      = (if m_pMessagesInterface m then in_order (peers_ m) else []) ∧
    api_bridge_calls t = [] ∧
    api_accepts t = [] ∧
    last t = Some EvSteamAPIShutdown ∧
    ∀ data flags, ∃ t',
      SteamNetworkingManager.broadcastMessage transport_result data flags m'
        = Some (tt, m', t') ∧
      sends t' = [].
Proof.
  unfold shutdown, SteamAPI_Shutdown, lift.
  unfold mbind, Api_bind. rewrite close_all_sessions_run.
  eexists _, _. split; [done|]. split; [done|].
  assert (Hsplit : ∀ l : list Event,
    EvRegistry <$> ([EvLock] ++ l ++ [EvUnlock])
    = [EvRegistry EvLock] ++ (EvRegistry <$> l) ++ [EvRegistry EvUnlock])
    by (intros l; by rewrite !fmap_app).
  rewrite Hsplit. split_and!.
  - unfold api_closes. rewrite !flat_map_app. cbn. rewrite ?app_nil_r.
    destruct (m_pMessagesInterface m); [apply api_closes_lift_closes|done].
  - unfold api_bridge_calls. rewrite !flat_map_app. cbn. rewrite ?app_nil_r.
    destruct (m_pMessagesInterface m); [apply api_others_lift_closes|done].
  - unfold api_accepts. rewrite !flat_map_app. cbn. rewrite ?app_nil_r.
    destruct (m_pMessagesInterface m); [apply api_others_lift_closes|done].
  - by rewrite last_snoc.
  - intros data flags. rewrite broadcastMessage_run. cbn.
    destruct (m_pMessagesInterface m); eexists; (split; [done|]); [|done].
    unfold in_order. by rewrite elements_empty.
Qed.

End Lifecycle.

Section StatusQueries.
Import SteamNetworkingManager.
#[local] Set Default Proof Using "Type".

Variable GetSessionConnectionInfo : N → SessionInfo.

(** X9.  For one answer of the transport about a peer's session, the three
    status queries agree with one another and do not look at the registry:
    a peer is reported connected exactly when its connection
    type is not "N/A"; a ping other than -1 is only reported for a
    connected peer, and for a connected peer the ping is the transport's;
    the type is the relayed one exactly when the peer is connected and the
    relayed flag is set; without a messages interface the answers are -1,
    false and "N/A"; and the registry's contents make no difference. *)
Theorem status_queries_agree (p : N) (m : Manager) :
  let info := GetSessionConnectionInfo p in
  (isPeerConnected GetSessionConnectionInfo p m = true
   ↔ getPeerConnectionType GetSessionConnectionInfo p m ≠ "N/A") ∧
  (getPeerPing GetSessionConnectionInfo p m ≠ -1 →
   isPeerConnected GetSessionConnectionInfo p m = true) ∧
  (isPeerConnected GetSessionConnectionInfo p m = true →
   getPeerPing GetSessionConnectionInfo p m = m_nPing info) ∧
  (getPeerConnectionType GetSessionConnectionInfo p m = "中继"
   ↔ isPeerConnected GetSessionConnectionInfo p m = true ∧
     Z.testbit (m_nFlags info) 4 = true) ∧
  (m_pMessagesInterface m = false →
   getPeerPing GetSessionConnectionInfo p m = -1 ∧
   isPeerConnected GetSessionConnectionInfo p m = false ∧
   getPeerConnectionType GetSessionConnectionInfo p m = "N/A") ∧
  (∀ ps,
     getPeerPing GetSessionConnectionInfo p (set_peers ps m)
       = getPeerPing GetSessionConnectionInfo p m ∧
     isPeerConnected GetSessionConnectionInfo p (set_peers ps m)
       = isPeerConnected GetSessionConnectionInfo p m ∧
     getPeerConnectionType GetSessionConnectionInfo p (set_peers ps m)
       = getPeerConnectionType GetSessionConnectionInfo p m).
Proof.
  intros info.
  assert (Hbit : ∀ flags,
    (Z.land flags k_nSteamNetworkConnectionInfoFlags_Relayed =? 0) = false
    ↔ Z.testbit flags 4 = true).
  { intros flags. change k_nSteamNetworkConnectionInfoFlags_Relayed
      with (2 ^ 4).
    rewrite Z.eqb_neq. split.
    - intros Hne. destruct (Z.testbit flags 4) eqn:Hb; [done|].
      exfalso. apply Hne. apply Z.bits_inj'. intros n Hn.
      rewrite Z.land_spec, Z.pow2_bits_eqb, Z.bits_0 by lia.
      destruct (Z.eqb_spec 4 n) as [<-|]; [by rewrite Hb|].
      by rewrite andb_false_r.
    - intros Hb Hzero.
      assert (Z.testbit (Z.land flags (2 ^ 4)) 4 = true)
        by (rewrite Z.land_spec, Hb; done).
      rewrite Hzero in H. by rewrite Z.bits_0 in H. }
  unfold getPeerPing, isPeerConnected, getPeerConnectionType. fold info.
  cbn [m_pMessagesInterface set_peers].
  destruct (m_pMessagesInterface m); cbn [negb].
  - destruct (connection_state info
              =? k_ESteamNetworkingConnectionState_Connected) eqn:Hstate.
    + destruct (Z.land (m_nFlags info)
                  k_nSteamNetworkConnectionInfoFlags_Relayed =? 0) eqn:Hrel;
        cbn [negb]; split_and!; try done.
      * split; [discriminate|]. intros [_ Hb]. apply Hbit in Hb. congruence.
      * split; [|done]. intros _. split; [done|]. by apply Hbit.
    + split_and!; try done. split; [discriminate|]. by intros [? _].
  - split_and!; try done. split; [discriminate|]. by intros [? _].
Qed.

End StatusQueries.

(** ** More about the TUN adapters *)

Section TunMore.
Import Posix.
#[local] Set Default Proof Using "Type".

Variable strerror : Z → string.
Variable inet_pton : string → option Z.
Variable system : list string → string → Z.
Variable stoi : string → option Z.

(** *** Bits *)

Lemma land_pow2_eqb_0 (x n : Z) :
  0 <= n → (Z.land x (2 ^ n) =? 0) = negb (Z.testbit x n).
Proof.
  intros Hn. destruct (Z.testbit x n) eqn:Hb; cbn [negb].
  - apply Z.eqb_neq. intros Hzero.
    assert (Z.testbit (Z.land x (2 ^ n)) n = true)
      by (rewrite Z.land_spec, Hb, Z.pow2_bits_true; done).
    rewrite Hzero in H. by rewrite Z.bits_0 in H.
  - apply Z.eqb_eq. apply Z.bits_inj'. intros i Hi.
    rewrite Z.land_spec, Z.pow2_bits_eqb, Z.bits_0 by lia.
    destruct (Z.eqb_spec n i) as [<-|]; [by rewrite Hb|].
    by rewrite andb_false_r.
Qed.

Lemma mask_of_prefix_shiftl (k : Z) :
  0 <= k <= 32 → mask_of_prefix k = Z.shiftl (Z.ones k) (32 - k).
Proof.
  intros Hk. unfold mask_of_prefix.
  rewrite Z.shiftl_mul_pow2, Z.ones_equiv by lia.
  replace (2 ^ 32) with (2 ^ k * 2 ^ (32 - k))
    by (rewrite <- Z.pow_add_r by lia; f_equal; lia).
  lia.
Qed.

Lemma mask_of_prefix_bits (k i : Z) :
  0 <= k <= 32 → 0 <= i →
  Z.testbit (mask_of_prefix k) i = bool_decide (32 - k <= i < 32).
Proof.
  intros Hk Hi. rewrite mask_of_prefix_shiftl by done.
  rewrite Z.shiftl_spec by done.
  destruct (Z.lt_ge_cases i (32 - k)).
  - rewrite Z.testbit_neg_r by lia. by rewrite bool_decide_eq_false_2 by lia.
  - rewrite Z.testbit_ones_nonneg by lia.
    destruct (Z.ltb_spec (i - (32 - k)) k).
    + by rewrite bool_decide_eq_true_2 by lia.
    + by rewrite bool_decide_eq_false_2 by lia.
Qed.

Lemma mask_of_prefix_range (k : Z) :
  0 <= k <= 32 → 0 <= mask_of_prefix k < 2 ^ 32.
Proof.
  intros Hk. unfold mask_of_prefix.
  assert (0 < 2 ^ (32 - k) <= 2 ^ 32).
  { split; [apply Z.pow_pos_nonneg; lia|apply Z.pow_le_mono_r; lia]. }
  lia.
Qed.

(** *** The prefix length of a netmask *)

(** The loop, [j] rounds in: [cur] is the mask shifted left [j] times and
    the [j] top bits of the mask have all been found set. *)
Lemma leading_ones_counts (mask : Z) (fuel : nat) (j cur : Z) :
  0 <= j →
  j + Z.of_nat fuel = 32 →
  cur = (mask * 2 ^ j) mod 2 ^ 32 →
  (∀ i, 32 - j <= i < 32 → Z.testbit mask i = true) →
  let k := leading_ones fuel cur j in
  j <= k <= 32 ∧
  (∀ i, 32 - k <= i < 32 → Z.testbit mask i = true) ∧
  (k < 32 → Z.testbit mask (31 - k) = false).
Proof.
  revert j cur. induction fuel as [|fuel IH]; intros j cur Hj Hsum Hcur Hones.
  - cbn. assert (j = 32) as -> by lia. split_and!; [lia|lia|done|lia].
  - cbn [leading_ones].
    assert (Htop : Z.testbit cur 31 = Z.testbit mask (31 - j)).
    { subst cur. rewrite Z.mod_pow2_bits_low by lia.
      by rewrite Z.mul_pow2_bits by lia. }
    change 2147483648 with (2 ^ 31). rewrite land_pow2_eqb_0 by lia.
    rewrite Htop. destruct (Z.testbit mask (31 - j)) eqn:Hbit; cbn [negb].
    + assert (Hnext : Z.shiftl cur 1 mod 2 ^ 32
                      = (mask * 2 ^ (j + 1)) mod 2 ^ 32).
      { rewrite Z.shiftl_mul_pow2 by lia. subst cur.
        rewrite Z.mul_mod_idemp_l by lia.
        by rewrite <- Z.mul_assoc, <- Z.pow_add_r by lia. }
      destruct (IH (j + 1) (Z.shiftl cur 1 mod 2 ^ 32)) as (Hk & Hi & Hz);
        [lia|lia|done| |].
      * intros i Hi. destruct (decide (i = 31 - j)) as [->|]; [done|].
        apply Hones. lia.
      * split_and!; [lia|lia|done|done].
    + split_and!; [lia|lia|done|done].
Qed.

Lemma leading_ones_of_mask (mask : Z) :
  let k := leading_ones 32 (mask mod 2 ^ 32) 0 in
  0 <= k <= 32 ∧
  (∀ i, 32 - k <= i < 32 → Z.testbit mask i = true) ∧
  (k < 32 → Z.testbit mask (31 - k) = false).
Proof.
  apply (leading_ones_counts mask 32 0); [lia|lia| |intros; lia].
  by rewrite Z.mul_1_r.
Qed.

(** X10.  For a netmask that parses, both variants of
    [netmaskToPrefixLength] return the number of leading one bits of the
    32-bit mask: a number between 0 and 32 such that that many top bits
    are all set and, below 32, the next bit is clear.  Bits further down
    are not looked at, so a mask with holes counts as its leading run. *)
Theorem netmask_prefix_counts_leading_ones (netmask : string) (mask : Z) :
  inet_pton netmask = Some mask →
  0 <= mask < 2 ^ 32 →
  let k := TunLinux.netmaskToPrefixLength inet_pton netmask in
  TunMacOS.netmaskToPrefixLength inet_pton netmask = k ∧
  0 <= k <= 32 ∧
  (∀ i, 32 - k <= i < 32 → Z.testbit mask i = true) ∧
  (k < 32 → Z.testbit mask (31 - k) = false).
Proof.
  intros Hparse Hrange.
  unfold TunLinux.netmaskToPrefixLength, TunMacOS.netmaskToPrefixLength.
  rewrite Hparse. split; [done|].
  pose proof (leading_ones_of_mask mask) as H.
  by rewrite Z.mod_small in H by done.
Qed.

(** X11.  Prefix to netmask and back: for every prefix length [k] from 0 to
    32, if the netmask string parses to the mask with [k] leading ones,
    both variants of [netmaskToPrefixLength] return [k]. *)
Theorem netmask_prefix_round_trip (netmask : string) (k : Z) :
  0 <= k <= 32 →
  inet_pton netmask = Some (mask_of_prefix k) →
  TunLinux.netmaskToPrefixLength inet_pton netmask = k ∧
  TunMacOS.netmaskToPrefixLength inet_pton netmask = k.
Proof.
  intros Hk Hparse.
  unfold TunLinux.netmaskToPrefixLength, TunMacOS.netmaskToPrefixLength.
  rewrite Hparse.
  pose proof (leading_ones_of_mask (mask_of_prefix k)) as H.
  rewrite Z.mod_small in H by (by apply mask_of_prefix_range).
  cbn zeta in H. destruct H as (Hr & Hones & Hzero).
  set (r := leading_ones 32 (mask_of_prefix k) 0) in *.
  assert (r = k); [|done].
  destruct (Z.lt_trichotomy r k) as [Hlt|[->|Hgt]]; [|done|].
  - specialize (Hzero ltac:(lia)).
    rewrite mask_of_prefix_bits in Hzero by lia.
    by rewrite bool_decide_eq_true_2 in Hzero by lia.
  - specialize (Hones (32 - r) ltac:(lia)).
    rewrite mask_of_prefix_bits in Hones by lia.
    by rewrite bool_decide_eq_false_2 in Hones by lia.
Qed.

(** *** The point-to-point peer address of the macOS adapter *)

Lemma shifted_mask (prefixLength : Z) :
  0 <= prefixLength <= 32 →
  Z.shiftl 4294967295 (32 - prefixLength) mod 2 ^ 32
  = mask_of_prefix prefixLength.
Proof.
  intros Hp. rewrite Z.shiftl_mul_pow2 by lia. unfold mask_of_prefix.
  assert (0 < 2 ^ (32 - prefixLength) <= 2 ^ 32).
  { split; [apply Z.pow_pos_nonneg; lia|apply Z.pow_le_mono_r; lia]. }
  set (P := 2 ^ (32 - prefixLength)) in *.
  replace (4294967295 * P) with ((2 ^ 32 - P) + (P - 1) * 2 ^ 32) by lia.
  rewrite Z_mod_plus_full. apply Z.mod_small. lia.
Qed.

Lemma below_pow2_32 (x : Z) :
  0 <= x → (∀ i, 32 <= i → Z.testbit x i = false) → x < 2 ^ 32.
Proof.
  intros Hx Hhigh. assert (x = x mod 2 ^ 32) as ->.
  { apply Z.bits_inj'. intros i Hi. destruct (Z.lt_ge_cases i 32).
    - by rewrite Z.mod_pow2_bits_low.
    - rewrite Z.mod_pow2_bits_high by lia. by apply Hhigh. }
  apply Z.mod_pos_bound. lia.
Qed.

(** The network part with one of its two lowest bits set. *)
Lemma host_in_network (ipAddr k b : Z) :
  0 <= k <= 30 →
  0 <= b <= 1 →
  let network := Z.land ipAddr (mask_of_prefix k) in
  Z.land (Z.lor network (2 ^ b)) (mask_of_prefix k) = network ∧
  Z.testbit (Z.lor network (2 ^ b)) b = true ∧
  (∀ i, 0 <= i → i ≠ b →
     Z.testbit (Z.lor network (2 ^ b)) i = Z.testbit network i) ∧
  Z.testbit network 0 = false ∧
  Z.testbit network 1 = false ∧
  0 <= Z.lor network (2 ^ b) < 2 ^ 32.
Proof.
  intros Hk Hb network.
  assert (Hnet : ∀ i, 0 <= i →
    Z.testbit network i
    = Z.testbit ipAddr i && bool_decide (32 - k <= i < 32)).
  { intros i Hi. unfold network.
    by rewrite Z.land_spec, mask_of_prefix_bits by lia. }
  assert (Hlow : ∀ i, 0 <= i <= 1 → Z.testbit network i = false).
  { intros i Hi. rewrite Hnet by lia.
    rewrite bool_decide_eq_false_2 by lia. apply andb_false_r. }
  assert (Hset : ∀ i, 0 <= i →
    Z.testbit (Z.lor network (2 ^ b)) i
    = Z.testbit network i || bool_decide (b = i)).
  { intros i Hi. rewrite Z.lor_spec, Z.pow2_bits_eqb by lia.
    f_equal. destruct (Z.eqb_spec b i);
      by rewrite ?bool_decide_eq_true_2, ?bool_decide_eq_false_2 by done. }
  assert (Hrange : 0 <= Z.lor network (2 ^ b) < 2 ^ 32).
  { assert (0 <= network).
    { apply Z.land_nonneg. right. apply mask_of_prefix_range. lia. }
    assert (0 <= Z.lor network (2 ^ b))
      by (apply Z.lor_nonneg; split; [done|apply Z.pow_nonneg; lia]).
    split; [done|]. apply below_pow2_32; [done|].
    intros i Hi. rewrite Hset, Hnet by lia.
    rewrite (bool_decide_eq_false_2 (32 - k <= i < 32)) by lia.
    rewrite (bool_decide_eq_false_2 (b = i)) by lia.
    by rewrite andb_false_r. }
  split_and!; [| | | | |apply Hrange|apply Hrange].
  - apply Z.bits_inj'. intros i Hi.
    rewrite Z.land_spec, Hset, mask_of_prefix_bits, Hnet by lia.
    destruct (decide (b = i)) as [<-|Hne].
    + rewrite (bool_decide_eq_false_2 (32 - k <= b < 32)) by lia.
      by rewrite !andb_false_r.
    + rewrite (bool_decide_eq_false_2 (b = i)) by done.
      rewrite orb_false_r. by destruct (Z.testbit ipAddr i), (bool_decide _).
  - rewrite Hset by lia. rewrite bool_decide_eq_true_2 by done.
    apply orb_true_r.
  - intros i Hi Hne. rewrite Hset by lia.
    rewrite bool_decide_eq_false_2 by done. apply orb_false_r.
  - apply Hlow. lia.
  - apply Hlow. lia.
Qed.

(** X12.  The peer address the macOS [set_ip] hands to [ifconfig]: for a
    32-bit local address and a prefix length from 1 to 30, it is a 32-bit
    address different from the local one, in the same network as the local
    one (equal under the mask), and not the network address itself; it is
    the network address with its lowest bit set, or with its second lowest
    bit set when the former is the local address. *)
Theorem peerAddr_is_another_host (ipAddr prefixLength : Z) :
  0 <= ipAddr < 2 ^ 32 →
  1 <= prefixLength <= 30 →
  let mask := mask_of_prefix prefixLength in
  let network := Z.land ipAddr mask in
  let peer := TunMacOS.peerAddr ipAddr prefixLength in
  peer ≠ ipAddr ∧
  Z.land peer mask = network ∧
  peer ≠ network ∧
  0 <= peer < 2 ^ 32 ∧
  peer = (if Z.lor network 1 =? ipAddr then Z.lor network 2
          else Z.lor network 1).
Proof.
  intros Hip Hp mask network peer.
  assert (Hpeer : peer = if Z.lor network 1 =? ipAddr then Z.lor network 2
                         else Z.lor network 1).
  { unfold peer, TunMacOS.peerAddr. by rewrite shifted_mask by lia. }
  destruct (host_in_network ipAddr prefixLength 0)
    as (Hnet0 & Hbit0 & Hother0 & Hlow0 & Hlow1 & Hrange0); [lia|lia|].
  destruct (host_in_network ipAddr prefixLength 1)
    as (Hnet1 & Hbit1 & Hother1 & _ & _ & Hrange1); [lia|lia|].
  change (2 ^ 0) with 1 in *. change (2 ^ 1) with 2 in *.
  fold mask network in Hnet0, Hbit0, Hother0, Hlow0, Hlow1, Hrange0,
    Hnet1, Hbit1, Hother1, Hrange1.
  rewrite Hpeer.
  destruct (Z.eqb_spec (Z.lor network 1) ipAddr) as [Heq|Hne].
  - split_and!; try done; try apply Hrange1.
    + intros Hsame. rewrite <- Heq in Hsame.
      assert (Z.testbit (Z.lor network 2) 0 = Z.testbit (Z.lor network 1) 0)
        by (by rewrite Hsame).
      rewrite Hbit0, Hother1, Hlow0 in H by lia. done.
    + intros Hsame.
      assert (Z.testbit (Z.lor network 2) 1 = Z.testbit network 1)
        by (by rewrite Hsame).
      rewrite Hbit1, Hlow1 in H. done.
  - split_and!; try done; try apply Hrange0.
    intros Hsame.
    assert (Z.testbit (Z.lor network 1) 0 = Z.testbit network 0)
      by (by rewrite Hsame).
    rewrite Hbit0, Hlow0 in H. done.
Qed.

(** *** Configuration calls *)

(** X13.  No configuration call touches the system through a device that
    is not open: when the descriptor is negative or the device has no name,
    [set_ip], [set_mtu] and [set_up] of both variants return false, record
    "TUN device not open", run no command and, in particular, leave the
    stored MTU as it was; and on an open device [set_ip] with an address
    that does not parse returns false, records "Invalid IP address: " and
    the address, and runs no command either. *)
Theorem configuration_needs_an_open_device (ip netmask : string) (mtu : Z)
    (up : bool) (history : list string) :
  (∀ st,
     TunLinux.is_open st = false ∨ TunLinux.deviceName_ st = EmptyString →
     let refused :=
       (false, TunLinux.setError "TUN device not open" st, history) in
     TunLinux.set_ip inet_pton system st ip netmask history = refused ∧
     TunLinux.set_mtu system st mtu history = refused ∧
     TunLinux.set_up system st up history = refused ∧
     TunLinux.mtu_ (TunLinux.setError "TUN device not open" st)
       = TunLinux.mtu_ st) ∧
  (∀ st,
     TunMacOS.is_open st = false ∨ TunMacOS.deviceName_ st = EmptyString →
     let refused :=
       (false, TunMacOS.setError "TUN device not open" st, history) in
     TunMacOS.set_ip inet_pton system st ip netmask history = refused ∧
     TunMacOS.set_mtu system st mtu history = refused ∧
     TunMacOS.set_up system st up history = refused ∧
     TunMacOS.mtu_ (TunMacOS.setError "TUN device not open" st)
       = TunMacOS.mtu_ st) ∧
  (inet_pton ip = None →
   (∀ st,
      TunLinux.is_open st = true →
      TunLinux.deviceName_ st ≠ EmptyString →
      TunLinux.set_ip inet_pton system st ip netmask history
      = (false, TunLinux.setError ("Invalid IP address: " +:+ ip) st,
         history)) ∧
   (∀ st,
      TunMacOS.is_open st = true →
      TunMacOS.deviceName_ st ≠ EmptyString →
      TunMacOS.set_ip inet_pton system st ip netmask history
      = (false, TunMacOS.setError ("Invalid IP address: " +:+ ip) st,
         history))).
Proof.
  split_and!.
  - intros st Hclosed refused.
    assert ((TunLinux.fd_ st <? 0)
            || bool_decide (TunLinux.deviceName_ st = EmptyString) = true)
      as Hguard.
    { destruct Hclosed as [Hfd|Hname].
      - unfold TunLinux.is_open in Hfd. apply Z.leb_gt in Hfd.
        by destruct (Z.ltb_spec (TunLinux.fd_ st) 0); [|lia].
      - rewrite bool_decide_eq_true_2 by done. apply orb_true_r. }
    unfold TunLinux.set_ip, TunLinux.set_mtu, TunLinux.set_up.
    by rewrite Hguard.
  - intros st Hclosed refused.
    assert ((TunMacOS.fd_ st <? 0)
            || bool_decide (TunMacOS.deviceName_ st = EmptyString) = true)
      as Hguard.
    { destruct Hclosed as [Hfd|Hname].
      - unfold TunMacOS.is_open in Hfd. apply Z.leb_gt in Hfd.
        by destruct (Z.ltb_spec (TunMacOS.fd_ st) 0); [|lia].
      - rewrite bool_decide_eq_true_2 by done. apply orb_true_r. }
    unfold TunMacOS.set_ip, TunMacOS.set_mtu, TunMacOS.set_up.
    by rewrite Hguard.
  - intros Hbad. split.
    + intros st Hopen Hname. unfold TunLinux.set_ip.
      unfold TunLinux.is_open in Hopen. apply Z.leb_le in Hopen.
      destruct (Z.ltb_spec (TunLinux.fd_ st) 0); [lia|].
      rewrite bool_decide_eq_false_2 by done. by rewrite Hbad.
    + intros st Hopen Hname. unfold TunMacOS.set_ip.
      unfold TunMacOS.is_open in Hopen. apply Z.leb_le in Hopen.
      destruct (Z.ltb_spec (TunMacOS.fd_ st) 0); [lia|].
      rewrite bool_decide_eq_false_2 by done. by rewrite Hbad.
Qed.

(** X14.  [set_mtu] stores the new MTU before it runs its command: on an
    open, named device of either variant it runs exactly one command
    ([ip link set dev <name> mtu <n>], respectively
    [ifconfig <name> mtu <n>]), returns whether that command exited with
    0, and in both cases the adapter's [mtu_] is the new value; a failure
    is recorded as "Failed to set MTU", a success leaves the last error as
    it was. *)
Theorem set_mtu_stores_before_running (mtu : Z) (history : list string) :
  (∀ st,
     TunLinux.is_open st = true →
     TunLinux.deviceName_ st ≠ EmptyString →
     let cmd := "ip link set dev " +:+ TunLinux.deviceName_ st +:+ " mtu " +:+
                decimal mtu in
     ∃ st',
       TunLinux.set_mtu system st mtu history
         = (system history cmd =? 0, st', history ++ [cmd]) ∧
       TunLinux.mtu_ st' = mtu ∧
       TunLinux.fd_ st' = TunLinux.fd_ st ∧
       TunLinux.deviceName_ st' = TunLinux.deviceName_ st ∧
       TunLinux.lastError_ st'
         = (if system history cmd =? 0 then TunLinux.lastError_ st
            else "Failed to set MTU")) ∧
  (∀ st,
     TunMacOS.is_open st = true →
     TunMacOS.deviceName_ st ≠ EmptyString →
     let cmd := "ifconfig " +:+ TunMacOS.deviceName_ st +:+ " mtu " +:+
                decimal mtu in
     ∃ st',
       TunMacOS.set_mtu system st mtu history
         = (system history cmd =? 0, st', history ++ [cmd]) ∧
       TunMacOS.mtu_ st' = mtu ∧
       TunMacOS.fd_ st' = TunMacOS.fd_ st ∧
       TunMacOS.deviceName_ st' = TunMacOS.deviceName_ st ∧
       TunMacOS.lastError_ st'
         = (if system history cmd =? 0 then TunMacOS.lastError_ st
            else "Failed to set MTU")).
Proof.
  split.
  - intros st Hopen Hname cmd. unfold TunLinux.set_mtu.
    unfold TunLinux.is_open in Hopen. apply Z.leb_le in Hopen.
    destruct (Z.ltb_spec (TunLinux.fd_ st) 0); [lia|].
    rewrite bool_decide_eq_false_2 by done. cbn [orb].
    unfold TunLinux.runCommand. cbn [TunLinux.deviceName_ TunLinux.set_mtu_field].
    fold cmd. destruct (system history cmd =? 0); cbn [negb]; by eexists.
  - intros st Hopen Hname cmd. unfold TunMacOS.set_mtu.
    unfold TunMacOS.is_open in Hopen. apply Z.leb_le in Hopen.
    destruct (Z.ltb_spec (TunMacOS.fd_ st) 0); [lia|].
    rewrite bool_decide_eq_false_2 by done. cbn [orb].
    unfold TunMacOS.runCommand. cbn [TunMacOS.deviceName_ TunMacOS.set_mtu_field].
    fold cmd. destruct (system history cmd =? 0); cbn [negb]; by eexists.
Qed.

(** X15.  The Linux [set_ip] retries once: on an open, named device with an
    address that parses, it runs [ip addr add <ip>/<prefix> dev <name>];
    if that exits with 0 it returns true having run nothing else; if not,
    it runs [ip addr flush dev <name>] and the same [ip addr add] again
    and returns whether this second attempt exited with 0.  A true result
    leaves the adapter exactly as it was; a false one records "Failed to
    set IP address". *)
Theorem linux_set_ip_retries_once (st : TunLinux.State) (ip netmask : string)
    (ipAddr : Z) (history : list string) :
  TunLinux.is_open st = true →
  TunLinux.deviceName_ st ≠ EmptyString →
  inet_pton ip = Some ipAddr →
  let cmd := "ip addr add " +:+ ip +:+ "/" +:+
             decimal (TunLinux.netmaskToPrefixLength inet_pton netmask) +:+
             " dev " +:+ TunLinux.deviceName_ st in
  let delCmd := "ip addr flush dev " +:+ TunLinux.deviceName_ st in
  (system history cmd = 0 →
   TunLinux.set_ip inet_pton system st ip netmask history
   = (true, st, history ++ [cmd])) ∧
  (system history cmd ≠ 0 →
   system (history ++ [cmd; delCmd]) cmd = 0 →
   TunLinux.set_ip inet_pton system st ip netmask history
   = (true, st, history ++ [cmd; delCmd; cmd])) ∧
  (system history cmd ≠ 0 →
   system (history ++ [cmd; delCmd]) cmd ≠ 0 →
   TunLinux.set_ip inet_pton system st ip netmask history
   = (false, TunLinux.setError "Failed to set IP address" st,
      history ++ [cmd; delCmd; cmd])).
Proof.
  intros Hopen Hname Hip cmd delCmd.
  assert (Hrun : TunLinux.set_ip inet_pton system st ip netmask history =
    if system history cmd =? 0
    then (true, st, history ++ [cmd])
    else if system (history ++ [cmd; delCmd]) cmd =? 0
    then (true, st, history ++ [cmd; delCmd; cmd])
    else (false, TunLinux.setError "Failed to set IP address" st,
          history ++ [cmd; delCmd; cmd])).
  { unfold TunLinux.set_ip.
    unfold TunLinux.is_open in Hopen. apply Z.leb_le in Hopen.
    destruct (Z.ltb_spec (TunLinux.fd_ st) 0); [lia|].
    rewrite bool_decide_eq_false_2 by done. cbn [orb].
    rewrite Hip. unfold TunLinux.runCommand. fold cmd delCmd.
    destruct (system history cmd =? 0); cbn [negb]; [done|].
    rewrite <- !(assoc_L (++)). cbn [app].
    by destruct (system (history ++ [cmd; delCmd]) cmd =? 0). }
  rewrite Hrun. split_and!.
  - intros ->. done.
  - intros Hfirst ->. by destruct (Z.eqb_spec (system history cmd) 0).
  - intros Hfirst Hsecond.
    destruct (Z.eqb_spec (system history cmd) 0); [done|].
    by destruct (Z.eqb_spec (system (history ++ [cmd; delCmd]) cmd) 0).
Qed.

(** *** Writing *)

Lemma linux_open_fd (st : TunLinux.State) :
  TunLinux.is_open st = true → (TunLinux.fd_ st <? 0) = false.
Proof.
  unfold TunLinux.is_open. intros Hopen%Z.leb_le. by apply Z.ltb_ge.
Qed.

Lemma linux_closed_fd (st : TunLinux.State) :
  TunLinux.is_open st = false → (TunLinux.fd_ st <? 0) = true.
Proof.
  unfold TunLinux.is_open. intros Hopen%Z.leb_gt. by apply Z.ltb_lt.
Qed.

Lemma macos_open_fd (st : TunMacOS.State) :
  TunMacOS.is_open st = true → (TunMacOS.fd_ st <? 0) = false.
Proof.
  unfold TunMacOS.is_open. intros Hopen%Z.leb_le. by apply Z.ltb_ge.
Qed.

Lemma macos_closed_fd (st : TunMacOS.State) :
  TunMacOS.is_open st = false → (TunMacOS.fd_ st <? 0) = true.
Proof.
  unfold TunMacOS.is_open. intros Hopen%Z.leb_gt. by apply Z.ltb_lt.
Qed.

Lemma macos_frame_fits (buffer : list byte) :
  Z.of_nat (length buffer) + 4 <= 65536 →
  (size_add (Z.of_nat (length buffer)) 4 >? TunMacOS.STAGING_SIZE) = false.
Proof.
  intros Hfit. unfold size_add, TunMacOS.STAGING_SIZE.
  rewrite Z.mod_small by lia.
  destruct (Z.gtb_spec (Z.of_nat (length buffer) + 4) 65536); [lia|done].
Qed.

(** X16.  What [write] returns, in both variants.  A device that is not
    open returns -1 and hands nothing to the kernel.  On an open device the
    kernel is handed the packet (Linux) or the packet behind its four
    family bytes (macOS, for a packet that fits the staging buffer); when
    the kernel refuses with EAGAIN the result is 0 and the adapter is
    unchanged; on any other error it is -1 and the error text is "write
    failed: " with the error's description and number; and when the kernel
    takes [n] bytes the result is the number of bytes of the caller's
    packet among them: [n] on Linux, [n - 4] on macOS, and 0 when not even
    the four family bytes were exceeded. *)
Theorem write_return_contract (buffer : list byte)
    (kernel_write : list byte → WriteAnswer) :
  (∀ st,
     (TunLinux.is_open st = false →
      TunLinux.write strerror st buffer kernel_write = (-1, st, None)) ∧
     (∀ errno,
        TunLinux.is_open st = true →
        kernel_write buffer = WriteErrno errno →
        TunLinux.write strerror st buffer kernel_write
        = if bool_decide (errno = TunLinux.EAGAIN)
          then (0, st, Some buffer)
          else (-1,
                TunLinux.setError
                  ("write failed: " +:+ strerror errno +:+
                   " (errno " +:+ decimal errno +:+ ")") st,
                Some buffer)) ∧
     (∀ n,
        TunLinux.is_open st = true →
        kernel_write buffer = WriteCount n →
        0 <= n <= INT_MAX →
        TunLinux.write strerror st buffer kernel_write
        = (n, st, Some buffer))) ∧
  (∀ st,
     let frame := htonl_bytes (TunMacOS.family buffer) ++ buffer in
     (TunMacOS.is_open st = false →
      TunMacOS.write strerror st buffer kernel_write = (-1, st, None)) ∧
     (∀ errno,
        TunMacOS.is_open st = true →
        Z.of_nat (length buffer) + 4 <= 65536 →
        kernel_write frame = WriteErrno errno →
        TunMacOS.write strerror st buffer kernel_write
        = if bool_decide (errno = TunMacOS.EAGAIN)
          then (0, st, Some frame)
          else (-1,
                TunMacOS.setError
                  ("write failed: " +:+ strerror errno +:+
                   " (errno " +:+ decimal errno +:+ ")") st,
                Some frame)) ∧
     (∀ n,
        TunMacOS.is_open st = true →
        Z.of_nat (length buffer) + 4 <= 65536 →
        kernel_write frame = WriteCount n →
        0 <= n <= Z.of_nat (length frame) →
        TunMacOS.write strerror st buffer kernel_write
        = (Z.max 0 (n - 4), st, Some frame))).
Proof.
  split.
  - intros st. split_and!.
    + intros Hclosed. unfold TunLinux.write.
      by rewrite linux_closed_fd.
    + intros errno Hopen Hanswer. unfold TunLinux.write.
      rewrite linux_open_fd, Hanswer by done.
      unfold TunLinux.EWOULDBLOCK, TunLinux.EAGAIN.
      case_bool_decide as Herrno.
      * by rewrite Herrno.
      * by destruct (Z.eqb_spec errno 11).
    + intros n Hopen Hanswer Hn. unfold TunLinux.write.
      rewrite linux_open_fd, Hanswer by done.
      rewrite to_int_small; [done|]. unfold INT_MAX in *. lia.
  - intros st frame. split_and!.
    + intros Hclosed. unfold TunMacOS.write.
      by rewrite macos_closed_fd.
    + intros errno Hopen Hfit Hanswer. unfold TunMacOS.write.
      rewrite macos_open_fd, macos_frame_fits by done.
      fold frame. rewrite Hanswer.
      unfold TunMacOS.EWOULDBLOCK, TunMacOS.EAGAIN.
      case_bool_decide as Herrno.
      * by rewrite Herrno.
      * by destruct (Z.eqb_spec errno 35).
    + intros n Hopen Hfit Hanswer Hn. unfold TunMacOS.write.
      rewrite macos_open_fd, macos_frame_fits by done.
      fold frame. rewrite Hanswer.
      assert (Z.of_nat (length frame) = Z.of_nat (length buffer) + 4)
        as Hframe.
      { unfold frame, htonl_bytes. rewrite length_app. cbn [length]. lia. }
      destruct (Z.leb_spec n 4).
      * by rewrite Z.max_l by lia.
      * rewrite Z.max_r by lia.
        rewrite to_int_small; [done|]. unfold INT_MAX. lia.
Qed.

(** X17.  What one adapter writes, an adapter of the same variant reads
    back.  For a non-empty packet that the variant can carry, written
    through an open device to a kernel that takes every byte, [write]
    returns the packet's length; and when the bytes it handed to the
    kernel arrive as one datagram at a [read] whose buffer has room for
    the packet, [read] returns the same length with the packet at the
    start of the caller's buffer and the rest of the buffer untouched.  On
    macOS the four family bytes that [write] put in front are the four
    bytes that [read] drops. *)
Theorem write_then_read_round_trip (packet buffer : list byte) :
  (0 < length packet)%nat →
  (length packet <= length buffer)%nat →
  Z.of_nat (length buffer) + 4 <= SIZE_MAX →
  (Z.of_nat (length packet) <= INT_MAX →
   ∀ st st2,
     TunLinux.is_open st = true →
     TunLinux.is_open st2 = true →
     ∃ frame,
       TunLinux.write strerror st packet accepting
         = (Z.of_nat (length packet), st, Some frame) ∧
       TunLinux.read strerror st2 buffer (datagram frame)
         = (Z.of_nat (length packet),
            packet ++ drop (length packet) buffer, st2)) ∧
  (Z.of_nat (length packet) + 4 <= 65536 →
   ∀ st st2,
     TunMacOS.is_open st = true →
     TunMacOS.is_open st2 = true →
     ∃ frame,
       TunMacOS.write strerror st packet accepting
         = (Z.of_nat (length packet), st, Some frame) ∧
       TunMacOS.read strerror st2 buffer (datagram frame)
         = (Z.of_nat (length packet),
            packet ++ drop (length packet) buffer, st2)).
Proof.
  intros Hpacket Hroom Hsize. split.
  - intros Hint st st2 Hopen Hopen2. exists packet. split.
    + unfold TunLinux.write, accepting.
      rewrite linux_open_fd by done.
      rewrite to_int_small; [done|]. unfold INT_MAX in *. lia.
    + unfold TunLinux.read, datagram.
      rewrite linux_open_fd by done.
      rewrite Nat2Z.id, take_ge by done.
      rewrite memcpy_all, to_int_small; [done|]. unfold INT_MAX in *. lia.
  - intros Hfit st st2 Hopen Hopen2.
    set (frame := htonl_bytes (TunMacOS.family packet) ++ packet).
    assert (length frame = (4 + length packet)%nat) as Hframe.
    { unfold frame, htonl_bytes. by rewrite length_app. }
    exists frame. split.
    + unfold TunMacOS.write, accepting.
      rewrite macos_open_fd, macos_frame_fits by done.
      fold frame. rewrite Hframe.
      destruct (Z.leb_spec (Z.of_nat (4 + length packet)) 4); [lia|].
      rewrite to_int_small by (unfold INT_MAX; lia).
      f_equal. f_equal. lia.
    + pose proof (readSize_bounds (Z.of_nat (length buffer))) as Hread.
      assert (Z.of_nat (length frame)
              <= TunMacOS.readSize (Z.of_nat (length buffer))) as Hasked.
      { unfold TunMacOS.readSize, size_add, TunMacOS.STAGING_SIZE.
        unfold SIZE_MAX in Hsize. rewrite Z.mod_small by lia.
        destruct (Z.gtb_spec (Z.of_nat (length buffer) + 4) 65536); lia. }
      rewrite (macos_read_delivers strerror st2 buffer frame); [| done | | lia].
      * assert (Z.to_nat (Z.min (Z.of_nat (length frame) - 4)
                                (Z.of_nat (length buffer)))
                = length packet) as -> by lia.
        unfold frame, htonl_bytes. cbn [app drop].
        by rewrite firstn_all.
      * unfold datagram. by rewrite take_ge by lia.
Qed.

(** *** Closing *)

(** X18.  [close] releases the device, in both variants: afterwards the
    adapter is not open and has no name (and, on macOS, no unit number),
    the kernel was asked to close the descriptor exactly when there was
    one, and the MTU and the last error are kept.  A second [close] does
    nothing and makes no system call, and every later [read], [write],
    [set_non_blocking], [set_ip], [set_mtu] and [set_up] fails without a
    system call or command. *)
Theorem close_releases_the_device :
  (∀ st st' calls,
     TunLinux.close st = (st', calls) →
     TunLinux.is_open st' = false ∧
     TunLinux.get_device_name st' = EmptyString ∧
     calls = (if TunLinux.is_open st then [SysClose (TunLinux.fd_ st)]
              else []) ∧
     TunLinux.mtu_ st' = TunLinux.mtu_ st ∧
     TunLinux.get_last_error st' = TunLinux.get_last_error st ∧
     TunLinux.close st' = (st', []) ∧
     (∀ buffer kernel_read,
        TunLinux.read strerror st' buffer kernel_read = (-1, buffer, st')) ∧
     (∀ buffer kernel_write,
        TunLinux.write strerror st' buffer kernel_write = (-1, st', None)) ∧
     (∀ nonBlocking kernel,
        TunLinux.set_non_blocking strerror st' nonBlocking kernel
        = (false, TunLinux.setError "TUN device not open" st', [])) ∧
     (∀ ip netmask mtu up history,
        TunLinux.set_ip inet_pton system st' ip netmask history
        = (false, TunLinux.setError "TUN device not open" st', history) ∧
        TunLinux.set_mtu system st' mtu history
        = (false, TunLinux.setError "TUN device not open" st', history) ∧
        TunLinux.set_up system st' up history
        = (false, TunLinux.setError "TUN device not open" st', history))) ∧
  (∀ st st' calls,
     TunMacOS.close st = (st', calls) →
     TunMacOS.is_open st' = false ∧
     TunMacOS.get_device_name st' = EmptyString ∧
     TunMacOS.utunNumber_ st' = -1 ∧
     calls = (if TunMacOS.is_open st then [SysClose (TunMacOS.fd_ st)]
              else []) ∧
     TunMacOS.mtu_ st' = TunMacOS.mtu_ st ∧
     TunMacOS.get_last_error st' = TunMacOS.get_last_error st ∧
     TunMacOS.close st' = (st', []) ∧
     (∀ buffer kernel_read,
        TunMacOS.read strerror st' buffer kernel_read = (-1, buffer, st')) ∧
     (∀ buffer kernel_write,
        TunMacOS.write strerror st' buffer kernel_write = (-1, st', None)) ∧
     (∀ nonBlocking kernel,
        TunMacOS.set_non_blocking strerror st' nonBlocking kernel
        = (false, TunMacOS.setError "TUN device not open" st', [])) ∧
     (∀ ip netmask mtu up history,
        TunMacOS.set_ip inet_pton system st' ip netmask history
        = (false, TunMacOS.setError "TUN device not open" st', history) ∧
        TunMacOS.set_mtu system st' mtu history
        = (false, TunMacOS.setError "TUN device not open" st', history) ∧
        TunMacOS.set_up system st' up history
        = (false, TunMacOS.setError "TUN device not open" st', history))).
Proof.
  split.
  - intros st st' calls Hclose.
    assert (TunLinux.is_open st' = false ∧
            TunLinux.deviceName_ st' = EmptyString ∧
            calls = (if TunLinux.is_open st then [SysClose (TunLinux.fd_ st)]
                     else []) ∧
            TunLinux.mtu_ st' = TunLinux.mtu_ st ∧
            TunLinux.lastError_ st' = TunLinux.lastError_ st)
      as (Hclosed & Hname & Hcalls & Hmtu & Herror).
    { unfold TunLinux.close, TunLinux.is_open in *.
      destruct (Z.leb_spec 0 (TunLinux.fd_ st)) as [Hfd|Hfd];
        simplify_eq; cbn; split_and!; try done.
      by apply Z.leb_gt. }
    pose proof (linux_closed_fd st' Hclosed) as Hfd.
    split_and!; try done.
    + unfold TunLinux.close. unfold TunLinux.is_open in Hclosed.
      rewrite Hclosed. f_equal. destruct st'. cbn in *. by subst.
    + intros buffer kernel_read. unfold TunLinux.read. by rewrite Hfd.
    + intros buffer kernel_write. unfold TunLinux.write. by rewrite Hfd.
    + intros nonBlocking kernel. unfold TunLinux.set_non_blocking.
      by rewrite Hfd.
    + intros ip netmask mtu up history.
      unfold TunLinux.set_ip, TunLinux.set_mtu, TunLinux.set_up.
      by rewrite Hfd.
  - intros st st' calls Hclose.
    assert (TunMacOS.is_open st' = false ∧
            TunMacOS.deviceName_ st' = EmptyString ∧
            TunMacOS.utunNumber_ st' = -1 ∧
            calls = (if TunMacOS.is_open st then [SysClose (TunMacOS.fd_ st)]
                     else []) ∧
            TunMacOS.mtu_ st' = TunMacOS.mtu_ st ∧
            TunMacOS.lastError_ st' = TunMacOS.lastError_ st)
      as (Hclosed & Hname & Hunit & Hcalls & Hmtu & Herror).
    { unfold TunMacOS.close, TunMacOS.is_open in *.
      destruct (Z.leb_spec 0 (TunMacOS.fd_ st)) as [Hfd|Hfd];
        simplify_eq; cbn; split_and!; try done.
      by apply Z.leb_gt. }
    pose proof (macos_closed_fd st' Hclosed) as Hfd.
    split_and!; try done.
    + unfold TunMacOS.close. unfold TunMacOS.is_open in Hclosed.
      rewrite Hclosed. f_equal. destruct st'. cbn in *. by subst.
    + intros buffer kernel_read. unfold TunMacOS.read. by rewrite Hfd.
    + intros buffer kernel_write. unfold TunMacOS.write. by rewrite Hfd.
    + intros nonBlocking kernel. unfold TunMacOS.set_non_blocking.
      by rewrite Hfd.
    + intros ip netmask mtu up history.
      unfold TunMacOS.set_ip, TunMacOS.set_mtu, TunMacOS.set_up.
      by rewrite Hfd.
Qed.

(** *** Blocking mode *)

Lemma lor_one_bit (flags n i : Z) :
  0 <= n →
  Z.testbit (Z.lor flags (2 ^ n)) i
  = if bool_decide (i = n) then true else Z.testbit flags i.
Proof.
  intros Hn. rewrite Z.lor_spec, Z.pow2_bits_eqb by done.
  case_bool_decide as Hi.
  - subst. rewrite Z.eqb_refl. apply orb_true_r.
  - destruct (Z.eqb_spec n i); [by subst|]. apply orb_false_r.
Qed.

Lemma land_lnot_one_bit (flags n i : Z) :
  0 <= n →
  Z.testbit (Z.land flags (Z.lnot (2 ^ n))) i
  = if bool_decide (i = n) then false else Z.testbit flags i.
Proof.
  intros Hn. destruct (Z.lt_ge_cases i 0) as [Hneg|Hpos].
  - rewrite !Z.testbit_neg_r by done. by case_bool_decide.
  - rewrite Z.land_spec, Z.lnot_spec, Z.pow2_bits_eqb by done.
    case_bool_decide as Hi.
    + subst. rewrite Z.eqb_refl. apply andb_false_r.
    + destruct (Z.eqb_spec n i); [by subst|]. apply andb_true_r.
Qed.

(** X19.  [set_non_blocking] changes one flag of the descriptor and no
    other.  On an open device of either variant whose F_GETFL answers
    [flags >= 0], the value passed to F_SETFL has the O_NONBLOCK bit (bit
    11 on Linux, bit 2 on macOS) equal to the argument and every other
    bit as in [flags]; the call returns whether F_SETFL succeeded, and the
    adapter's [nonBlocking_] takes the new value only in that case.  When
    F_GETFL itself fails, nothing is set: the only system call is the
    F_GETFL, the result is false and [nonBlocking_] is as before. *)
Theorem set_non_blocking_changes_one_flag (nonBlocking : bool)
    (kernel : Syscall → SysRet) :
  (∀ st,
     TunLinux.is_open st = true →
     let fd := TunLinux.fd_ st in
     let flags := sys_ret (kernel (SysFcntlGetFl fd)) in
     (flags < 0 →
      ∃ st',
        TunLinux.set_non_blocking strerror st nonBlocking kernel
          = (false, st', [SysFcntlGetFl fd]) ∧
        TunLinux.nonBlocking_ st' = TunLinux.nonBlocking_ st) ∧
     (0 <= flags →
      ∃ st' flags',
        TunLinux.set_non_blocking strerror st nonBlocking kernel
          = (0 <=? sys_ret (kernel (SysFcntlSetFl fd flags')), st',
             [SysFcntlGetFl fd; SysFcntlSetFl fd flags']) ∧
        Z.testbit flags' 11 = nonBlocking ∧
        (∀ i, i ≠ 11 → Z.testbit flags' i = Z.testbit flags i) ∧
        TunLinux.nonBlocking_ st'
          = (if 0 <=? sys_ret (kernel (SysFcntlSetFl fd flags'))
             then nonBlocking else TunLinux.nonBlocking_ st) ∧
        TunLinux.fd_ st' = fd)) ∧
  (∀ st,
     TunMacOS.is_open st = true →
     let fd := TunMacOS.fd_ st in
     let flags := sys_ret (kernel (SysFcntlGetFl fd)) in
     (flags < 0 →
      ∃ st',
        TunMacOS.set_non_blocking strerror st nonBlocking kernel
          = (false, st', [SysFcntlGetFl fd]) ∧
        TunMacOS.nonBlocking_ st' = TunMacOS.nonBlocking_ st) ∧
     (0 <= flags →
      ∃ st' flags',
        TunMacOS.set_non_blocking strerror st nonBlocking kernel
          = (0 <=? sys_ret (kernel (SysFcntlSetFl fd flags')), st',
             [SysFcntlGetFl fd; SysFcntlSetFl fd flags']) ∧
        Z.testbit flags' 2 = nonBlocking ∧
        (∀ i, i ≠ 2 → Z.testbit flags' i = Z.testbit flags i) ∧
        TunMacOS.nonBlocking_ st'
          = (if 0 <=? sys_ret (kernel (SysFcntlSetFl fd flags'))
             then nonBlocking else TunMacOS.nonBlocking_ st) ∧
        TunMacOS.fd_ st' = fd)).
Proof.
  split.
  - intros st Hopen fd flags. split.
    + intros Hflags. eexists. unfold TunLinux.set_non_blocking.
      rewrite linux_open_fd by done. fold fd flags.
      destruct (Z.ltb_spec flags 0); [|lia]. done.
    + intros Hflags.
      set (flags' := if nonBlocking then Z.lor flags (2 ^ 11)
                     else Z.land flags (Z.lnot (2 ^ 11))).
      assert (TunLinux.set_non_blocking strerror st nonBlocking kernel
              = if sys_ret (kernel (SysFcntlSetFl fd flags')) <? 0
                then (false,
                      TunLinux.setErrnoError strerror "fcntl F_SETFL failed"
                        (sys_errno (kernel (SysFcntlSetFl fd flags'))) st,
                      [SysFcntlGetFl fd; SysFcntlSetFl fd flags'])
                else (true, TunLinux.set_nonBlocking nonBlocking st,
                      [SysFcntlGetFl fd; SysFcntlSetFl fd flags'])) as Hrun.
      { unfold TunLinux.set_non_blocking.
        rewrite linux_open_fd by done. fold fd flags.
        destruct (Z.ltb_spec flags 0); [lia|]. done. }
      rewrite Hrun.
      destruct (Z.ltb_spec (sys_ret (kernel (SysFcntlSetFl fd flags'))) 0)
        as [Hset|Hset]; eexists _, flags'.
      * destruct (Z.leb_spec 0 (sys_ret (kernel (SysFcntlSetFl fd flags'))));
          [lia|].
        split_and!; try done.
        -- unfold flags'. destruct nonBlocking.
           ++ by rewrite lor_one_bit.
           ++ by rewrite land_lnot_one_bit.
        -- intros i Hi. unfold flags'. destruct nonBlocking.
           ++ rewrite lor_one_bit by done. by rewrite bool_decide_eq_false_2.
           ++ rewrite land_lnot_one_bit by done.
              by rewrite bool_decide_eq_false_2.
      * destruct (Z.leb_spec 0 (sys_ret (kernel (SysFcntlSetFl fd flags'))));
          [|lia].
        split_and!; try done.
        -- unfold flags'. destruct nonBlocking.
           ++ by rewrite lor_one_bit.
           ++ by rewrite land_lnot_one_bit.
        -- intros i Hi. unfold flags'. destruct nonBlocking.
           ++ rewrite lor_one_bit by done. by rewrite bool_decide_eq_false_2.
           ++ rewrite land_lnot_one_bit by done.
              by rewrite bool_decide_eq_false_2.
  - intros st Hopen fd flags. split.
    + intros Hflags. eexists. unfold TunMacOS.set_non_blocking.
      rewrite macos_open_fd by done. fold fd flags.
      destruct (Z.ltb_spec flags 0); [|lia]. done.
    + intros Hflags.
      set (flags' := if nonBlocking then Z.lor flags (2 ^ 2)
                     else Z.land flags (Z.lnot (2 ^ 2))).
      assert (TunMacOS.set_non_blocking strerror st nonBlocking kernel
              = if sys_ret (kernel (SysFcntlSetFl fd flags')) <? 0
                then (false,
                      TunMacOS.setErrnoError strerror "fcntl F_SETFL failed"
                        (sys_errno (kernel (SysFcntlSetFl fd flags'))) st,
                      [SysFcntlGetFl fd; SysFcntlSetFl fd flags'])
                else (true, TunMacOS.set_nonBlocking nonBlocking st,
                      [SysFcntlGetFl fd; SysFcntlSetFl fd flags'])) as Hrun.
      { unfold TunMacOS.set_non_blocking.
        rewrite macos_open_fd by done. fold fd flags.
        destruct (Z.ltb_spec flags 0); [lia|]. done. }
      rewrite Hrun.
      destruct (Z.ltb_spec (sys_ret (kernel (SysFcntlSetFl fd flags'))) 0)
        as [Hset|Hset]; eexists _, flags'.
      * destruct (Z.leb_spec 0 (sys_ret (kernel (SysFcntlSetFl fd flags'))));
          [lia|].
        split_and!; try done.
        -- unfold flags'. destruct nonBlocking.
           ++ by rewrite lor_one_bit.
           ++ by rewrite land_lnot_one_bit.
        -- intros i Hi. unfold flags'. destruct nonBlocking.
           ++ rewrite lor_one_bit by done. by rewrite bool_decide_eq_false_2.
           ++ rewrite land_lnot_one_bit by done.
              by rewrite bool_decide_eq_false_2.
      * destruct (Z.leb_spec 0 (sys_ret (kernel (SysFcntlSetFl fd flags'))));
          [|lia].
        split_and!; try done.
        -- unfold flags'. destruct nonBlocking.
           ++ by rewrite lor_one_bit.
           ++ by rewrite land_lnot_one_bit.
        -- intros i Hi. unfold flags'. destruct nonBlocking.
           ++ rewrite lor_one_bit by done. by rewrite bool_decide_eq_false_2.
           ++ rewrite land_lnot_one_bit by done.
              by rewrite bool_decide_eq_false_2.
Qed.

(** *** Opening *)

Lemma substring_0_length (n : nat) (s : string) :
  (String.length (String.substring 0 n s) <= n)%nat.
Proof.
  revert n. induction s as [|c s IH]; intros [|n]; cbn; try lia.
  specialize (IH n). lia.
Qed.

Lemma substring_0_all (n : nat) (s : string) :
  (String.length s <= n)%nat → String.substring 0 n s = s.
Proof.
  revert n. induction s as [|c s IH]; intros [|n]; cbn; try done; try lia.
  intros Hlen. f_equal. apply IH. lia.
Qed.

Lemma requested_name_kept (deviceName : string) :
  deviceName ≠ EmptyString →
  c_str deviceName = deviceName →
  (String.length deviceName <= 15)%nat →
  TunLinux.requested_name deviceName = deviceName.
Proof.
  intros Hname Hc Hlen. unfold TunLinux.requested_name, TunLinux.IFNAMSIZ.
  rewrite bool_decide_eq_false_2 by done.
  destruct (Nat.leb_spec 16 (String.length deviceName)); [lia|].
  rewrite Hc. by apply substring_0_all.
Qed.

(** X20.  The Linux [open] on a closed adapter.  The name it asks the
    kernel for never has more than 15 characters; it is the template
    "steamvpn%d" when the caller gives no name, and the caller's name
    unchanged when that is a non-empty C string of at most 15 characters.
    When the kernel opens /dev/net/tun and accepts the TUNSETIFF request,
    [open] returns true after exactly these two system calls, and the
    adapter is open on the descriptor the kernel returned, carries the
    name the kernel wrote back (not the one asked for) and the MTU given
    by the caller, with the last error as it was. *)
Theorem linux_open_creates_the_named_device (st : TunLinux.State)
    (deviceName : string) (mtu : Z) (kernel : Syscall → SysRet)
    (kernel_ifname : string → string) :
  TunLinux.is_open st = false →
  let opened := kernel (SysOpen "/dev/net/tun") in
  let name := TunLinux.requested_name deviceName in
  let created := kernel (SysIoctlTunSetIff (sys_ret opened) name) in
  (String.length name <= 15)%nat ∧
  (deviceName = EmptyString → name = "steamvpn%d") ∧
  (deviceName ≠ EmptyString →
   c_str deviceName = deviceName →
   (String.length deviceName <= 15)%nat →
   name = deviceName) ∧
  (0 <= sys_ret opened →
   0 <= sys_ret created →
   ∃ st',
     TunLinux.open strerror st deviceName mtu kernel kernel_ifname
       = (true, st',
          [SysOpen "/dev/net/tun";
           SysIoctlTunSetIff (sys_ret opened) name]) ∧
     TunLinux.is_open st' = true ∧
     TunLinux.fd_ st' = sys_ret opened ∧
     TunLinux.get_device_name st' = kernel_ifname name ∧
     TunLinux.mtu_ st' = mtu ∧
     TunLinux.get_last_error st' = TunLinux.get_last_error st).
Proof.
  intros Hclosed opened name created. split_and!.
  - apply substring_0_length.
  - by intros ->.
  - apply requested_name_kept.
  - intros Hopened Hcreated. eexists. unfold TunLinux.open.
    unfold TunLinux.is_open in Hclosed. rewrite Hclosed.
    cbn [TunLinux.fd_ TunLinux.set_fd]. fold opened.
    destruct (Z.ltb_spec (sys_ret opened) 0); [lia|].
    fold name created.
    destruct (Z.ltb_spec (sys_ret created) 0); [lia|].
    split_and!; try done.
    unfold TunLinux.is_open. cbn. by apply Z.leb_le.
Qed.

Lemma scan_units_calls (kernel : Syscall → SysRet) (fd : Z)
    (remaining : nat) (i errno : Z) :
  ∀ c, c ∈ (TunMacOS.scan_units kernel fd remaining i errno).1.2 →
       ∃ sc_unit, c = SysConnect fd sc_unit.
Proof.
  revert i errno. induction remaining as [|remaining IH]; intros i errno c.
  - cbn. by intros ?%elem_of_nil.
  - cbn. destruct (sys_ret (kernel (SysConnect fd (i + 1))) =? 0).
    + cbn. intros ->%list_elem_of_singleton. by eexists.
    + specialize (IH (i + 1)
                     (sys_errno (kernel (SysConnect fd (i + 1)))) c).
      destruct (TunMacOS.scan_units kernel fd remaining (i + 1) _)
        as [[found calls] errno'].
      cbn in *. intros [->|Hin]%elem_of_cons; [by eexists|]. by apply IH.
Qed.

Lemma scan_units_finds (kernel : Syscall → SysRet) (fd : Z)
    (remaining : nat) (i0 i errno : Z) :
  i0 <= i < i0 + Z.of_nat remaining →
  (∀ j, i0 <= j < i → sys_ret (kernel (SysConnect fd (j + 1))) ≠ 0) →
  sys_ret (kernel (SysConnect fd (i + 1))) = 0 →
  ∃ errno',
    TunMacOS.scan_units kernel fd remaining i0 errno
    = (Some i, (λ j, SysConnect fd (j + 1)) <$> seqZ i0 (i - i0 + 1), errno').
Proof.
  revert i0 errno.
  induction remaining as [|remaining IH]; intros i0 errno Hi Hbusy Hfree;
    [lia|].
  cbn [TunMacOS.scan_units].
  destruct (Z.eq_dec i0 i) as [->|Hne].
  - rewrite Hfree. cbn. exists errno.
    by replace (i - i + 1) with 1 by lia.
  - destruct (Z.eqb_spec (sys_ret (kernel (SysConnect fd (i0 + 1)))) 0)
      as [Hzero|_]; [by apply Hbusy in Hzero; [|lia]|].
    destruct (IH (i0 + 1) (sys_errno (kernel (SysConnect fd (i0 + 1)))))
      as [errno' ->]; [lia| intros j Hj; apply Hbusy; lia |done|].
    exists errno'. rewrite (seqZ_cons i0) by lia. cbn [fmap list_fmap].
    replace (Z.pred (i - i0 + 1)) with (i - (i0 + 1) + 1) by lia.
    by replace (Z.succ i0) with (i0 + 1) by lia.
Qed.

Lemma scan_units_exhausts (kernel : Syscall → SysRet) (fd : Z)
    (remaining : nat) (i0 errno : Z) :
  (∀ j, i0 <= j < i0 + Z.of_nat remaining →
        sys_ret (kernel (SysConnect fd (j + 1))) ≠ 0) →
  TunMacOS.scan_units kernel fd remaining i0 errno
  = (None,
     (λ j, SysConnect fd (j + 1)) <$> seqZ i0 (Z.of_nat remaining),
     match remaining with
     | O => errno
     | S _ => sys_errno (kernel (SysConnect fd (i0 + Z.of_nat remaining)))
     end).
Proof.
  revert i0 errno.
  induction remaining as [|remaining IH]; intros i0 errno Hbusy; [done|].
  cbn [TunMacOS.scan_units].
  destruct (Z.eqb_spec (sys_ret (kernel (SysConnect fd (i0 + 1)))) 0)
    as [Hzero|_]; [by apply Hbusy in Hzero; [|lia]|].
  rewrite IH by (intros j Hj; apply Hbusy; lia).
  rewrite (seqZ_cons i0) by lia. cbn [fmap list_fmap].
  f_equal; [f_equal|].
  - do 3 f_equal. lia.
  - destruct remaining; [done|]. do 3 f_equal. lia.
Qed.

Lemma utun_prefix (deviceName : string) :
  String.substring 0 4 deviceName = "utun" →
  ∃ rest, deviceName = "utun" +:+ rest.
Proof.
  destruct deviceName as [|c1 [|c2 [|c3 [|c4 rest]]]]; cbn;
    intros Hprefix; try discriminate Hprefix.
  exists rest. simplify_eq. reflexivity.
Qed.

Lemma utun_chars (rest : string) :
  "utun" +:+ rest
  = String "u"%char (String "t"%char (String "u"%char (String "n"%char rest))).
Proof. reflexivity. Qed.

Lemma utun_suffix (rest : string) :
  String.substring 4 (String.length ("utun" +:+ rest) - 4) ("utun" +:+ rest)
  = rest.
Proof.
  rewrite utun_chars. cbn [String.length Nat.sub String.substring].
  rewrite Nat.sub_0_r. by apply substring_0_all.
Qed.

Lemma utun_has_prefix (rest : string) :
  String.substring 0 4 ("utun" +:+ rest) = "utun".
Proof. rewrite utun_chars. cbn [String.substring]. by destruct rest. Qed.

Lemma utun_guard (rest : string) :
  negb (bool_decide ("utun" +:+ rest = EmptyString))
  && bool_decide (String.substring 0 4 ("utun" +:+ rest) = "utun") = true.
Proof.
  rewrite bool_decide_eq_false_2 by (rewrite utun_chars; discriminate).
  rewrite bool_decide_eq_true_2; [done|]. apply utun_has_prefix.
Qed.

(** Which names ask [open] for a unit: "utun" followed by something
    [std::stoi] reads as a number that is not negative.  Every other name
    leaves the choice to [open]. *)
Lemma requestedUnit_asked (rest : string) (n : Z) :
  stoi rest = Some n →
  TunMacOS.requestedUnit stoi ("utun" +:+ rest) = n.
Proof.
  intros Hn. unfold TunMacOS.requestedUnit.
  by rewrite utun_guard, utun_suffix, Hn.
Qed.

Lemma requestedUnit_automatic (deviceName : string) :
  deviceName = EmptyString ∨
  (∀ rest, deviceName ≠ "utun" +:+ rest) ∨
  (∃ rest, deviceName = "utun" +:+ rest ∧
           (stoi rest = None ∨ ∃ n, stoi rest = Some n ∧ n < 0)) →
  TunMacOS.requestedUnit stoi deviceName < 0.
Proof.
  intros [->|[Hother|(rest & -> & Hrest)]].
  - done.
  - unfold TunMacOS.requestedUnit.
    destruct (decide (String.substring 0 4 deviceName = "utun"))
      as [Hprefix|Hprefix].
    + destruct (utun_prefix _ Hprefix) as [rest ->]. by destruct (Hother rest).
    + by rewrite (bool_decide_eq_false_2 _ Hprefix), andb_false_r.
  - destruct Hrest as [Hnone|(n & Hn & Hneg)].
    + unfold TunMacOS.requestedUnit.
      by rewrite utun_guard, utun_suffix, Hnone.
    + by rewrite (requestedUnit_asked rest n).
Qed.

(** X21.  The macOS [open] on a closed adapter, once the control socket
    exists ([socket] and the CTLIOCGINFO request succeeded).  A name asks
    for a unit when it is "utun" followed by something [std::stoi] reads
    as a number that is not negative; the empty name, a name that does not
    start with "utun", and "utun" followed by something [std::stoi]
    rejects or reads as a negative number leave the choice to [open]; every
    name is of one kind or the other.  Left the choice, [open] tries the
    units 0, 1, 2, ... in order and stops at the first whose [connect]
    returns 0: the adapter is then open on the socket, holds that unit
    number, is named "utun" followed by it, and has the caller's MTU; the
    system calls are the two set-up calls and one [connect] for each unit
    up to the one found (sc_unit being the unit plus one).  When none of
    the 256 units connects, [open] returns false after 256 attempts,
    closes the socket, is not open, and reports the errno of the last
    attempt.  Asked for unit [n], [open] makes a single attempt, with
    sc_unit [n + 1]: if it does not fail the adapter is open as unit [n],
    named "utun" followed by [n]; if it fails, [open] closes the socket,
    returns false and reports the errno, and the adapter is not open and
    keeps its name and unit number. *)
Theorem macos_open_picks_lowest_free_unit (st : TunMacOS.State)
    (deviceName : string) (mtu : Z) (kernel : Syscall → SysRet) :
  TunMacOS.is_open st = false →
  let fd := sys_ret (kernel SysSocket) in
  let attempt := λ i, SysConnect fd (i + 1) in
  let automatic :=
    deviceName = EmptyString ∨
    (∀ rest, deviceName ≠ "utun" +:+ rest) ∨
    (∃ rest, deviceName = "utun" +:+ rest ∧
             (stoi rest = None ∨ ∃ n, stoi rest = Some n ∧ n < 0)) in
  let asks_for := λ n,
    ∃ rest, deviceName = "utun" +:+ rest ∧ stoi rest = Some n ∧ 0 <= n in
  0 <= fd →
  0 <= sys_ret (kernel (SysIoctlCtlInfo fd)) →
  (automatic ∨ ∃ n, asks_for n) ∧
  (∀ i,
     automatic →
     0 <= i < 256 →
     sys_ret (kernel (attempt i)) = 0 →
     (∀ j, 0 <= j < i → sys_ret (kernel (attempt j)) ≠ 0) →
     ∃ st',
       TunMacOS.open strerror stoi st deviceName mtu kernel
         = (true, st',
            [SysSocket; SysIoctlCtlInfo fd] ++
            (attempt <$> seqZ 0 (i + 1))) ∧
       TunMacOS.fd_ st' = fd ∧
       TunMacOS.utunNumber_ st' = i ∧
       TunMacOS.get_device_name st' = "utun" +:+ decimal i ∧
       TunMacOS.mtu_ st' = mtu) ∧
  (automatic →
   (∀ j, 0 <= j < 256 → sys_ret (kernel (attempt j)) ≠ 0) →
   ∃ st',
     TunMacOS.open strerror stoi st deviceName mtu kernel
       = (false, st',
          [SysSocket; SysIoctlCtlInfo fd] ++
          (attempt <$> seqZ 0 256) ++ [SysClose fd]) ∧
     TunMacOS.is_open st' = false ∧
     TunMacOS.get_last_error st'
       = "Failed to connect to utun control: " +:+
         strerror (sys_errno (kernel (attempt 255))) +:+
         " (errno " +:+ decimal (sys_errno (kernel (attempt 255))) +:+ ")") ∧
  (∀ n,
     asks_for n →
     0 <= sys_ret (kernel (attempt n)) →
     ∃ st',
       TunMacOS.open strerror stoi st deviceName mtu kernel
         = (true, st', [SysSocket; SysIoctlCtlInfo fd; attempt n]) ∧
       TunMacOS.fd_ st' = fd ∧
       TunMacOS.utunNumber_ st' = n ∧
       TunMacOS.get_device_name st' = "utun" +:+ decimal n ∧
       TunMacOS.mtu_ st' = mtu) ∧
  (∀ n,
     asks_for n →
     sys_ret (kernel (attempt n)) < 0 →
     ∃ st',
       TunMacOS.open strerror stoi st deviceName mtu kernel
         = (false, st',
            [SysSocket; SysIoctlCtlInfo fd; attempt n; SysClose fd]) ∧
       TunMacOS.is_open st' = false ∧
       TunMacOS.get_last_error st'
         = "Failed to connect to utun control: " +:+
           strerror (sys_errno (kernel (attempt n))) +:+
           " (errno " +:+ decimal (sys_errno (kernel (attempt n))) +:+ ")" ∧
       TunMacOS.utunNumber_ st' = TunMacOS.utunNumber_ st ∧
       TunMacOS.get_device_name st' = TunMacOS.get_device_name st ∧
       TunMacOS.mtu_ st' = TunMacOS.mtu_ st).
Proof.
  intros Hclosed fd attempt automatic asks_for Hfd Hinfo.
  assert (∀ requested,
    TunMacOS.requestedUnit stoi deviceName = requested →
    TunMacOS.open strerror stoi st deviceName mtu kernel
    = let st1 := TunMacOS.set_fd fd st in
      if 0 <=? requested
      then
        if sys_ret (kernel (attempt requested)) <? 0
        then (false,
              TunMacOS.set_fd (-1)
                (TunMacOS.setErrnoError strerror
                   "Failed to connect to utun control"
                   (sys_errno (kernel (attempt requested))) st1),
              [SysSocket; SysIoctlCtlInfo fd; attempt requested;
               SysClose fd])
        else (true,
              TunMacOS.set_mtu_field mtu
                (TunMacOS.set_deviceName ("utun" +:+ decimal requested)
                   (TunMacOS.set_utunNumber requested st1)),
              [SysSocket; SysIoctlCtlInfo fd; attempt requested])
      else
        match TunMacOS.scan_units kernel fd 256 0
                (sys_errno (kernel (SysIoctlCtlInfo fd))) with
        | (Some i, calls, _) =>
            (true,
             TunMacOS.set_mtu_field mtu
               (TunMacOS.set_deviceName ("utun" +:+ decimal i)
                  (TunMacOS.set_utunNumber i st1)),
             [SysSocket; SysIoctlCtlInfo fd] ++ calls)
        | (None, calls, errno) =>
            (false,
             TunMacOS.set_fd (-1)
               (TunMacOS.setErrnoError strerror
                  "Failed to connect to utun control" errno st1),
             [SysSocket; SysIoctlCtlInfo fd] ++ calls ++ [SysClose fd])
        end) as Hrun.
  { intros requested Hrequested. unfold TunMacOS.open.
    unfold TunMacOS.is_open in Hclosed. rewrite Hclosed.
    cbn [TunMacOS.fd_ TunMacOS.set_fd]. fold fd.
    destruct (Z.ltb_spec fd 0); [lia|].
    destruct (Z.ltb_spec (sys_ret (kernel (SysIoctlCtlInfo fd))) 0); [lia|].
    by rewrite Hrequested. }
  assert (Hasked : ∀ n, asks_for n →
            TunMacOS.requestedUnit stoi deviceName = n ∧ 0 <= n).
  { intros n (rest & -> & Hn & Hpos). split; [|done].
    by apply requestedUnit_asked. }
  split_and!.
  - destruct (decide (deviceName = EmptyString)) as [Hempty|Hname];
      [by left; left|].
    destruct (decide (String.substring 0 4 deviceName = "utun"))
      as [Hprefix|Hprefix].
    + destruct (utun_prefix _ Hprefix) as [rest Hrest].
      destruct (stoi rest) as [n|] eqn:Hn.
      * destruct (Z.lt_ge_cases n 0).
        -- left. right. right. exists rest. split; [done|]. right. by exists n.
        -- right. exists n, rest. done.
      * left. right. right. exists rest. split; [done|]. by left.
    + left. right. left. intros rest ->. apply Hprefix, utun_has_prefix.
  - intros i Hauto%requestedUnit_automatic Hi Hfree Hbusy.
    rewrite (Hrun _ eq_refl). cbv zeta.
    destruct (Z.leb_spec 0 (TunMacOS.requestedUnit stoi deviceName)); [lia|].
    destruct (scan_units_finds kernel fd 256 0 i
                (sys_errno (kernel (SysIoctlCtlInfo fd))))
      as [errno' ->]; [lia|done|done|].
    eexists. rewrite Z.sub_0_r. done.
  - intros Hauto%requestedUnit_automatic Hbusy.
    rewrite (Hrun _ eq_refl). cbv zeta.
    destruct (Z.leb_spec 0 (TunMacOS.requestedUnit stoi deviceName)); [lia|].
    rewrite scan_units_exhausts by (intros j Hj; apply Hbusy; lia).
    eexists. split_and!; done.
  - intros n [Hn Hpos]%Hasked Hconnect.
    rewrite (Hrun _ Hn). cbv zeta.
    destruct (Z.leb_spec 0 n); [|lia].
    destruct (Z.ltb_spec (sys_ret (kernel (attempt n))) 0); [lia|].
    eexists. split_and!; done.
  - intros n [Hn Hpos]%Hasked Hconnect.
    rewrite (Hrun _ Hn). cbv zeta.
    destruct (Z.leb_spec 0 n); [|lia].
    destruct (Z.ltb_spec (sys_ret (kernel (attempt n))) 0); [|lia].
    eexists. split_and!; done.
Qed.

(** X22.  [open] never loses track of a descriptor, in either variant.
    On an adapter that is already open it makes no system call, returns
    false and keeps the adapter on its descriptor.  On a closed adapter
    the adapter is open afterwards exactly when [open] returned true; a
    successful [open] closes nothing; and a failed [open] leaves the name
    and the MTU as they were and, if the kernel had handed out a
    descriptor, ends by closing that descriptor. *)
Theorem open_keeps_track_of_the_descriptor (deviceName : string) (mtu : Z)
    (kernel : Syscall → SysRet) (kernel_ifname : string → string) :
  (∀ st ok st' calls,
     TunLinux.open strerror st deviceName mtu kernel kernel_ifname
       = (ok, st', calls) →
     (TunLinux.is_open st = true →
      ok = false ∧ calls = [] ∧ TunLinux.fd_ st' = TunLinux.fd_ st ∧
      TunLinux.get_last_error st' = "TUN device already open") ∧
     (TunLinux.is_open st = false →
      TunLinux.is_open st' = ok ∧
      (ok = true → ∀ fd, SysClose fd ∉ calls) ∧
      (ok = false →
       TunLinux.get_device_name st' = TunLinux.get_device_name st ∧
       TunLinux.mtu_ st' = TunLinux.mtu_ st ∧
       (0 <= sys_ret (kernel (SysOpen "/dev/net/tun")) →
        last calls
        = Some (SysClose (sys_ret (kernel (SysOpen "/dev/net/tun")))))))) ∧
  (∀ st ok st' calls,
     TunMacOS.open strerror stoi st deviceName mtu kernel = (ok, st', calls) →
     (TunMacOS.is_open st = true →
      ok = false ∧ calls = [] ∧ TunMacOS.fd_ st' = TunMacOS.fd_ st ∧
      TunMacOS.get_last_error st' = "TUN device already open") ∧
     (TunMacOS.is_open st = false →
      TunMacOS.is_open st' = ok ∧
      (ok = true → ∀ fd, SysClose fd ∉ calls) ∧
      (ok = false →
       TunMacOS.get_device_name st' = TunMacOS.get_device_name st ∧
       TunMacOS.mtu_ st' = TunMacOS.mtu_ st ∧
       (0 <= sys_ret (kernel SysSocket) →
        last calls = Some (SysClose (sys_ret (kernel SysSocket))))))).
Proof.
  clear inet_pton system. split.
  - intros st ok st' calls Hrun. unfold TunLinux.open in Hrun. split.
    + intros Hopen. unfold TunLinux.is_open in Hopen.
      rewrite Hopen in Hrun. by simplify_eq.
    + intros Hclosed. unfold TunLinux.is_open in Hclosed.
      rewrite Hclosed in Hrun. cbn [TunLinux.fd_ TunLinux.set_fd] in Hrun.
      unfold TunLinux.is_open.
      destruct (Z.ltb_spec (sys_ret (kernel (SysOpen "/dev/net/tun"))) 0)
        as [Hfd|Hfd].
      { simplify_eq. cbn. split_and!; try done; [by apply Z.leb_gt|].
        intros _. split_and!; try done. intros; lia. }
      destruct (sys_ret (kernel (SysIoctlTunSetIff _ _)) <? 0);
        simplify_eq; cbn.
      * split_and!; done.
      * split_and!; [by apply Z.leb_le| |done].
        intros _ fd Hin. set_solver.
  - intros st ok st' calls Hrun. unfold TunMacOS.open in Hrun. split.
    + intros Hopen. unfold TunMacOS.is_open in Hopen.
      rewrite Hopen in Hrun. by simplify_eq.
    + intros Hclosed. unfold TunMacOS.is_open in Hclosed.
      rewrite Hclosed in Hrun. cbn [TunMacOS.fd_ TunMacOS.set_fd] in Hrun.
      unfold TunMacOS.is_open.
      set (fd := sys_ret (kernel SysSocket)) in *.
      destruct (Z.ltb_spec fd 0) as [Hfd|Hfd].
      { simplify_eq. cbn. split_and!; try done; [by apply Z.leb_gt|].
        intros _. split_and!; try done. intros; lia. }
      destruct (sys_ret (kernel (SysIoctlCtlInfo fd)) <? 0).
      { simplify_eq. cbn. split_and!; done. }
      destruct (0 <=? TunMacOS.requestedUnit stoi deviceName).
      { destruct (sys_ret (kernel (SysConnect fd _)) <? 0);
          simplify_eq; cbn.
        - split_and!; done.
        - split_and!; [by apply Z.leb_le| |done].
          intros _ fd' Hin. set_solver. }
      pose proof (scan_units_calls kernel fd 256 0
                    (sys_errno (kernel (SysIoctlCtlInfo fd)))) as Hcalls.
      destruct (TunMacOS.scan_units kernel fd 256 0 _)
        as [[[i|] scanned] errno]; simplify_eq; cbn [fst snd] in Hcalls.
      * cbn. split_and!; [by apply Z.leb_le| |done].
        intros _ fd' Hin.
        apply elem_of_cons in Hin as [?|Hin]; [done|].
        apply elem_of_cons in Hin as [?|Hin]; [done|].
        by destruct (Hcalls _ Hin).
      * cbn [TunMacOS.fd_ TunMacOS.set_fd TunMacOS.get_device_name
             TunMacOS.deviceName_ TunMacOS.mtu_ TunMacOS.setErrnoError
             TunMacOS.setError].
        split_and!; try done.
        intros _. by rewrite !app_assoc, last_snoc.
Qed.

(** *** Buffer bounds *)

Lemma to_int_le (z : Z) : 0 <= z → to_int z <= z.
Proof.
  intros Hz. unfold to_int.
  pose proof (Z.mod_le (z + 2 ^ 31) (2 ^ 32)). lia.
Qed.

(** X23.  [read] stays within the caller's buffer.  The macOS variant
    does so whatever the kernel answers: the caller's buffer has the same
    size afterwards, so no byte is stored past its end, and the return
    value never exceeds that size, because the bytes copied are clamped to
    it.  The Linux variant reads straight into the caller's buffer, so the
    same holds provided the kernel delivers no more bytes than it was
    asked for. *)
Theorem read_stays_within_the_buffer (buffer : list byte)
    (kernel_read : Z → ReadAnswer) :
  (∀ st,
     (∀ data,
        kernel_read (Z.of_nat (length buffer)) = ReadBytes data →
        (length data <= length buffer)%nat) →
     length (TunLinux.read strerror st buffer kernel_read).1.2
       = length buffer ∧
     (TunLinux.read strerror st buffer kernel_read).1.1
       <= Z.of_nat (length buffer)) ∧
  (∀ st,
     length (TunMacOS.read strerror st buffer kernel_read).1.2
       = length buffer ∧
     (TunMacOS.read strerror st buffer kernel_read).1.1
       <= Z.of_nat (length buffer)).
Proof.
  split.
  - intros st Hkernel. unfold TunLinux.read.
    destruct (TunLinux.fd_ st <? 0); [cbn; lia|].
    destruct (kernel_read (Z.of_nat (length buffer))) as [data|errno].
    + specialize (Hkernel data eq_refl). cbn [fst snd]. split.
      * unfold memcpy. rewrite length_app, length_take, length_drop. lia.
      * pose proof (to_int_le (Z.of_nat (length data))). lia.
    + destruct ((errno =? TunLinux.EAGAIN) || (errno =? TunLinux.EWOULDBLOCK));
        cbn; lia.
  - intros st. unfold TunMacOS.read.
    destruct (TunMacOS.fd_ st <? 0); [cbn; lia|].
    destruct (kernel_read _) as [raw|errno].
    + destruct (Z.leb_spec (Z.of_nat (length raw)) 4); [cbn; lia|].
      cbn [fst snd].
      set (dataSize := if Z.of_nat (length raw) - 4 >? Z.of_nat (length buffer)
                       then Z.of_nat (length buffer)
                       else Z.of_nat (length raw) - 4).
      assert (0 <= dataSize <= Z.of_nat (length buffer) ∧
              dataSize <= Z.of_nat (length raw) - 4) as [Hsize Hdata].
      { unfold dataSize.
        destruct (Z.gtb_spec (Z.of_nat (length raw) - 4)
                    (Z.of_nat (length buffer))); lia. }
      split.
      * unfold memcpy.
        rewrite length_app, length_take, !length_drop. lia.
      * pose proof (to_int_le dataSize). lia.
    + destruct ((errno =? TunMacOS.EAGAIN) || (errno =? TunMacOS.EWOULDBLOCK));
        cbn; lia.
Qed.

End TunMore.

(** ** The further properties at work on sample nodes and devices *)

Section ManagerSamples.
Import SteamNetworkingManager.

(** X1 on node 101 with peer 303: adding 202, adding the node itself and
    removing 303 leaves the registry that the set reading predicts, and
    [getPeers] returns it. *)
Lemma registry_is_a_set_witness :
  ∃ m' t,
    SteamNetworkingManager.calls Sample.transport_ok
      [SteamNetworkingManager.CallAddPeer 202%N;
       SteamNetworkingManager.CallAddPeer 101%N;
       SteamNetworkingManager.CallRemovePeer 303%N]
      (Sample.node [303%N]) = Some (tt, m', t) ∧
    SteamNetworkingManager.getPeers m'
      = Some (SteamNetworkingManager.registry_after 101%N
                [SteamNetworkingManager.CallAddPeer 202%N;
                 SteamNetworkingManager.CallAddPeer 101%N;
                 SteamNetworkingManager.CallRemovePeer 303%N]
                (list_to_set [303%N]),
              m',
              [SteamNetworkingManager.EvLock;
               SteamNetworkingManager.EvUnlock]).
Proof.
  destruct (registry_is_a_set Sample.transport_ok
              [SteamNetworkingManager.CallAddPeer 202%N;
               SteamNetworkingManager.CallAddPeer 101%N;
               SteamNetworkingManager.CallRemovePeer 303%N]
              (Sample.node [303%N])) as [Hreturns Hset].
  destruct (Hreturns eq_refl) as (m' & t & Hrun).
  destruct (Hset m' t Hrun) as (_ & Hget & _).
  by exists m', t.
Defined.

(** X2 on the empty node 101: the HELLO that [addPeer(202)] sends goes to a
    peer the call names. *)
Lemma sends_only_to_known_or_named_witness :
  ∃ m' t,
    SteamNetworkingManager.calls Sample.transport_ok
      [SteamNetworkingManager.CallAddPeer 202%N] (Sample.node [])
      = Some (tt, m', t) ∧
    SteamNetworkingManager.sent_to 202%N t ∧
    (202%N ∈ SteamNetworkingManager.peers_ (Sample.node []) ∨
     202%N ∈ SteamNetworkingManager.named_targets
               [SteamNetworkingManager.CallAddPeer 202%N]).
Proof.
  eexists _, _. split; [reflexivity|].
  assert (SteamNetworkingManager.sent_to 202%N
            [SteamNetworkingManager.EvLock; SteamNetworkingManager.EvUnlock;
             SteamNetworkingManager.EvSend 202%N [x01; x00; x00] 40 0;
             SteamNetworkingManager.EvUserJoined 202%N]) as Hsent.
  { exists [x01; x00; x00], 40, 0. cbn. left. }
  split; [exact Hsent|].
  exact (sends_only_to_known_or_named Sample.transport_ok
           [SteamNetworkingManager.CallAddPeer 202%N] (Sample.node [])
           _ _ 202%N eq_refl Hsent).
Defined.

(** X3 on the empty node 101: after adding itself and peer 202 and
    broadcasting, 101 is still not in its own registry. *)
Lemma self_stays_out_witness :
  ∃ m' t,
    SteamNetworkingManager.calls Sample.transport_ok
      [SteamNetworkingManager.CallAddPeer 101%N;
       SteamNetworkingManager.CallAddPeer 202%N;
       SteamNetworkingManager.CallBroadcastMessage [x02; x00; x00] 0]
      (Sample.node []) = Some (tt, m', t) ∧
    SteamNetworkingManager.self m' = 101%N ∧
    SteamNetworkingManager.self m' ∉ SteamNetworkingManager.peers_ m'.
Proof.
  eexists _, _. split; [reflexivity|].
  destruct (self_stays_out Sample.transport_ok
              [SteamNetworkingManager.CallAddPeer 101%N;
               SteamNetworkingManager.CallAddPeer 202%N;
               SteamNetworkingManager.CallBroadcastMessage [x02; x00; x00] 0]
              (Sample.node []) _ _ (not_elem_of_empty _) eq_refl)
    as (Hself & Hout & _).
  split; [exact Hself|exact Hout].
Defined.

(** X4 on node 101 with peers 303 and 202: a broadcast goes to 202 and then
    to 303. *)
Lemma broadcastMessage_reaches_each_peer_once_witness :
  ∃ t,
    SteamNetworkingManager.broadcastMessage Sample.transport_ok
      [x02; x00; x00] 8 (Sample.node [303%N; 202%N])
      = Some (tt, Sample.node [303%N; 202%N], t) ∧
    SteamNetworkingManager.sends t
      = [(202%N, [x02; x00; x00], 8, 0); (303%N, [x02; x00; x00], 8, 0)].
Proof.
  destruct (broadcastMessage_reaches_each_peer_once Sample.transport_ok
              [x02; x00; x00] 8 (Sample.node [303%N; 202%N]))
    as (Hsends & _).
  destruct (Hsends eq_refl) as (t & Hrun & Hto & _).
  exists t. split; [exact Hrun|]. rewrite Hto. by vm_compute.
Defined.

(** X5 on node 101 with peer 303: adding and removing 202. *)
Lemma addPeer_removePeer_round_trip_witness :
  ∃ t,
    (SteamNetworkingManager.addPeer Sample.transport_ok 202%N ;;
     SteamNetworkingManager.removePeer 202%N) (Sample.node [303%N])
      = Some (tt, Sample.node [303%N], t) ∧
    SteamNetworkingManager.effects t
      = [SteamNetworkingManager.EvSend 202%N [x01; x00; x00] 40 0;
         SteamNetworkingManager.EvUserJoined 202%N;
         SteamNetworkingManager.EvCloseSession 202%N;
         SteamNetworkingManager.EvUserLeft 202%N].
Proof.
  apply (addPeer_removePeer_round_trip Sample.transport_ok 202%N
           (Sample.node [303%N])); [discriminate| |reflexivity].
  apply (bool_decide_unpack _). by vm_compute.
Defined.

(** X6 on node 101 with peer 303: removing the stranger 202. *)
Lemma removePeer_idempotent_witness :
  SteamNetworkingManager.removePeer 202%N (Sample.node [303%N])
  = Some (tt, Sample.node [303%N],
          [SteamNetworkingManager.EvLock; SteamNetworkingManager.EvUnlock]).
Proof.
  destruct (removePeer_idempotent 202%N (Sample.node [303%N]))
    as [Hstranger _].
  apply Hstranger. apply (bool_decide_unpack _). by vm_compute.
Defined.

(** X7 on node 101 with peer 202: a request from 202 is accepted, one from
    404 is not. *)
Lemma OnSessionRequest_accepts_registered_only_witness :
  (∃ t,
     SteamNetworkingManager.OnSessionRequest 202%N (Sample.node [202%N])
       = Some (tt, Sample.node [202%N], t) ∧
     SteamNetworkingManager.api_accepts t = [202%N]) ∧
  (∃ t,
     SteamNetworkingManager.OnSessionRequest 404%N (Sample.node [202%N])
       = Some (tt, Sample.node [202%N], t) ∧
     SteamNetworkingManager.api_accepts t = []).
Proof.
  split.
  - destruct (OnSessionRequest_accepts_registered_only Sample.transport_ok
                202%N (Sample.node [202%N]) eq_refl)
      as ((t & Hrun & Haccepts & _) & _).
    exists t. split; [exact Hrun|]. rewrite Haccepts. by vm_compute.
  - destruct (OnSessionRequest_accepts_registered_only Sample.transport_ok
                404%N (Sample.node [202%N]) eq_refl)
      as ((t & Hrun & Haccepts & _) & _).
    exists t. split; [exact Hrun|]. rewrite Haccepts. by vm_compute.
Defined.

(** X9 on a transport where peer 202 is connected through a relay with a
    ping of 42: the three queries, asked on a node whose registry is
    empty. *)
Lemma status_queries_agree_witness :
  SteamNetworkingManager.isPeerConnected Sample.session_info 202%N
    (Sample.node []) = true ∧
  SteamNetworkingManager.getPeerPing Sample.session_info 202%N
    (Sample.node []) = 42 ∧
  SteamNetworkingManager.getPeerConnectionType Sample.session_info 202%N
    (Sample.node []) ≠ "N/A".
Proof.
  destruct (status_queries_agree Sample.session_info 202%N (Sample.node []))
    as (Htype & _ & Hping & _).
  split_and!.
  - reflexivity.
  - by rewrite Hping.
  - by apply Htype.
Defined.

End ManagerSamples.

(** X10 on the netmask 255.0.255.0, a mask with a hole: eight leading
    ones, and bit 23 is the first clear one. *)
Lemma netmask_prefix_counts_leading_ones_witness :
  TunMacOS.netmaskToPrefixLength Sample.inet_pton "255.0.255.0"
    = TunLinux.netmaskToPrefixLength Sample.inet_pton "255.0.255.0" ∧
  Z.testbit 4278255360
    (31 - TunLinux.netmaskToPrefixLength Sample.inet_pton "255.0.255.0")
    = false.
Proof.
  destruct (netmask_prefix_counts_leading_ones Sample.inet_pton
              "255.0.255.0" 4278255360 eq_refl)
    as (Hsame & _ & _ & Hclear); [lia|].
  split; [exact Hsame|]. apply Hclear. by vm_compute.
Defined.

(** X11 on 255.255.255.0, the mask of prefix length 24. *)
Lemma netmask_prefix_round_trip_witness :
  TunLinux.netmaskToPrefixLength Sample.inet_pton "255.255.255.0" = 24 ∧
  TunMacOS.netmaskToPrefixLength Sample.inet_pton "255.255.255.0" = 24.
Proof.
  apply (netmask_prefix_round_trip Sample.inet_pton "255.255.255.0" 24);
    [lia|reflexivity].
Defined.

(** X12 on the local address 10.0.0.1 with a /24: the peer is not 10.0.0.1
    but lies in 10.0.0.0/24. *)
Lemma peerAddr_is_another_host_witness :
  TunMacOS.peerAddr 167772161 24 ≠ 167772161 ∧
  Z.land (TunMacOS.peerAddr 167772161 24) (Posix.mask_of_prefix 24)
    = Z.land 167772161 (Posix.mask_of_prefix 24).
Proof.
  destruct (peerAddr_is_another_host 167772161 24) as (Hother & Hnet & _);
    [lia|lia|].
  split; [exact Hother|exact Hnet].
Defined.

(** X13 on a closed Linux adapter, and on an open macOS device with an
    address that does not parse. *)
Lemma configuration_needs_an_open_device_witness :
  TunLinux.set_mtu Sample.system Sample.linux_closed 1400 []
    = (false, TunLinux.setError "TUN device not open" Sample.linux_closed,
       []) ∧
  TunMacOS.set_ip Sample.inet_pton Sample.system Sample.macos_tun
    "10.0.0.x" "255.255.255.0" []
    = (false,
       TunMacOS.setError "Invalid IP address: 10.0.0.x" Sample.macos_tun,
       []).
Proof.
  destruct (configuration_needs_an_open_device Sample.inet_pton Sample.system
              "10.0.0.x" "255.255.255.0" 1400 true [])
    as (Hlinux & _ & Hbad).
  split.
  - destruct (Hlinux Sample.linux_closed) as (_ & Hmtu & _);
      [by left|exact Hmtu].
  - destruct (Hbad eq_refl) as [_ Hmacos].
    apply (Hmacos Sample.macos_tun); [reflexivity|discriminate].
Defined.

(** X14 on an open Linux device with a shell in which every command fails:
    the MTU is stored all the same. *)
Lemma set_mtu_stores_before_running_witness :
  ∃ st',
    TunLinux.set_mtu Sample.system_failing Sample.linux_tun 1400 []
      = (false, st', ["ip link set dev steamvpn0 mtu 1400"]) ∧
    TunLinux.mtu_ st' = 1400.
Proof.
  destruct (set_mtu_stores_before_running Sample.system_failing 1400 [])
    as [Hlinux _].
  destruct (Hlinux Sample.linux_tun) as (st' & Hrun & Hmtu & _);
    [reflexivity|discriminate|].
  exists st'. split; [exact Hrun|exact Hmtu].
Defined.

(** X15 on an open Linux device with a shell in which [ip addr add] only
    succeeds after a flush. *)
Lemma linux_set_ip_retries_once_witness :
  TunLinux.set_ip Sample.inet_pton Sample.system_flush_first Sample.linux_tun
    "10.0.0.5" "255.255.255.0" []
  = (true, Sample.linux_tun,
     ["ip addr add 10.0.0.5/24 dev steamvpn0";
      "ip addr flush dev steamvpn0";
      "ip addr add 10.0.0.5/24 dev steamvpn0"]).
Proof.
  destruct (linux_set_ip_retries_once Sample.inet_pton
              Sample.system_flush_first Sample.linux_tun
              "10.0.0.5" "255.255.255.0" 167772165 [])
    as (_ & Hretry & _); [reflexivity|discriminate|reflexivity|].
  apply Hretry; by vm_compute.
Defined.

(** X16 on open devices: the macOS [write] of a two-byte packet to a
    kernel that takes all six bytes returns 2, and the Linux [write] to a
    kernel that reports EAGAIN returns 0. *)
Lemma write_return_contract_witness :
  TunMacOS.write Sample.strerror Sample.macos_tun [x45; x00] Posix.accepting
    = (2, Sample.macos_tun, Some [x00; x00; x00; x02; x45; x00]) ∧
  TunLinux.write Sample.strerror Sample.linux_tun [x45; x00]
    (λ _, Posix.WriteErrno 11)
    = (0, Sample.linux_tun, Some [x45; x00]).
Proof.
  split.
  - destruct (write_return_contract Sample.strerror [x45; x00]
                Posix.accepting) as [_ Hmacos].
    destruct (Hmacos Sample.macos_tun) as (_ & _ & Hcount).
    apply (Hcount 6); [reflexivity|by vm_compute|reflexivity|by vm_compute].
  - destruct (write_return_contract Sample.strerror [x45; x00]
                (λ _, Posix.WriteErrno 11)) as [Hlinux _].
    destruct (Hlinux Sample.linux_tun) as (_ & Herrno & _).
    apply (Herrno 11); reflexivity.
Defined.

(** X17 on open macOS devices: a two-byte packet written by one and read
    by another into a three-byte buffer. *)
Lemma write_then_read_round_trip_witness :
  ∃ frame,
    TunMacOS.write Sample.strerror Sample.macos_tun [x45; x00]
      Posix.accepting
      = (2, Sample.macos_tun, Some frame) ∧
    TunMacOS.read Sample.strerror Sample.macos_tun [x00; x00; x00]
      (Posix.datagram frame)
      = (2, [x45; x00; x00], Sample.macos_tun).
Proof.
  destruct (write_then_read_round_trip Sample.strerror [x45; x00]
              [x00; x00; x00]) as [_ Hmacos];
    [cbn; lia|cbn; lia|by vm_compute|].
  apply (Hmacos ltac:(by vm_compute) Sample.macos_tun Sample.macos_tun);
    reflexivity.
Defined.

(** X18 on an open Linux device: one [close] closes descriptor 5, a second
    one does nothing. *)
Lemma close_releases_the_device_witness :
  ∃ st',
    TunLinux.close Sample.linux_tun = (st', [Posix.SysClose 5]) ∧
    TunLinux.is_open st' = false ∧
    TunLinux.close st' = (st', []).
Proof.
  destruct (close_releases_the_device Sample.strerror Sample.inet_pton
              Sample.system) as [Hlinux _].
  destruct (Hlinux Sample.linux_tun _ _ eq_refl)
    as (Hclosed & _ & _ & _ & _ & Hagain & _).
  eexists. split; [reflexivity|]. split; [exact Hclosed|exact Hagain].
Defined.

(** X19 on an open Linux device whose flags are O_RDWR: switching to
    non-blocking sets bit 11 and keeps bit 1. *)
Lemma set_non_blocking_changes_one_flag_witness :
  ∃ st' flags',
    TunLinux.set_non_blocking Sample.strerror Sample.linux_tun true
      Sample.kernel
      = (true, st',
         [Posix.SysFcntlGetFl 5; Posix.SysFcntlSetFl 5 flags']) ∧
    Z.testbit flags' 11 = true ∧
    Z.testbit flags' 1 = true.
Proof.
  destruct (set_non_blocking_changes_one_flag Sample.strerror true
              Sample.kernel) as [Hlinux _].
  destruct (Hlinux Sample.linux_tun eq_refl) as [_ Hset].
  destruct Hset as (st' & flags' & Hrun & Hbit & Hothers & _);
    [by vm_compute|].
  exists st', flags'. split_and!; [exact Hrun|exact Hbit|].
  by rewrite Hothers.
Defined.

(** X20 on a closed Linux adapter, opened without a name: the kernel is
    asked for "steamvpn%d" and the adapter is named as the kernel says. *)
Lemma linux_open_creates_the_named_device_witness :
  ∃ st',
    TunLinux.open Sample.strerror Sample.linux_closed EmptyString 1400
      Sample.kernel Sample.kernel_ifname
      = (true, st',
         [Posix.SysOpen "/dev/net/tun";
          Posix.SysIoctlTunSetIff 5 "steamvpn%d"]) ∧
    TunLinux.get_device_name st' = "steamvpn0" ∧
    TunLinux.mtu_ st' = 1400.
Proof.
  destruct (linux_open_creates_the_named_device Sample.strerror
              Sample.linux_closed EmptyString 1400 Sample.kernel
              Sample.kernel_ifname eq_refl) as (_ & _ & _ & Hopen).
  destruct Hopen as (st' & Hrun & _ & _ & Hname & Hmtu & _);
    [by vm_compute|by vm_compute|].
  exists st'. split_and!; [exact Hrun|exact Hname|exact Hmtu].
Defined.

(** X21 on a closed macOS adapter with the units 0 and 1 taken: opened
    without a name it becomes utun2 after three attempts; asked for "utun7"
    it makes one attempt, which succeeds; asked for "utun0" it makes one
    attempt, which fails, and closes the socket. *)
Lemma macos_open_picks_lowest_free_unit_witness :
  (∃ st',
     TunMacOS.open Sample.strerror Sample.stoi Sample.macos_closed
       EmptyString 1400 Sample.kernel
       = (true, st',
          [Posix.SysSocket; Posix.SysIoctlCtlInfo 5; Posix.SysConnect 5 1;
           Posix.SysConnect 5 2; Posix.SysConnect 5 3]) ∧
     TunMacOS.get_device_name st' = "utun2") ∧
  (∃ st',
     TunMacOS.open Sample.strerror Sample.stoi Sample.macos_closed
       "utun7" 1400 Sample.kernel
       = (true, st',
          [Posix.SysSocket; Posix.SysIoctlCtlInfo 5; Posix.SysConnect 5 8]) ∧
     TunMacOS.get_device_name st' = "utun7") ∧
  (∃ st',
     TunMacOS.open Sample.strerror Sample.stoi Sample.macos_closed
       "utun0" 1400 Sample.kernel
       = (false, st',
          [Posix.SysSocket; Posix.SysIoctlCtlInfo 5; Posix.SysConnect 5 1;
           Posix.SysClose 5]) ∧
     TunMacOS.is_open st' = false).
Proof.
  split_and!.
  - destruct (macos_open_picks_lowest_free_unit Sample.strerror Sample.stoi
                Sample.macos_closed EmptyString 1400 Sample.kernel eq_refl)
      as (_ & Hscan & _); [by vm_compute|by vm_compute|].
    destruct (Hscan 2) as (st' & Hrun & _ & _ & Hname & _);
      [by left|lia|reflexivity| |].
    + intros j Hj. assert (j = 0 ∨ j = 1) as [-> | ->] by lia;
        by vm_compute.
    + exists st'. split; [exact Hrun|exact Hname].
  - destruct (macos_open_picks_lowest_free_unit Sample.strerror Sample.stoi
                Sample.macos_closed "utun7" 1400 Sample.kernel eq_refl)
      as (_ & _ & _ & Hasked & _); [by vm_compute|by vm_compute|].
    destruct (Hasked 7) as (st' & Hrun & _ & _ & Hname & _);
      [exists "7"; split_and!; [reflexivity|reflexivity|lia]|by vm_compute|].
    exists st'. split; [exact Hrun|exact Hname].
  - destruct (macos_open_picks_lowest_free_unit Sample.strerror Sample.stoi
                Sample.macos_closed "utun0" 1400 Sample.kernel eq_refl)
      as (_ & _ & _ & _ & Hrefused); [by vm_compute|by vm_compute|].
    destruct (Hrefused 0) as (st' & Hrun & Hclosed & _);
      [exists "0"; split_and!; [reflexivity|reflexivity|lia]|by vm_compute|].
    exists st'. split; [exact Hrun|exact Hclosed].
Defined.

(** X22 on a closed Linux adapter with a kernel that opens /dev/net/tun as
    descriptor 5 and refuses TUNSETIFF: the failed [open] ends by closing
    descriptor 5. *)
Lemma open_keeps_track_of_the_descriptor_witness :
  ∃ st' calls,
    TunLinux.open Sample.strerror Sample.linux_closed EmptyString 1400
      Sample.kernel_refusing Sample.kernel_ifname = (false, st', calls) ∧
    TunLinux.is_open st' = false ∧
    last calls = Some (Posix.SysClose 5).
Proof.
  destruct (open_keeps_track_of_the_descriptor Sample.strerror Sample.stoi
              EmptyString 1400 Sample.kernel_refusing Sample.kernel_ifname)
    as [Hlinux _].
  destruct (Hlinux Sample.linux_closed _ _ _ eq_refl) as [_ Hclosed].
  destruct (Hclosed eq_refl) as (Hopen & _ & Hfailed).
  destruct (Hfailed eq_refl) as (_ & _ & Hlast).
  eexists _, _. split; [reflexivity|].
  split; [exact Hopen|]. apply Hlast. by vm_compute.
Defined.

(** X23 on an open Linux device with a two-byte packet pending and a
    three-byte buffer. *)
Lemma read_stays_within_the_buffer_witness :
  length (TunLinux.read Sample.strerror Sample.linux_tun [x00; x00; x00]
            (Posix.datagram [x45; x00])).1.2 = 3%nat ∧
  (TunLinux.read Sample.strerror Sample.linux_tun [x00; x00; x00]
     (Posix.datagram [x45; x00])).1.1 <= 3.
Proof.
  destruct (read_stays_within_the_buffer Sample.strerror [x00; x00; x00]
              (Posix.datagram [x45; x00])) as [Hlinux _].
  apply (Hlinux Sample.linux_tun).
  intros data [= <-]. cbn. lia.
Defined.
